(** * A referral-and-investment ledger: inventory, payouts, referral bonuses
      and milestone rewards

    Shallow embedding of [src/lib/product-inventory-service.ts] and of the
    services of [user-service] (InvestmentPlanService, ReferralService and
    the store services they call), with the properties of the specification
    stated over it.

    Conventions of the embedding:
    - Firestore documents are records, collections keyed by document id are
      [gmap string _], append-only collections are lists (newest last);
    - currency amounts are whole units ([Z]); percentages are taken exactly;
    - instants ([new Date()], ISO date strings) are milliseconds in [Z];
      the instants read during one operation are one instant [now], and an
      optional date string that is absent or empty is [None];
    - [isClientSide()] is the boolean [client];
    - a Firestore call that fails is named by [fails]; [nofail] is the
      store that never fails. *)

From stdpp Require Import gmap strings list pretty sorting.
From Stdlib Require Import ZArith Lia.

Local Open Scope Z_scope.

(** ** Inventory manager ([product-inventory-service.ts]) *)

Module Inventory.

(** One entry of an inventory document:
    [{ purchased: number; total: number; name: string }]. *)
Record Item := mkItem { purchased : Z; total : Z; name : string }.

(** [productType: 'special' | 'premium'] *)
Inductive ProductType := special | premium.

#[global] Instance ProductType_eq_dec : EqDecision ProductType.
Proof. solve_decision. Defined.

(** The collection [product_inventory]: the marker document
    ['initialized'] (its [initialized] field when the document exists) and
    the two inventory documents, each a map from product id to [Item]. *)
Record InvStore := mkInv {
  initialized : option bool;
  specialDoc : option (gmap string Item);
  premiumDoc : option (gmap string Item)
}.

Definition emptyStore : InvStore := mkInv None None None.

(** [getDoc(doc(db, COLLECTION, productType))] *)
Definition inventoryDoc (ty : ProductType) (s : InvStore)
  : option (gmap string Item) :=
  match ty with special => specialDoc s | premium => premiumDoc s end.

(** [setDoc(doc(db, COLLECTION, productType), data)]: replaces the document. *)
Definition setDoc (ty : ProductType) (d : gmap string Item) (s : InvStore)
  : InvStore :=
  match ty with
  | special => mkInv (initialized s) (Some d) (premiumDoc s)
  | premium => mkInv (initialized s) (specialDoc s) (Some d)
  end.

(** [setDoc(doc(db, COLLECTION, 'initialized'), { initialized: b, ... })] *)
Definition setMarker (b : bool) (s : InvStore) : InvStore :=
  mkInv (Some b) (specialDoc s) (premiumDoc s).

Definition specialInventory : gmap string Item :=
  list_to_map
    [ ("special-1", mkItem 0 50 "Special 1");
      ("special-2", mkItem 0 50 "Special 2");
      ("special-3", mkItem 0 50 "Special 3");
      ("special-4", mkItem 0 50 "Special 4");
      ("special-5", mkItem 0 50 "Special 5");
      ("special-6", mkItem 0 35 "Special 6");
      ("special-7", mkItem 0 25 "Special 7");
      ("special-8", mkItem 0 15 "Special 8");
      ("special-9", mkItem 0 5 "Special 9");
      ("special-10", mkItem 0 3 "Special 10");
      ("special-11", mkItem 0 1 "Special 11") ].

Definition premiumInventory : gmap string Item :=
  list_to_map
    [ ("premium-1", mkItem 0 200 "Premium 1");
      ("premium-2", mkItem 0 55 "Premium 2");
      ("premium-3", mkItem 0 55 "Premium 3");
      ("premium-4", mkItem 0 55 "Premium 4");
      ("premium-5", mkItem 0 50 "Premium 5");
      ("premium-6", mkItem 0 45 "Premium 6");
      ("premium-7", mkItem 0 20 "Premium 7");
      ("premium-8", mkItem 0 10 "Premium 8");
      ("premium-9", mkItem 0 2 "Premium 9");
      ("premium-10", mkItem 0 1 "Premium 10") ].

(** The field patch [updateDoc(ref, { [`${productId}.purchased`]: n })]:
    only the [purchased] field of that entry is written. The code issues
    the patch for an entry it has read from the document. (For an entry
    that is gone by then Firestore would create one with that field alone;
    no property below patches an absent entry.) *)
Definition setPurchased (n : Z) (it : Item) : Item :=
  mkItem n (total it) (name it).

Definition patchPurchased (ty : ProductType) (productId : string) (n : Z)
    (s : InvStore) : InvStore :=
  match inventoryDoc ty s with
  | None => s
  | Some d => setDoc ty (alter (setPurchased n) productId d) s
  end.

(** *** Product ids and inherited properties

    The code looks a product up with [inventory[productId]] on the plain
    object [inventoryDoc.data()] (or [{}]) and tests the result for
    truthiness. For the names of the properties every object inherits from
    [Object.prototype] the lookup yields that property, which is truthy,
    although the document has no such entry. For every other product id
    [inventory[productId]] is the entry of the document or [undefined],
    which is the lookup [inventory !! productId] of the embedding. The
    operations below are the code's for product ids that are not such a
    name ([plainKey]) and for ids that have an entry in the document; the
    properties of the operations say so where a product id without entry
    comes in. *)
Definition objectPrototypeKeys : list string :=
  [ "constructor"; "__defineGetter__"; "__defineSetter__"; "hasOwnProperty";
    "__lookupGetter__"; "__lookupSetter__"; "isPrototypeOf";
    "propertyIsEnumerable"; "toString"; "valueOf"; "__proto__";
    "toLocaleString" ].

Definition inheritedKey (productId : string) : bool :=
  bool_decide (productId ∈ objectPrototypeKeys).

Definition plainKey (productId : string) : Prop :=
  inheritedKey productId = false.

Section Sequential.
Variable client : bool.

(** [initializeInventory]: a no-op when the marker document exists;
    otherwise the three [setDoc] calls, in the order of the source. *)
Definition initializeInventory (s : InvStore) : InvStore :=
  if negb client then s
  else match initialized s with
       | Some _ => s
       | None =>
           setMarker true
             (setDoc premium premiumInventory
                (setDoc special specialInventory s))
       end.

(** [increasePurchasedCount]: the returned boolean and the store left. *)
Definition increasePurchasedCount (productId : string) (ty : ProductType)
    (s : InvStore) : bool * InvStore :=
  if negb client then (false, s)
  else
    let s1 := initializeInventory s in
    match inventoryDoc ty s1 with
    | None => (false, s1)
    | Some inventory =>
        match inventory !! productId with
        | None => (false, s1)
        | Some it =>
            if purchased it >=? total it then (false, s1)
            else
              let oldPurchased := purchased it in
              let newPurchased := oldPurchased + 1 in
              (true, patchPurchased ty productId newPurchased s1)
        end
    end.

(** [restoreInventory]: every entry of the document gets [purchased = 0]. *)
Definition restoreInventory (ty : ProductType) (s : InvStore) : InvStore :=
  if negb client then s
  else match inventoryDoc ty s with
       | None => s
       | Some inventory => setDoc ty (setPurchased 0 <$> inventory) s
       end.

(** [isProductAvailable] *)
Definition isProductAvailable (productId : string) (ty : ProductType)
    (s : InvStore) : bool * InvStore :=
  if negb client then (false, s)
  else
    let s1 := initializeInventory s in
    match inventoryDoc ty s1 with
    | None => (false, s1)
    | Some inventory =>
        match inventory !! productId with
        | None => (false, s1)
        | Some it => (purchased it <? total it, s1)
        end
    end.

(** A call of one of the three mutating operations. *)
Inductive Call :=
| CallInitialize
| CallIncrease (productId : string) (ty : ProductType)
| CallRestore (ty : ProductType).

Definition runCall (c : Call) (s : InvStore) : InvStore :=
  match c with
  | CallInitialize => initializeInventory s
  | CallIncrease productId ty => snd (increasePurchasedCount productId ty s)
  | CallRestore ty => restoreInventory ty s
  end.

Definition runCalls (cs : list Call) (s : InvStore) : InvStore :=
  foldl (fun s c => runCall c s) s cs.

End Sequential.

(** The calls whose product ids are not inherited property names. *)
Definition plainCall (c : Call) : Prop :=
  match c with
  | CallIncrease productId _ => plainKey productId
  | CallInitialize | CallRestore _ => True
  end.

Definition plainCalls (cs : list Call) : Prop := Forall plainCall cs.

(** The invariant of an inventory document and of the store. *)
Definition item_ok (it : Item) : Prop := 0 <= purchased it <= total it.

Definition doc_ok (d : gmap string Item) : Prop :=
  forall productId it, d !! productId = Some it -> item_ok it.

Definition inv (s : InvStore) : Prop :=
  forall ty d, inventoryDoc ty s = Some d -> doc_ok d.

(** An inventory document only exists in an initialised collection. The
    empty collection satisfies this, and the three operations keep it. *)
Definition marked (s : InvStore) : Prop :=
  forall ty, inventoryDoc ty s <> None -> initialized s <> None.

(** *** Interleaved calls of [increasePurchasedCount]

    Each [await] of a call is one atomic store operation; between two of
    them other calls may run. A call in flight is its arguments and the
    point it has reached. *)
Inductive Pc :=
| PStart                       (* before [getDoc] of the marker *)
| PInitSpecial                 (* before [setDoc] of 'special' *)
| PInitPremium                 (* before [setDoc] of 'premium' *)
| PInitMarker                  (* before [setDoc] of the marker *)
| PRead                        (* before [getDoc(inventoryRef)] *)
| PWrite (newPurchased : Z)    (* before [updateDoc(inventoryRef, ...)] *)
| PDone (result : bool).

Record Thread := mkThread {
  t_productId : string;
  t_type : ProductType;
  t_pc : Pc
}.

Definition at_pc (t : Thread) (pc : Pc) : Thread :=
  mkThread (t_productId t) (t_type t) pc.

Definition call (productId : string) (ty : ProductType) : Thread :=
  mkThread productId ty PStart.

(** The calls in flight whose product ids are not inherited property
    names. *)
Definition plainThreads (ts : list Thread) : Prop :=
  Forall (fun t => plainKey (t_productId t)) ts.

Definition stepThread (client : bool) (t : Thread) (s : InvStore)
  : Thread * InvStore :=
  match t_pc t with
  | PStart =>
      if negb client then (at_pc t (PDone false), s)
      else match initialized s with
           | Some _ => (at_pc t PRead, s)
           | None => (at_pc t PInitSpecial, s)
           end
  | PInitSpecial => (at_pc t PInitPremium, setDoc special specialInventory s)
  | PInitPremium => (at_pc t PInitMarker, setDoc premium premiumInventory s)
  | PInitMarker => (at_pc t PRead, setMarker true s)
  | PRead =>
      match inventoryDoc (t_type t) s with
      | None => (at_pc t (PDone false), s)
      | Some inventory =>
          match inventory !! t_productId t with
          | None => (at_pc t (PDone false), s)
          | Some it =>
              if purchased it >=? total it then (at_pc t (PDone false), s)
              else (at_pc t (PWrite (purchased it + 1)), s)
          end
      end
  | PWrite newPurchased =>
      (at_pc t (PDone true),
       patchPurchased (t_type t) (t_productId t) newPurchased s)
  | PDone _ => (t, s)
  end.

(** A configuration: the calls in flight and the store. A schedule names,
    step by step, the call that performs its next store operation. *)
Definition Config : Type := list Thread * InvStore.

Definition stepAt (client : bool) (i : nat) (c : Config) : Config :=
  match c.1 !! i with
  | None => c
  | Some t =>
      let '(t', s') := stepThread client t c.2 in (<[i := t']> c.1, s')
  end.

Definition runSchedule (client : bool) (sched : list nat) (c : Config)
  : Config :=
  foldl (fun c i => stepAt client i c) c sched.

Definition succeeded (t : Thread) : bool :=
  match t_pc t with PDone true => true | _ => false end.

Definition successes (ts : list Thread) : nat :=
  length (filter (fun t => succeeded t = true) ts).

(** What a call in flight has established about the store. *)
Definition pc_ok (s : InvStore) (t : Thread) : Prop :=
  match t_pc t with
  | PStart | PRead | PDone _ => True
  | PInitSpecial | PInitPremium | PInitMarker => False
  | PWrite n =>
      exists d it, inventoryDoc (t_type t) s = Some d /\
                   d !! t_productId t = Some it /\ 0 <= n <= total it
  end.

(** A call run on its own for [fuel] store operations. *)
Fixpoint runThread (fuel : nat) (client : bool) (t : Thread) (s : InvStore)
  : Thread * InvStore :=
  match fuel with
  | O => (t, s)
  | S fuel' =>
      let '(t', s') := stepThread client t s in runThread fuel' client t' s'
  end.

(** The configuration invariant of interleaved calls on an initialised
    store. *)
Definition cfg_ok (c : Config) : Prop :=
  initialized c.2 <> None /\ inv c.2 /\ Forall (pc_ok c.2) c.1.

(** The same for a store that was not initialised when the calls started:
    a call that has passed the initialisation sees documents with the
    products and totals of the default inventories, whatever the other
    calls have written since. *)
Definition defaultsOf (ty : ProductType) : gmap string Item :=
  match ty with special => specialInventory | premium => premiumInventory end.

Definition shaped (ty : ProductType) (s : InvStore) : Prop :=
  exists d, inventoryDoc ty s = Some d /\
            forall productId,
              total <$> d !! productId = total <$> defaultsOf ty !! productId.

Definition pc_fresh (s : InvStore) (t : Thread) : Prop :=
  match t_pc t with
  | PStart | PInitSpecial | PDone _ => True
  | PInitPremium => shaped special s
  | PInitMarker | PRead => shaped special s /\ shaped premium s
  | PWrite n =>
      shaped special s /\ shaped premium s /\
      exists it0, defaultsOf (t_type t) !! t_productId t = Some it0 /\
                  0 <= n <= total it0
  end.

Definition cfg_fresh (c : Config) : Prop :=
  inv c.2 /\
  (initialized c.2 <> None -> shaped special c.2 /\ shaped premium c.2) /\
  Forall (pc_fresh c.2) c.1.

(** The store right after the lazy initialisation of an empty collection. *)
Definition freshStore : InvStore := initializeInventory true emptyStore.

(** The store in which the single unit of "special-11" has been bought. *)
Definition soldOutStore : InvStore :=
  (increasePurchasedCount true "special-11" special freshStore).2.

(** *** The other operations of the class *)

Section Readers.
Variable client : bool.

(** [forceResetInventory]: the marker document is overwritten with
    [{ initialized: false }] (it still exists), then [initializeInventory]
    is called. *)
Definition forceResetInventory (s : InvStore) : InvStore :=
  if negb client then s
  else initializeInventory client (setMarker false s).

(** [getInventory]: the data of the document, [{}] when it does not exist. *)
Definition getInventory (ty : ProductType) (s : InvStore)
  : gmap string Item :=
  if negb client then ∅
  else match inventoryDoc ty s with
       | Some d => d
       | None => ∅
       end.

(** [getProductAvailability]: the pair [{ purchased, total }] (for a
    product id that has an entry or is [plainKey]). *)
Definition getProductAvailability (productId : string) (ty : ProductType)
    (s : InvStore) : (Z * Z) * InvStore :=
  if negb client then ((0, 0), s)
  else
    let s1 := initializeInventory client s in
    let inventory := getInventory ty s1 in
    match inventory !! productId with
    | Some product => ((purchased product, total product), s1)
    | None => ((0, 0), s1)
    end.

(** Calls of [increasePurchasedCount] one after the other: the booleans
    returned, in order, and the store left. *)
Fixpoint purchases (calls : list (string * ProductType)) (s : InvStore)
  : list bool * InvStore :=
  match calls with
  | [] => ([], s)
  | (productId, ty) :: rest =>
      let '(b, s1) := increasePurchasedCount client productId ty s in
      let '(bs, s2) := purchases rest s1 in
      (b :: bs, s2)
  end.

End Readers.

(** The purchases whose product ids are not inherited property names. *)
Definition plainPurchases (calls : list (string * ProductType)) : Prop :=
  Forall (fun c => plainKey c.1) calls.

(** The purchased count of a product as the store has it ([0] when the
    document or the entry is absent). *)
Definition purchasedOf (ty : ProductType) (productId : string)
    (s : InvStore) : Z :=
  match inventoryDoc ty s ≫= (.!! productId) with
  | Some it => purchased it
  | None => 0
  end.

(** The number of calls for [productId] of type [ty] that returned [true]. *)
Fixpoint sold (productId : string) (ty : ProductType)
    (calls : list (string * ProductType)) (results : list bool) : Z :=
  match calls, results with
  | (productId', ty') :: calls', b :: results' =>
      (if b && bool_decide (productId' = productId) && bool_decide (ty' = ty)
       then 1 else 0) + sold productId ty calls' results'
  | _, _ => 0
  end.

(** The documents are absent although the marker exists: no operation
    creates them any more. *)
Definition blocked (s : InvStore) : Prop :=
  initialized s <> None /\ forall ty, inventoryDoc ty s = None.

(** A document with every purchased count set to 0. *)
Definition restoredDoc (d : gmap string Item) : gmap string Item :=
  setPurchased 0 <$> d.

(** The store after [forceResetInventory] on the empty collection. *)
Definition resetStore : InvStore := forceResetInventory true emptyStore.

End Inventory.

(** ** The inventory class of [user-service] ([available] counts)

    The second [ProductInventoryService], which stores for each product
    the number of units still available. *)

Module LegacyInventory.

Record Item := mkItem { available : Z; total : Z; name : string }.

Record InvStore := mkInv {
  initialized : option bool;
  specialDoc : option (gmap string Item);
  premiumDoc : option (gmap string Item)
}.

Definition emptyStore : InvStore := mkInv None None None.

Definition inventoryDoc (ty : Inventory.ProductType) (s : InvStore)
  : option (gmap string Item) :=
  match ty with
  | Inventory.special => specialDoc s
  | Inventory.premium => premiumDoc s
  end.

Definition setDoc (ty : Inventory.ProductType) (d : gmap string Item)
    (s : InvStore) : InvStore :=
  match ty with
  | Inventory.special => mkInv (initialized s) (Some d) (premiumDoc s)
  | Inventory.premium => mkInv (initialized s) (specialDoc s) (Some d)
  end.

Definition setMarker (b : bool) (s : InvStore) : InvStore :=
  mkInv (Some b) (specialDoc s) (premiumDoc s).

Definition specialInventory : gmap string Item :=
  list_to_map
    [ ("special-1", mkItem 50 50 "Special 1");
      ("special-2", mkItem 50 50 "Special 2");
      ("special-3", mkItem 50 50 "Special 3");
      ("special-4", mkItem 50 50 "Special 4");
      ("special-5", mkItem 50 50 "Special 5");
      ("special-6", mkItem 35 35 "Special 6");
      ("special-7", mkItem 25 25 "Special 7");
      ("special-8", mkItem 15 15 "Special 8");
      ("special-9", mkItem 5 5 "Special 9");
      ("special-10", mkItem 3 3 "Special 10");
      ("special-11", mkItem 1 1 "Special 11") ].

Definition premiumInventory : gmap string Item :=
  list_to_map
    [ ("premium-1", mkItem 200 200 "Premium 1");
      ("premium-2", mkItem 55 55 "Premium 2");
      ("premium-3", mkItem 55 55 "Premium 3");
      ("premium-4", mkItem 55 55 "Premium 4");
      ("premium-5", mkItem 50 50 "Premium 5");
      ("premium-6", mkItem 45 45 "Premium 6");
      ("premium-7", mkItem 20 20 "Premium 7");
      ("premium-8", mkItem 10 10 "Premium 8");
      ("premium-9", mkItem 2 2 "Premium 9");
      ("premium-10", mkItem 1 1 "Premium 10") ].

Definition setAvailable (n : Z) (it : Item) : Item :=
  mkItem n (total it) (name it).

Section Sequential.
Variable client : bool.

Definition initializeInventory (s : InvStore) : InvStore :=
  if negb client then s
  else match initialized s with
       | Some _ => s
       | None =>
           setMarker true
             (setDoc Inventory.premium premiumInventory
                (setDoc Inventory.special specialInventory s))
       end.

Definition getInventory (ty : Inventory.ProductType) (s : InvStore)
  : gmap string Item :=
  if negb client then ∅
  else match inventoryDoc ty s with
       | Some d => d
       | None => ∅
       end.

(** [decreaseAvailability]: the entry read is decremented in the object
    read, and the whole object is written back with [setDoc]. As in the
    other class, [inventory !! productId] is [inventory[productId]] for a
    product id that has an entry or is [Inventory.plainKey]. *)
Definition decreaseAvailability (productId : string)
    (ty : Inventory.ProductType) (s : InvStore) : bool * InvStore :=
  if negb client then (false, s)
  else
    match inventoryDoc ty s with
    | None => (false, s)
    | Some inventory =>
        match inventory !! productId with
        | None => (false, s)
        | Some it =>
            if available it <=? 0 then (false, s)
            else
              (true,
               setDoc ty
                 (<[productId := setAvailable (available it - 1) it]> inventory)
                 s)
        end
    end.

(** [restoreInventory]: every entry gets [available = total]. *)
Definition restoreInventory (ty : Inventory.ProductType) (s : InvStore)
  : InvStore :=
  if negb client then s
  else match inventoryDoc ty s with
       | None => s
       | Some inventory =>
           setDoc ty ((fun it => setAvailable (total it) it) <$> inventory) s
       end.

(** [inventory[productId]?.available > 0 || false] *)
Definition isProductAvailable (productId : string)
    (ty : Inventory.ProductType) (s : InvStore) : bool :=
  if negb client then false
  else match getInventory ty s !! productId with
       | Some it => available it >? 0
       | None => false
       end.

(** [getProductAvailability]: the pair [{ available, total }] (for a
    product id that has an entry or is [Inventory.plainKey]). *)
Definition getProductAvailability (productId : string)
    (ty : Inventory.ProductType) (s : InvStore) : Z * Z :=
  if negb client then (0, 0)
  else match getInventory ty s !! productId with
       | Some product => (available product, total product)
       | None => (0, 0)
       end.

End Sequential.

Definition item_ok (it : Item) : Prop := 0 <= available it <= total it.

Definition inv (s : InvStore) : Prop :=
  forall ty d productId it,
    inventoryDoc ty s = Some d -> d !! productId = Some it -> item_ok it.

(** The store of available counts that corresponds to a store of purchased
    counts: [available = total - purchased]. *)
Definition toAvailable (it : Inventory.Item) : Item :=
  mkItem (Inventory.total it - Inventory.purchased it) (Inventory.total it)
         (Inventory.name it).

Definition toLegacyDoc (d : gmap string Inventory.Item) : gmap string Item :=
  toAvailable <$> d.

Definition toLegacy (s : Inventory.InvStore) : InvStore :=
  mkInv (Inventory.initialized s)
        (toLegacyDoc <$> Inventory.specialDoc s)
        (toLegacyDoc <$> Inventory.premiumDoc s).

End LegacyInventory.

(** ** The ledger services ([user-service]) *)

Module Ledger.

(** *** Documents *)

(** [AppUser], with the fields the modelled services read or write. The
    [user_id] of a stored document is its [id] field, or the document key
    when the data has none ([{ id: userDoc.id, ...userDoc.data() }]).
    [hasDeposited] absent reads as [false]. *)
Record AppUser := mkUser {
  user_id : string;
  email : string;
  balance : option Z;
  referredBy : option string;
  referralEarnings : option Z;
  totalReferrals : option Z;
  hasDeposited : bool
}.

Inductive TransactionType :=
| Deposit | Withdrawal | Investment | Admin_Add | Admin_Deduct
| Referral_Bonus.

Inductive TransactionStatus := TxCompleted | TxPending | TxFailed.

Record Transaction := mkTx {
  tx_userId : string;
  tx_userEmail : string;
  tx_type : TransactionType;
  tx_amount : Z;
  tx_status : TransactionStatus;
  tx_date : Z;
  tx_description : string;
  tx_referralUserId : option string
}.

Inductive NotificationType :=
| NtAnnouncement | NtSystem | NtReferral | NtTransaction.

Record Notification := mkNote {
  nt_userId : string;
  nt_message : string;
  nt_date : Z;
  nt_read : bool;
  nt_type : NotificationType
}.

Inductive ProductStatus := Active | Completed.
Inductive PlanType := Basic | Special | Premium.

Record PurchasedProduct := mkProduct {
  pp_id : string;
  pp_userId : string;
  pp_name : string;
  price : Z;
  dailyEarning : Z;
  totalEarning : Z;
  pp_status : ProductStatus;
  planType : PlanType;
  startDate : Z;
  endDate : Z;
  lastPayoutDate : option Z
}.

Inductive RewardStatus := RwClaimed | RwPending.

(** A document of [referral_rewards]. *)
Record RewardClaim := mkReward {
  rw_userId : string;
  milestoneTarget : Z;
  rw_amount : Z;
  rw_status : RewardStatus;
  claimedAt : Z
}.

#[global] Instance TransactionType_eq_dec : EqDecision TransactionType.
Proof. solve_decision. Defined.
#[global] Instance ProductStatus_eq_dec : EqDecision ProductStatus.
Proof. solve_decision. Defined.
#[global] Instance PlanType_eq_dec : EqDecision PlanType.
Proof. solve_decision. Defined.
#[global] Instance RewardStatus_eq_dec : EqDecision RewardStatus.
Proof. solve_decision. Defined.

(** *** The store *)

Record Store := mkStore {
  users : gmap string AppUser;
  transactions : list Transaction;
  notifications : list Notification;
  purchased_products : list PurchasedProduct;
  referral_rewards : list RewardClaim
}.

Definition emptyStore : Store := mkStore ∅ [] [] [] [].

Definition set_users (f : gmap string AppUser -> gmap string AppUser)
    (s : Store) : Store :=
  mkStore (f (users s)) (transactions s) (notifications s)
          (purchased_products s) (referral_rewards s).

Definition set_transactions (f : list Transaction -> list Transaction)
    (s : Store) : Store :=
  mkStore (users s) (f (transactions s)) (notifications s)
          (purchased_products s) (referral_rewards s).

Definition set_notifications (f : list Notification -> list Notification)
    (s : Store) : Store :=
  mkStore (users s) (transactions s) (f (notifications s))
          (purchased_products s) (referral_rewards s).

Definition set_purchased_products
    (f : list PurchasedProduct -> list PurchasedProduct) (s : Store)
  : Store :=
  mkStore (users s) (transactions s) (notifications s)
          (f (purchased_products s)) (referral_rewards s).

Definition set_referral_rewards (f : list RewardClaim -> list RewardClaim)
    (s : Store) : Store :=
  mkStore (users s) (transactions s) (notifications s)
          (purchased_products s) (f (referral_rewards s)).

(** *** Store calls that can fail, and the monad of the services

    A service is a function of the store that returns a value and a store,
    or throws and leaves the store as it was at the throw. *)

Inductive StoreCall :=
| GetUser (userId : string)
| GetTransactions
| GetProducts
| GetUsers
| GetRewards
| SaveUser (userId : string)
| CreateTransaction (userId : string)
| CreateNotification (userId : string)
| UpdateProduct (productId : string)
| AddReward (userId : string).

Inductive Error :=
| NotInitialized                 (* [new Error('Firebase not initialized')] *)
| StoreError (call : StoreCall). (* an error of the Firestore call *)

Inductive Outcome (A : Type) :=
| Ok (a : A) (s : Store)
| Throw (e : Error) (s : Store).
Arguments Ok {A} a s.
Arguments Throw {A} e s.

Definition M (A : Type) : Type := Store -> Outcome A.

Definition ret {A} (a : A) : M A := fun s => Ok a s.

Definition bind {A B} (m : M A) (k : A -> M B) : M B :=
  fun s => match m s with
           | Ok a s' => k a s'
           | Throw e s' => Throw e s'
           end.

Definition throw {A} (e : Error) : M A := fun s => Throw e s.

(** [try { m } catch (error) { h error }] *)
Definition try_catch {A} (m : M A) (h : Error -> M A) : M A :=
  fun s => match m s with
           | Ok a s' => Ok a s'
           | Throw e s' => h e s'
           end.

Notation "x <- m ;; k" := (bind m (fun x => k))
  (at level 63, m at next level, right associativity).
Notation "m ;;; k" := (bind m (fun _ => k))
  (at level 63, right associativity).

(** [for (const x of l) { await f x }] *)
Fixpoint for_of {A} (l : list A) (f : A -> M unit) : M unit :=
  match l with
  | [] => ret tt
  | x :: l' => f x ;;; for_of l' f
  end.

Definition outcome_store {A} (o : Outcome A) : Store :=
  match o with Ok _ s => s | Throw _ s => s end.

(** No store call fails. *)
Definition nofail : StoreCall -> bool := fun _ => false.

(** *** JavaScript helpers *)

(** [x || 0] on an optional number. *)
Definition or0 (x : option Z) : Z :=
  match x with Some v => v | None => 0 end.

(** Truthiness of an optional string ([!user.referredBy] is its negation). *)
Definition truthy (x : option string) : bool :=
  match x with
  | Some v => negb (String.eqb v "")
  | None => false
  end.

(** [Math.round(amount * pct / 100)] for a whole [amount] and a whole
    percentage: the nearest integer, a half rounded up. The code multiplies
    in double precision ([depositAmount * 0.19], [* 0.02], [* 0.01]); these
    three constants are slightly above their decimal values as doubles, so
    for a whole amount from 0 to 10^12 the double product is within 0.001
    of the exact one, and not below it when the exact one ends in .5;
    [Math.round] of it is then the exactly rounded value defined here. For larger amounts the double
    result can differ by one, and amounts with a fractional part are not
    covered. *)
Definition round_percent (pct amount : Z) : Z := (pct * amount + 50) / 100.

(** One day in milliseconds: [1000 * 60 * 60 * 24]. *)
Definition msPerDay : Z := 1000 * 60 * 60 * 24.

Section Services.
Variable client : bool.               (* [isClientSide()] *)
Variable fails : StoreCall -> bool.   (* the store calls that fail *)
Variable now : Z.                     (* [new Date()] during the call *)
Variable toLocaleString : Z -> string.

(** *** UserService *)

Definition getUserById (userId : string) : M (option AppUser) :=
  fun s => if fails (GetUser userId) then Ok None s
           else Ok (users s !! userId) s.

Definition saveUser (user : AppUser) : M unit :=
  fun s => if fails (SaveUser (user_id user))
           then Throw (StoreError (SaveUser (user_id user))) s
           else Ok tt (set_users (insert (user_id user) user) s).

(** *** TransactionService *)

(** The callers modelled here only test or sum the list returned, so its
    order ([orderBy('date', 'desc')]) is left out. *)
Definition getTransactionsByUser (userId : string) : M (list Transaction) :=
  fun s => if negb client then Ok [] s
           else if fails GetTransactions then Ok [] s
           else Ok (filter (fun t => tx_userId t = userId) (transactions s)) s.

Definition createTransaction (t : Transaction) : M unit :=
  fun s => if fails (CreateTransaction (tx_userId t))
           then Throw (StoreError (CreateTransaction (tx_userId t))) s
           else Ok tt (set_transactions (fun l => l ++ [t]) s).

(** *** NotificationService *)

Definition createNotification (n : Notification) : M unit :=
  fun s => if negb client then Throw NotInitialized s
           else if fails (CreateNotification (nt_userId n))
           then Throw (StoreError (CreateNotification (nt_userId n))) s
           else Ok tt (set_notifications (fun l => l ++ [n]) s).

(** *** ProductService *)

(** The sort by purchase date is left out: the caller modelled here only
    takes the length. ([db] is defined wherever a store is.) *)
Definition getUserProducts (userId : string) : M (list PurchasedProduct) :=
  fun s => if negb client then Ok [] s
           else if fails GetProducts then Ok [] s
           else Ok (filter (fun p => pp_userId p = userId)
                           (purchased_products s)) s.

Definition getAllActiveProducts : M (list PurchasedProduct) :=
  fun s => if negb client then Ok [] s
           else if fails GetProducts then Ok [] s
           else Ok (filter (fun p => pp_status p = Active)
                           (purchased_products s)) s.

Definition hasProduct (productId : string) (s : Store) : bool :=
  existsb (fun p => String.eqb (pp_id p) productId) (purchased_products s).

(** [updateDoc(doc(db, COLLECTION, productId), patch)]: an error when the
    document does not exist. *)
Definition updateProduct (productId : string)
    (patch : PurchasedProduct -> PurchasedProduct) : M unit :=
  fun s => if negb client then Throw NotInitialized s
           else if fails (UpdateProduct productId) || negb (hasProduct productId s)
           then Throw (StoreError (UpdateProduct productId)) s
           else Ok tt (set_purchased_products
                         (map (fun p => if String.eqb (pp_id p) productId
                                        then patch p else p)) s).

Definition with_status (st : ProductStatus) (p : PurchasedProduct)
  : PurchasedProduct :=
  mkProduct (pp_id p) (pp_userId p) (pp_name p) (price p) (dailyEarning p)
            (totalEarning p) st (planType p) (startDate p) (endDate p)
            (lastPayoutDate p).

Definition with_lastPayoutDate (d : Z) (p : PurchasedProduct)
  : PurchasedProduct :=
  mkProduct (pp_id p) (pp_userId p) (pp_name p) (price p) (dailyEarning p)
            (totalEarning p) (pp_status p) (planType p) (startDate p)
            (endDate p) (Some d).

Definition updateProductStatus (productId : string) (st : ProductStatus)
  : M unit := updateProduct productId (with_status st).

Definition updateProductPayoutDate (productId : string) (payoutDate : Z)
  : M unit := updateProduct productId (with_lastPayoutDate payoutDate).

(** *** InvestmentPlanService *)

Definition with_balance (b : Z) (u : AppUser) : AppUser :=
  mkUser (user_id u) (email u) (Some b) (referredBy u) (referralEarnings u)
         (totalReferrals u) (hasDeposited u).

Definition addToUserBalance (userId : string) (amount : Z) : M unit :=
  if negb client then ret tt
  else
    try_catch
      (user <- getUserById userId ;;
       match user with
       | Some user =>
           let newBalance := or0 (balance user) + amount in
           saveUser (with_balance newBalance user)
       | None => ret tt
       end)
      (fun _ => ret tt).

Definition processDailyPayout (product : PurchasedProduct) : M unit :=
  if negb client then ret tt
  else
    let lastPayout :=
      match lastPayoutDate product with
      | Some d => d
      | None => startDate product
      end in
    let daysSinceLastPayout := (now - lastPayout) / msPerDay in
    if daysSinceLastPayout >=? 1 then
      (match planType product with
       | Special =>
           let payoutAmount := dailyEarning product in
           addToUserBalance (pp_userId product) payoutAmount ;;;
           createTransaction
             (mkTx (pp_userId product) "" Investment payoutAmount
                   TxCompleted now
                   ("Daily payout from " +:+ pp_name product) None)
       | _ => ret tt
       end) ;;;
      updateProductPayoutDate (pp_id product) now
    else ret tt.

Definition completePlan (product : PurchasedProduct) : M unit :=
  if negb client then ret tt
  else
    let finalPayout :=
      match planType product with
      | Basic => totalEarning product
      | Premium => totalEarning product
      | Special => price product
      end in
    addToUserBalance (pp_userId product) finalPayout ;;;
    createTransaction
      (mkTx (pp_userId product) "" Investment finalPayout TxCompleted now
            ("Plan completion payout from " +:+ pp_name product) None) ;;;
    updateProductStatus (pp_id product) Completed.

(** The body of the loop of [processDailyPayouts]. *)
Definition sweepProduct (product : PurchasedProduct) : M unit :=
  if bool_decide (pp_status product = Completed) || (now <? startDate product)
  then ret tt
  else if now >=? endDate product then completePlan product
  else processDailyPayout product.

Definition processDailyPayouts : M unit :=
  if negb client then ret tt
  else
    try_catch
      (allProducts <- getAllActiveProducts ;;
       for_of allProducts sweepProduct)
      (fun _ => ret tt).

(** *** ReferralService: deposit bonuses *)

Definition with_bonus (bonus : Z) (u : AppUser) : AppUser :=
  mkUser (user_id u) (email u) (Some (or0 (balance u) + bonus))
         (referredBy u) (Some (or0 (referralEarnings u) + bonus))
         (totalReferrals u) (hasDeposited u).

Definition processLevel1ReferralBonus (user : AppUser) (depositAmount : Z)
  : M unit :=
  referrer <- getUserById (default "" (referredBy user)) ;;
  match referrer with
  | None => ret tt
  | Some referrer =>
      let level1Bonus := round_percent 19 depositAmount in
      if level1Bonus >? 0 then
        let updatedReferrer := with_bonus level1Bonus referrer in
        saveUser updatedReferrer ;;;
        createTransaction
          (mkTx (user_id referrer) (email referrer) Referral_Bonus
                level1Bonus TxCompleted now
                "Level 1 referral bonus for first deposit"
                (Some (user_id user))) ;;;
        createNotification
          (mkNote (user_id referrer)
                  ("You earned ₦" +:+ pretty level1Bonus +:+
                   " Level 1 referral bonus! Your referred user made their first deposit.")
                  now false NtReferral)
      else ret tt
  end.

Definition processLevel2ReferralBonus (user : AppUser) (depositAmount : Z)
  : M unit :=
  level1Referrer <- getUserById (default "" (referredBy user)) ;;
  match level1Referrer with
  | None => ret tt
  | Some level1Referrer =>
      if negb (truthy (referredBy level1Referrer)) then ret tt
      else
        level2Referrer <-
          getUserById (default "" (referredBy level1Referrer)) ;;
        match level2Referrer with
        | None => ret tt
        | Some level2Referrer =>
            let level2Bonus := round_percent 2 depositAmount in
            if level2Bonus >? 0 then
              let updatedLevel2Referrer :=
                with_bonus level2Bonus level2Referrer in
              saveUser updatedLevel2Referrer ;;;
              createTransaction
                (mkTx (user_id level2Referrer) (email level2Referrer)
                      Referral_Bonus level2Bonus TxCompleted now
                      "Level 2 referral bonus for first deposit"
                      (Some (user_id user))) ;;;
              createNotification
                (mkNote (user_id level2Referrer)
                        ("You earned ₦" +:+ pretty level2Bonus +:+
                         " Level 2 referral bonus! Your level 2 referred user made their first deposit.")
                        now false NtReferral)
            else ret tt
        end
  end.

Definition processLevel3ReferralBonus (user : AppUser) (depositAmount : Z)
  : M unit :=
  level1Referrer <- getUserById (default "" (referredBy user)) ;;
  match level1Referrer with
  | None => ret tt
  | Some level1Referrer =>
      if negb (truthy (referredBy level1Referrer)) then ret tt
      else
        level2Referrer <-
          getUserById (default "" (referredBy level1Referrer)) ;;
        match level2Referrer with
        | None => ret tt
        | Some level2Referrer =>
            if negb (truthy (referredBy level2Referrer)) then ret tt
            else
              level3Referrer <-
                getUserById (default "" (referredBy level2Referrer)) ;;
              match level3Referrer with
              | None => ret tt
              | Some level3Referrer =>
                  let level3Bonus := round_percent 1 depositAmount in
                  if level3Bonus >? 0 then
                    let updatedLevel3Referrer :=
                      with_bonus level3Bonus level3Referrer in
                    saveUser updatedLevel3Referrer ;;;
                    createTransaction
                      (mkTx (user_id level3Referrer) (email level3Referrer)
                            Referral_Bonus level3Bonus TxCompleted now
                            "Level 3 referral bonus for first deposit"
                            (Some (user_id user))) ;;;
                    createNotification
                      (mkNote (user_id level3Referrer)
                              ("You earned ₦" +:+ pretty level3Bonus +:+
                               " Level 3 referral bonus! Your level 3 referred user made their first deposit.")
                              now false NtReferral)
                  else ret tt
              end
        end
  end.

(** [t.type === 'Referral_Bonus' && t.referralUserId === userId] *)
Definition isBonusFor (userId : string) (t : Transaction) : bool :=
  bool_decide (tx_type t = Referral_Bonus) &&
  bool_decide (tx_referralUserId t = Some userId).

Definition processDepositReferralBonus (userId : string) (depositAmount : Z)
  : M unit :=
  try_catch
    (user <- getUserById userId ;;
     match user with
     | None => ret tt
     | Some user =>
         if negb (truthy (referredBy user)) then ret tt
         else
           existingReferralTransactions <-
             getTransactionsByUser (default "" (referredBy user)) ;;
           let alreadyPaid :=
             existsb (isBonusFor userId) existingReferralTransactions in
           if alreadyPaid then ret tt
           else
             processLevel1ReferralBonus user depositAmount ;;;
             processLevel2ReferralBonus user depositAmount ;;;
             processLevel3ReferralBonus user depositAmount
     end)
    (fun error => throw error).

(** *** ReferralService: milestone rewards *)

(** [query(collection(db, 'users'), where('referredBy', '==', userId))] *)
Definition getDirectReferrals (userId : string) : M (list AppUser) :=
  fun s => if negb client then Ok [] s
           else if fails GetUsers then Throw (StoreError GetUsers) s
           else Ok (filter (fun u => referredBy u = Some userId)
                           (map_to_list (users s)).*2) s.

Record Milestone := mkMilestone {
  m_id : string;
  target : Z;
  reward : Z
}.

Definition getMilestoneConfig : list Milestone :=
  [ mkMilestone "VIP1" 5 1000;
    mkMilestone "VIP2" 15 5000;
    mkMilestone "VIP3" 30 9000;
    mkMilestone "VIP4" 50 20000;
    mkMilestone "VIP5" 70 30000;
    mkMilestone "VIP6" 130 60000;
    mkMilestone "VIP7" 250 100000;
    mkMilestone "VIP8" 300 120000;
    mkMilestone "VIP9" 400 150000;
    mkMilestone "VIP10" 500 200000;
    mkMilestone "VIP11" 900 250000;
    mkMilestone "VIP12" 1200 320000;
    mkMilestone "VIP13" 2000 400000 ].

(** The loop of [getValidReferralCount]. *)
Fixpoint countValidReferrals (level1Referrals : list AppUser)
    (validCount : Z) : M Z :=
  match level1Referrals with
  | [] => ret validCount
  | referral :: rest =>
      if negb (hasDeposited referral) then countValidReferrals rest validCount
      else
        products <- getUserProducts (user_id referral) ;;
        if (0 <? length products)%nat
        then countValidReferrals rest (validCount + 1)
        else countValidReferrals rest validCount
  end.

Definition getValidReferralCount (userId : string) : M Z :=
  level1Referrals <- getDirectReferrals userId ;;
  if (length level1Referrals =? 0)%nat then ret 0
  else countValidReferrals level1Referrals 0.

Inductive MilestoneState := locked | claimable | claimed.

#[global] Instance MilestoneState_eq_dec : EqDecision MilestoneState.
Proof. solve_decision. Defined.

Record MilestoneEntry := mkEntry {
  ms_id : string;
  ms_target : Z;
  ms_reward : Z;
  ms_status : MilestoneState
}.

Record MilestoneStatus := mkStatus {
  validReferrals : Z;
  milestones : list MilestoneEntry;
  nextTarget : option Z
}.

(** The rewards query of [getReferralMilestoneStatus] and the set it
    builds: the targets of the user's records with status ['claimed']. *)
Definition getRewardsOf (userId : string) : M (list RewardClaim) :=
  fun s => if fails GetRewards then Throw (StoreError GetRewards) s
           else Ok (filter (fun r => rw_userId r = userId)
                           (referral_rewards s)) s.

Definition claimedTargetsOf (rewards : list RewardClaim) : gset Z :=
  list_to_set
    (milestoneTarget <$> filter (fun r => rw_status r = RwClaimed) rewards).

(** The variables of the loop over the milestone configuration. *)
Record LoopState := mkLoop {
  ls_milestones : list MilestoneEntry;
  ls_nextTarget : option Z;
  ls_allPreviousClaimed : bool
}.

Definition milestoneStep (claimedTargets : gset Z) (validReferrals : Z)
    (st : LoopState) (milestone : Milestone) : LoopState :=
  let has := bool_decide (target milestone ∈ claimedTargets) in
  let reached := validReferrals >=? target milestone in
  let status :=
    if has then claimed
    else if reached && ls_allPreviousClaimed st then claimable
    else locked in
  let nextTarget :=
    if has then ls_nextTarget st
    else if reached && ls_allPreviousClaimed st then ls_nextTarget st
    else if (validReferrals <? target milestone) &&
            bool_decide (ls_nextTarget st = None)
         then Some (target milestone)
         else ls_nextTarget st in
  let allPreviousClaimed :=
    if negb has then false else ls_allPreviousClaimed st in
  mkLoop (ls_milestones st ++
            [mkEntry (m_id milestone) (target milestone) (reward milestone)
                     status])
         nextTarget allPreviousClaimed.

Definition getReferralMilestoneStatus (userId : string) : M MilestoneStatus :=
  if negb client then ret (mkStatus 0 [] None)
  else
    try_catch
      (let milestonesConfig := getMilestoneConfig in
       validReferrals <- getValidReferralCount userId ;;
       rewards <- getRewardsOf userId ;;
       let claimedTargets := claimedTargetsOf rewards in
       let st := foldl (milestoneStep claimedTargets validReferrals)
                       (mkLoop [] None true) milestonesConfig in
       ret (mkStatus validReferrals (ls_milestones st) (ls_nextTarget st)))
      (fun _ => ret (mkStatus 0 [] None)).

Record ClaimResult := mkResult { success : bool; message : string }.

(** The query of the double check:
    [where userId == .., milestoneTarget == .., status == 'claimed']. *)
Definition getClaimedRecords (userId : string) (milestoneTarget_ : Z)
  : M (list RewardClaim) :=
  fun s => if fails GetRewards then Throw (StoreError GetRewards) s
           else Ok (filter (fun r => rw_userId r = userId /\
                                     milestoneTarget r = milestoneTarget_ /\
                                     rw_status r = RwClaimed)
                           (referral_rewards s)) s.

Definition addReward (r : RewardClaim) : M unit :=
  fun s => if fails (AddReward (rw_userId r))
           then Throw (StoreError (AddReward (rw_userId r))) s
           else Ok tt (set_referral_rewards (fun l => l ++ [r]) s).

Definition claimReferralMilestone (userId : string) (milestoneTarget_ : Z)
  : M ClaimResult :=
  if negb client then ret (mkResult false "Not on client side")
  else
    try_catch
      (let milestonesConfig := getMilestoneConfig in
       match find (fun m => bool_decide (target m = milestoneTarget_))
                  milestonesConfig with
       | None => ret (mkResult false "Invalid milestone")
       | Some milestone =>
           st <- getReferralMilestoneStatus userId ;;
           match find (fun m => bool_decide (ms_target m = milestoneTarget_))
                      (milestones st) with
           | None => ret (mkResult false "Milestone is not claimable yet")
           | Some currentStatus =>
               if negb (bool_decide (ms_status currentStatus = claimable))
               then ret (mkResult false "Milestone is not claimable yet")
               else if validReferrals st <? milestoneTarget_
               then ret (mkResult false "Referral target not reached")
               else
                 let previousUnclaimed :=
                   existsb (fun m => (ms_target m <? milestoneTarget_) &&
                                     negb (bool_decide (ms_status m = claimed)))
                           (milestones st) in
                 if previousUnclaimed
                 then ret (mkResult false
                             "Please claim previous milestones first")
                 else
                   checkSnapshot <- getClaimedRecords userId milestoneTarget_ ;;
                   if negb (length checkSnapshot =? 0)%nat
                   then ret (mkResult false "Milestone already claimed")
                   else
                     user <- getUserById userId ;;
                     match user with
                     | None => ret (mkResult false "User not found")
                     | Some user =>
                         let newBalance :=
                           or0 (balance user) + reward milestone in
                         saveUser (with_balance newBalance user) ;;;
                         addReward (mkReward userId milestoneTarget_
                                             (reward milestone) RwClaimed now) ;;;
                         createTransaction
                           (mkTx userId (email user) Referral_Bonus
                                 (reward milestone) TxCompleted now
                                 ("Referral milestone reward for " +:+
                                  pretty milestoneTarget_ +:+ " valid users")
                                 None) ;;;
                         ret (mkResult true
                                ("Successfully claimed ₦" +:+
                                 toLocaleString (reward milestone) +:+
                                 " reward!"))
                     end
           end
       end)
      (fun _ => ret (mkResult false
                       "Failed to claim reward. Please try again.")).

End Services.

(** *** Definitions used to state the properties *)

(** Every stored user document carries its own key as id. [saveUser]
    keeps this (it writes [doc(user.id)]). *)
Definition ids_consistent (m : gmap string AppUser) : Prop :=
  forall k u, m !! k = Some u -> user_id u = k.

(** The referrer of [a], as the level functions look it up: a truthy
    [referredBy] that names an existing user document. *)
Definition referrerOf (m : gmap string AppUser) (a : AppUser)
  : option AppUser :=
  if truthy (referredBy a) then m !! default "" (referredBy a) else None.

(** The ancestor at level 1, 2 or 3 of [u]. *)
Definition ancestorAt (level : nat) (m : gmap string AppUser) (u : AppUser)
  : option AppUser :=
  match level with
  | 1%nat => referrerOf m u
  | 2%nat =>
      match referrerOf m u with
      | Some a1 => referrerOf m a1
      | None => None
      end
  | 3%nat =>
      match referrerOf m u with
      | Some a1 =>
          match referrerOf m a1 with
          | Some a2 => referrerOf m a2
          | None => None
          end
      | None => None
      end
  | _ => None
  end.

Definition levelPercent (level : nat) : Z :=
  match level with 1%nat => 19 | 2%nat => 2 | _ => 1 end.

Definition bonusAt (level : nat) (depositAmount : Z) : Z :=
  round_percent (levelPercent level) depositAmount.

Definition levelDescription (level : nat) : string :=
  match level with
  | 1%nat => "Level 1 referral bonus for first deposit"
  | 2%nat => "Level 2 referral bonus for first deposit"
  | _ => "Level 3 referral bonus for first deposit"
  end.

Definition levelMessage (level : nat) (bonus : Z) : string :=
  match level with
  | 1%nat =>
      "You earned ₦" +:+ pretty bonus +:+
      " Level 1 referral bonus! Your referred user made their first deposit."
  | 2%nat =>
      "You earned ₦" +:+ pretty bonus +:+
      " Level 2 referral bonus! Your level 2 referred user made their first deposit."
  | _ =>
      "You earned ₦" +:+ pretty bonus +:+
      " Level 3 referral bonus! Your level 3 referred user made their first deposit."
  end.

(** The transaction and the notification of a bonus of [bonus] paid at
    [level] to the user [r] (with e-mail [mail]) for the deposit of
    [userId]. *)
Definition bonusTransaction (now : Z) (level : nat) (r mail : string)
    (bonus : Z) (userId : string) : Transaction :=
  mkTx r mail Referral_Bonus bonus TxCompleted now (levelDescription level)
       (Some userId).

Definition bonusNotification (now : Z) (level : nat) (r : string)
    (bonus : Z) : Notification :=
  mkNote r (levelMessage level bonus) now false NtReferral.

(** The store after the payout at [level] to the ancestor document [a]:
    nothing when the rounded bonus is not positive. *)
Definition payLevel (now : Z) (userId : string) (depositAmount : Z)
    (level : nat) (a : AppUser) (s : Store) : Store :=
  let bonus := bonusAt level depositAmount in
  if bonus >? 0 then
    mkStore (<[user_id a := with_bonus bonus a]> (users s))
            (transactions s ++
               [bonusTransaction now level (user_id a) (email a) bonus userId])
            (notifications s ++
               [bonusNotification now level (user_id a) bonus])
            (purchased_products s) (referral_rewards s)
  else s.

Definition payAncestor (now : Z) (user : AppUser) (depositAmount : Z)
    (level : nat) (s : Store) : Store :=
  match ancestorAt level (users s) user with
  | Some a => payLevel now (user_id user) depositAmount level a s
  | None => s
  end.

(** A [Referral_Bonus] transaction in the log of [r] for the deposit of
    [userId]. *)
Definition bonusPaid (r userId : string) (t : Transaction) : Prop :=
  tx_userId t = r /\ tx_type t = Referral_Bonus /\
  tx_referralUserId t = Some userId.

#[global] Instance bonusPaid_dec r userId t : Decision (bonusPaid r userId t).
Proof. unfold bonusPaid. apply _. Defined.

Definition countBonuses (r userId : string) (l : list Transaction) : nat :=
  length (filter (bonusPaid r userId) l).

(** Two user documents with the same identity: id, e-mail and referrer. *)
Definition same_id (a a' : AppUser) : Prop :=
  user_id a = user_id a' /\ email a = email a' /\
  referredBy a = referredBy a'.

Definition opt_same (o o' : option AppUser) : Prop :=
  match o, o' with
  | Some a, Some a' => same_id a a'
  | None, None => True
  | _, _ => False
  end.

(** Two user collections with the same referral graph. *)
Definition same_graph (m m' : gmap string AppUser) : Prop :=
  forall k, opt_same (m !! k) (m' !! k).

(** What the payout at [level] adds for the ancestor [a] (none when the
    ancestor is missing or the rounded bonus is not positive): the credit
    to the user collection, the transaction, the notification. *)
Definition creditOf (level : nat) (depositAmount : Z) (a : option AppUser)
    (m : gmap string AppUser) : gmap string AppUser :=
  match a with
  | Some a =>
      if bonusAt level depositAmount >? 0
      then alter (with_bonus (bonusAt level depositAmount)) (user_id a) m
      else m
  | None => m
  end.

Definition transactionsOf (now : Z) (level : nat) (depositAmount : Z)
    (userId : string) (a : option AppUser) : list Transaction :=
  match a with
  | Some a =>
      if bonusAt level depositAmount >? 0
      then [bonusTransaction now level (user_id a) (email a)
                             (bonusAt level depositAmount) userId]
      else []
  | None => []
  end.

Definition notificationsOf (now : Z) (level : nat) (depositAmount : Z)
    (a : option AppUser) : list Notification :=
  match a with
  | Some a =>
      if bonusAt level depositAmount >? 0
      then [bonusNotification now level (user_id a)
                              (bonusAt level depositAmount)]
      else []
  | None => []
  end.

(** *** Example stores *)

Definition plainUser (userId : string) (referrer : option string) : AppUser :=
  mkUser userId (userId +:+ "@example.com") None referrer None None false.

(** "dave" was referred by "carol", "carol" by "bob", "bob" by "alice". *)
Definition chainStore : Store :=
  mkStore
    (list_to_map
       [ ("alice", plainUser "alice" None);
         ("bob", plainUser "bob" (Some "alice"));
         ("carol", plainUser "carol" (Some "bob"));
         ("dave", plainUser "dave" (Some "carol")) ])
    [] [] [] [].

(** "xavier" and "yann" referred each other. *)
Definition cycleStore : Store :=
  mkStore
    (list_to_map
       [ ("xavier", plainUser "xavier" (Some "yann"));
         ("yann", plainUser "yann" (Some "xavier")) ])
    [] [] [] [].

(** The store calls that fail in the example of a failing level 1: the
    write of the document of "carol". *)
Definition failCarol (c : StoreCall) : bool :=
  match c with
  | SaveUser userId => String.eqb userId "carol"
  | _ => false
  end.

(** *** Milestones: definitions used to state the properties *)

(** A ['claimed'] record of [userId] for the target [t] exists. *)
Definition claimedFor (s : Store) (userId : string) (t : Z) : Prop :=
  exists r, r ∈ referral_rewards s /\ rw_userId r = userId /\
            milestoneTarget r = t /\ rw_status r = RwClaimed.

(** Every tier of the ladder with a target strictly below [t] is claimed. *)
Definition lowerTiersClaimed (s : Store) (userId : string) (t : Z) : Prop :=
  forall m, m ∈ getMilestoneConfig -> target m < t ->
            claimedFor s userId (target m).

(** A direct referral that counts: it has deposited and owns a purchased
    product. *)
Definition validReferral (s : Store) (u : AppUser) : Prop :=
  hasDeposited u = true /\
  Exists (fun p => pp_userId p = user_id u) (purchased_products s).

#[global] Instance validReferral_dec s u : Decision (validReferral s u).
Proof. unfold validReferral. apply _. Defined.

Definition directReferrals (s : Store) (userId : string) : list AppUser :=
  filter (fun u => referredBy u = Some userId) (map_to_list (users s)).*2.

Definition validReferralCount (s : Store) (userId : string) : Z :=
  Z.of_nat (length (filter (validReferral s) (directReferrals s userId))).

(** The status of the tier [m] after the tiers [lower], for the set of
    claimed targets [C] and [V] valid referrals. *)
Definition tierStatus (C : gset Z) (V : Z) (lower : list Milestone)
    (m : Milestone) : MilestoneState :=
  if bool_decide (target m ∈ C) then claimed
  else if (V >=? target m) &&
          forallb (fun m' => bool_decide (target m' ∈ C)) lower
       then claimable
       else locked.

Fixpoint entries (C : gset Z) (V : Z) (lower cfg : list Milestone)
  : list MilestoneEntry :=
  match cfg with
  | [] => []
  | m :: rest =>
      mkEntry (m_id m) (target m) (reward m) (tierStatus C V lower m)
      :: entries C V (lower ++ [m]) rest
  end.

(** "root" referred forty users, "r0" to "r39"; each has deposited and owns
    one purchased product. *)
Definition referralName (i : nat) : string := "r" +:+ pretty i.

Definition referralsStore : Store :=
  mkStore
    (list_to_map
       (("root", plainUser "root" None)
        :: map (fun i =>
                  (referralName i,
                   mkUser (referralName i) "" None (Some "root") None None
                          true))
               (seq 0 40)))
    [] []
    (map (fun i =>
            mkProduct ("p" +:+ pretty i) (referralName i) "Special 1" 3000
                      117 42705 Active Special 0 31536000000 None)
         (seq 0 40))
    [].

(** The store after a successful claim of [milestone] by the user document
    [u]. *)
Definition claimedStore (now : Z) (userId : string) (u : AppUser)
    (milestone : Milestone) (s : Store) : Store :=
  mkStore
    (<[user_id u := with_balance (or0 (balance u) + reward milestone) u]>
       (users s))
    (transactions s ++
       [mkTx userId (email u) Referral_Bonus (reward milestone) TxCompleted
             now
             ("Referral milestone reward for " +:+
              pretty (target milestone) +:+ " valid users")
             None])
    (notifications s)
    (purchased_products s)
    (referral_rewards s ++
       [mkReward userId (target milestone) (reward milestone) RwClaimed now]).

(** *** Payout sweep: definitions used to state the properties *)

(** The final payout of a product, by plan type. *)
Definition finalPayout (p : PurchasedProduct) : Z :=
  match planType p with
  | Basic | Premium => totalEarning p
  | Special => price p
  end.

(** The instant the days since the last payout are counted from:
    [max(lastPayoutDate, startDate)], the start date when no payout date
    is set. *)
Definition payoutBase (p : PurchasedProduct) : Z :=
  match lastPayoutDate p with
  | Some l => Z.max l (startDate p)
  | None => startDate p
  end.

(** At least one full day has elapsed since [payoutBase]. *)
Definition dayElapsed (now : Z) (p : PurchasedProduct) : Prop :=
  msPerDay <= now - payoutBase p.

#[global] Instance dayElapsed_dec now p : Decision (dayElapsed now p).
Proof. unfold dayElapsed. apply _. Defined.


(** One credit of [amount] to the balance of the user [userId]. *)
Definition creditBalance (userId : string) (amount : Z)
    (m : gmap string AppUser) : gmap string AppUser :=
  match m !! userId with
  | Some u => <[user_id u := with_balance (or0 (balance u) + amount) u]> m
  | None => m
  end.

(** The patch of the documents with id [productId]. *)
Definition patchProducts (productId : string)
    (patch : PurchasedProduct -> PurchasedProduct)
    (l : list PurchasedProduct) : list PurchasedProduct :=
  map (fun p => if String.eqb (pp_id p) productId then patch p else p) l.

Definition payoutTransaction (now : Z) (p : PurchasedProduct) (amount : Z)
    (what : string) : Transaction :=
  mkTx (pp_userId p) "" Investment amount TxCompleted now
       (what +:+ pp_name p) None.

(** The store after the final payout of [p]. *)
Definition completedStore (now : Z) (p : PurchasedProduct) (s : Store)
  : Store :=
  mkStore (creditBalance (pp_userId p) (finalPayout p) (users s))
          (transactions s ++
             [payoutTransaction now p (finalPayout p)
                                "Plan completion payout from "])
          (notifications s)
          (patchProducts (pp_id p) (with_status Completed)
                         (purchased_products s))
          (referral_rewards s).

(** The store after a daily payout of the Special product [p]. *)
Definition dailyPaidStore (now : Z) (p : PurchasedProduct) (s : Store)
  : Store :=
  mkStore (creditBalance (pp_userId p) (dailyEarning p) (users s))
          (transactions s ++
             [payoutTransaction now p (dailyEarning p) "Daily payout from "])
          (notifications s)
          (patchProducts (pp_id p) (with_lastPayoutDate now)
                         (purchased_products s))
          (referral_rewards s).

(** The store after only the payout date of [p] was set. *)
Definition dateMarkedStore (now : Z) (p : PurchasedProduct) (s : Store)
  : Store :=
  set_purchased_products (patchProducts (pp_id p) (with_lastPayoutDate now)) s.


(** The Special 1 plan of the catalogue, bought by "dave" at instant 0,
    and a store that holds it. *)
Definition special1 : PurchasedProduct :=
  mkProduct "p1" "dave" "Special 1" 3000 117 42705 Active Special
            0 (365 * msPerDay) None.

Definition productStore : Store :=
  mkStore (users chainStore) [] [] [special1] [].

(** The store after the body of the loop of the sweep for [p]. *)
Definition sweptStore (now : Z) (p : PurchasedProduct) (s : Store) : Store :=
  if bool_decide (pp_status p = Completed) || (now <? startDate p) then s
  else if now >=? endDate p then completedStore now p s
  else if (now - default (startDate p) (lastPayoutDate p)) / msPerDay >=? 1
  then match planType p with
       | Special => dailyPaidStore now p s
       | _ => dateMarkedStore now p s
       end
  else s.

(** What one sweep pays for [p]: the amount and the head of the
    description of the transaction; nothing for a product that is skipped,
    not due, or of a plan type without daily payout. *)
Definition sweepPayout (now : Z) (p : PurchasedProduct)
  : option (Z * string) :=
  if bool_decide (pp_status p = Completed) || (now <? startDate p) then None
  else if now >=? endDate p
  then Some (finalPayout p, "Plan completion payout from ")
  else if (now - default (startDate p) (lastPayoutDate p)) / msPerDay >=? 1
  then match planType p with
       | Special => Some (dailyEarning p, "Daily payout from ")
       | _ => None
       end
  else None.

Definition sweepTransaction (now : Z) (p : PurchasedProduct)
  : option Transaction :=
  (fun aw => payoutTransaction now p aw.1 aw.2) <$> sweepPayout now p.

Definition sweepCredit (now : Z) (m : gmap string AppUser)
    (p : PurchasedProduct) : gmap string AppUser :=
  match sweepPayout now p with
  | Some aw => creditBalance (pp_userId p) aw.1 m
  | None => m
  end.

(** Every document with the id [productId] is Completed. *)
Definition allCompleted (productId : string) (s : Store) : Prop :=
  forall q, q ∈ purchased_products s -> pp_id q = productId ->
            pp_status q = Completed.



(** *** The other operations of ProductService, InvestmentPlanService and
        ReferralService *)

#[global] Instance TransactionStatus_eq_dec : EqDecision TransactionStatus.
Proof. solve_decision. Defined.

Record ReferralTree := mkTree {
  level1 : list AppUser;
  level2 : list AppUser;
  level3 : list AppUser
}.

Record ReferralDetails := mkDetails {
  rd_referrals : list AppUser;
  rd_totalReferrals : nat;
  rd_totalEarnings : Z;
  referralsWithDeposits : nat;
  referralsWithoutDeposits : nat
}.

Section OtherServices.
Variable client : bool.
Variable fails : StoreCall -> bool.
Variable now : Z.
Variable toLocaleString : Z -> string.

(** [getDoc(doc(db, 'purchased_products', productId))]: the document with
    that id, if any. A failing read of the collection is [GetProducts]. *)
Definition getProductDoc (productId : string) : M (option PurchasedProduct) :=
  fun s => if fails GetProducts then Throw (StoreError GetProducts) s
           else Ok (find (fun p => String.eqb (pp_id p) productId)
                         (purchased_products s)) s.

(** [getDoc(doc(db, 'users', userId))] called directly: an error of the
    call is thrown, not turned into [null] as in [getUserById]. *)
Definition getUserDoc (userId : string) : M (option AppUser) :=
  fun s => if fails (GetUser userId) then Throw (StoreError (GetUser userId)) s
           else Ok (users s !! userId) s.

(** [updateDoc(doc(db, 'users', userId), { balance: newBalance })]: only
    the balance field of the document is written; an error when the
    document does not exist. *)
Definition updateUserBalance (userId : string) (newBalance : Z) : M unit :=
  fun s => if fails (SaveUser userId)
           then Throw (StoreError (SaveUser userId)) s
           else match users s !! userId with
                | None => Throw (StoreError (SaveUser userId)) s
                | Some _ =>
                    Ok tt (set_users (alter (with_balance newBalance) userId) s)
                end.

(** [ProductService.claimReturns] *)
Definition claimReturns (userId productId : string) : M ClaimResult :=
  if negb client then ret (mkResult false "Not on client side")
  else
    try_catch
      (productDoc <- getProductDoc productId ;;
       match productDoc with
       | None => ret (mkResult false "Product not found")
       | Some product =>
           if negb (String.eqb (pp_userId product) userId)
           then ret (mkResult false "Unauthorized access")
           else if now <? endDate product
           then ret (mkResult false "Cycle has not ended yet")
           else if bool_decide (pp_status product = Completed)
           then ret (mkResult false "Returns have already been claimed")
           else
             let totalReturns := totalEarning product in
             updateProduct client fails productId
               (fun p => with_status Completed (with_lastPayoutDate now p)) ;;;
             userDoc <- getUserDoc userId ;;
             match userDoc with
             | Some userData =>
                 let newBalance := or0 (balance userData) + totalReturns in
                 updateUserBalance userId newBalance
             | None => ret tt
             end ;;;
             createTransaction fails
               (mkTx userId "" Investment totalReturns TxCompleted now
                     ("Returns claimed for " +:+ pp_name product) None) ;;;
             ret (mkResult true
                    ("Successfully claimed ₦" +:+ toLocaleString totalReturns
                     +:+ " returns for " +:+ pp_name product +:+ "!"))
       end)
      (fun _ => ret (mkResult false
                       "Failed to claim returns. Please try again.")).

(** The body of the loop of [checkAndResetExpiredProducts]. *)
Definition resetExpired (product : PurchasedProduct) : M unit :=
  if (now >=? endDate product) && bool_decide (pp_status product = Active)
  then updateProductStatus client fails (pp_id product) Completed
  else ret tt.

Definition checkAndResetExpiredProducts : M unit :=
  if negb client then ret tt
  else
    try_catch
      (allProducts <- getAllActiveProducts client fails ;;
       for_of allProducts resetExpired)
      (fun _ => ret tt).

Definition getUserActiveProducts (userId : string)
  : M (list PurchasedProduct) :=
  if negb client then ret []
  else
    try_catch
      (userProducts <- getUserProducts client fails userId ;;
       ret (filter (fun product => pp_status product = Active /\
                                   now < endDate product) userProducts))
      (fun _ => ret []).

(** [InvestmentPlanService.canAccessSpecialPlans] *)
Definition canAccessSpecialPlans (userId : string) : M bool :=
  if negb client then ret false
  else
    try_catch
      (userProducts <- getUserProducts client fails userId ;;
       ret (existsb (fun product =>
                       bool_decide (planType product = Basic) &&
                       bool_decide (pp_status product = Active))
                    userProducts))
      (fun _ => ret false).

(** [AdminNotificationService.createAdminNotification]. The collection
    [admin_notifications] is not part of [Store]: the call throws on the
    server, and otherwise leaves the collections of [Store] as they are,
    whether its [addDoc] fails or not (its only caller here catches the
    error). *)
Definition createAdminNotification (message_ : string) : M unit :=
  fun s => if negb client then Throw NotInitialized s else Ok tt s.

Definition with_referral (bonus : Z) (u : AppUser) : AppUser :=
  mkUser (user_id u) (email u) (Some (or0 (balance u) + bonus))
         (referredBy u) (Some (or0 (referralEarnings u) + bonus))
         (Some (or0 (totalReferrals u) + 1)) (hasDeposited u).

(** [ReferralService.processReferralBonus]: the flat bonus,
    [Math.round(300 * 0.24)]. *)
Definition processReferralBonus (newUserId referrerId : string) : M unit :=
  if negb client then ret tt
  else
    try_catch
      (referrer <- getUserById fails referrerId ;;
       match referrer with
       | None => ret tt
       | Some referrer =>
           let welcomeBonus := 300 in
           let referralBonus := round_percent 24 welcomeBonus in
           let updatedReferrer := with_referral referralBonus referrer in
           try_catch (saveUser fails updatedReferrer) (fun _ => ret tt) ;;;
           try_catch
             (createTransaction fails
                (mkTx referrerId (email referrer) Referral_Bonus referralBonus
                      TxCompleted now "Referral bonus for user's first deposit"
                      (Some newUserId)))
             (fun _ => ret tt) ;;;
           try_catch
             (createNotification client fails
                (mkNote referrerId
                        ("You earned ₦" +:+ pretty referralBonus +:+
                         " referral bonus! Your referred user made their first deposit.")
                        now false NtReferral))
             (fun _ => ret tt) ;;;
           try_catch
             (createAdminNotification
                ("Referral bonus paid: ₦" +:+ pretty referralBonus +:+ " to "
                 +:+ email referrer +:+ " for user's first deposit"))
             (fun _ => ret tt)
       end)
      (fun _ => ret tt).

(** The loops of [getReferralTree]: [acc.push(...referrals of user)] for
    each user of the level above. *)
Fixpoint collectReferrals (above : list AppUser) (acc : list AppUser)
  : M (list AppUser) :=
  match above with
  | [] => ret acc
  | user :: rest =>
      userLevel <- getDirectReferrals client fails (user_id user) ;;
      collectReferrals rest (acc ++ userLevel)
  end.

Definition getReferralTree (userId : string) : M ReferralTree :=
  try_catch
    (level1 <- getDirectReferrals client fails userId ;;
     level2 <- collectReferrals level1 [] ;;
     level3 <- collectReferrals level2 [] ;;
     ret (mkTree level1 level2 level3))
    (fun error => throw error).

Definition getTotalReferralEarnings (userId : string) : M Z :=
  if negb client then ret 0
  else
    try_catch
      (userTransactions <- getTransactionsByUser client fails userId ;;
       let referralTransactions :=
         filter (fun transaction => tx_type transaction = Referral_Bonus /\
                                    tx_status transaction = TxCompleted)
                userTransactions in
       ret (foldl (fun total transaction => total + tx_amount transaction) 0
                  referralTransactions))
      (fun _ => ret 0).

Definition getReferralDetails (userId : string) : M ReferralDetails :=
  if negb client then ret (mkDetails [] 0 0 0 0)
  else
    try_catch
      (referrals <- getDirectReferrals client fails userId ;;
       let referralsWithDeposits :=
         length (filter (fun user => hasDeposited user = true) referrals) in
       let referralsWithoutDeposits :=
         length (filter (fun user => hasDeposited user = false) referrals) in
       totalEarnings <- getTotalReferralEarnings userId ;;
       ret (mkDetails referrals (length referrals) totalEarnings
                      referralsWithDeposits referralsWithoutDeposits))
      (fun error => throw error).

End OtherServices.

(** *** Definitions used to state the properties of these operations *)

(** The product document with the id [productId]. *)
Definition productById (productId : string) (s : Store)
  : option PurchasedProduct :=
  find (fun p => String.eqb (pp_id p) productId) (purchased_products s).

(** The patch of [claimReturns]: status and payout date. *)
Definition with_claimed (now : Z) (p : PurchasedProduct) : PurchasedProduct :=
  with_status Completed (with_lastPayoutDate now p).

(** The balance of the document [userId] raised by [amount], when the
    document exists (only the balance field is written). *)
Definition raiseBalance (userId : string) (amount : Z)
    (m : gmap string AppUser) : gmap string AppUser :=
  match m !! userId with
  | Some u => alter (with_balance (or0 (balance u) + amount)) userId m
  | None => m
  end.

Definition returnsTransaction (now : Z) (userId : string)
    (p : PurchasedProduct) : Transaction :=
  mkTx userId "" Investment (totalEarning p) TxCompleted now
       ("Returns claimed for " +:+ pp_name p) None.

(** The store after a successful [claimReturns] of the document [p]. *)
Definition returnsClaimedStore (now : Z) (userId : string)
    (p : PurchasedProduct) (s : Store) : Store :=
  mkStore (raiseBalance userId (totalEarning p) (users s))
          (transactions s ++ [returnsTransaction now userId p])
          (notifications s)
          (patchProducts (pp_id p) (with_claimed now) (purchased_products s))
          (referral_rewards s).

(** The store in which only the product documents were patched. *)
Definition returnsMarkedStore (now : Z) (p : PurchasedProduct) (s : Store)
  : Store :=
  set_purchased_products (patchProducts (pp_id p) (with_claimed now)) s.

(** [p] can be claimed by [userId] at [now]. *)
Definition claimableBy (now : Z) (userId : string) (p : PurchasedProduct)
  : Prop :=
  pp_userId p = userId /\ endDate p <= now /\ pp_status p = Active.

(** The messages of a refused claim. *)
Definition refusal (msg : string) : Prop :=
  msg = "Not on client side" \/ msg = "Product not found" \/
  msg = "Unauthorized access" \/ msg = "Cycle has not ended yet" \/
  msg = "Returns have already been claimed".

(** The message of a claim that met an error of the store. *)
Definition failedMessage : string :=
  "Failed to claim returns. Please try again.".

(** A store call fails in [fails] only if it is the balance write of
    [userId]. *)
Definition failSaveUser (userId : string) (c : StoreCall) : bool :=
  match c with
  | SaveUser userId' => String.eqb userId' userId
  | _ => false
  end.

(** The store after the body of the loop of
    [checkAndResetExpiredProducts] for [p]. *)
Definition expiredReset (now : Z) (p : PurchasedProduct) (s : Store)
  : Store :=
  if (now >=? endDate p) && bool_decide (pp_status p = Active)
  then set_purchased_products
         (patchProducts (pp_id p) (with_status Completed)) s
  else s.

(** Two stores with the same users, transactions, notifications and
    reward records. *)
Definition same_money (s s' : Store) : Prop :=
  users s' = users s /\ transactions s' = transactions s /\
  notifications s' = notifications s /\
  referral_rewards s' = referral_rewards s.

(** [p] is an Active Basic product of [userId] whose end date is ahead. *)
Definition liveBasic (now : Z) (userId : string) (p : PurchasedProduct)
  : Prop :=
  pp_userId p = userId /\ planType p = Basic /\ pp_status p = Active /\
  now < endDate p.

#[global] Instance liveBasic_dec now userId p :
  Decision (liveBasic now userId p).
Proof. unfold liveBasic. apply _. Defined.

(** The transaction and the notification of the flat referral bonus. *)
Definition flatBonus : Z := round_percent 24 300.

Definition flatBonusTransaction (now : Z) (newUserId referrerId : string)
    (referrer : AppUser) : Transaction :=
  mkTx referrerId (email referrer) Referral_Bonus flatBonus TxCompleted now
       "Referral bonus for user's first deposit" (Some newUserId).

Definition flatBonusNotification (now : Z) (referrerId : string)
  : Notification :=
  mkNote referrerId
         ("You earned ₦" +:+ pretty flatBonus +:+
          " referral bonus! Your referred user made their first deposit.")
         now false NtReferral.

(** The store calls that fail in the example of a failing balance write of
    the flat bonus: every write of a user document. *)
Definition failSaves (c : StoreCall) : bool :=
  match c with
  | SaveUser _ => true
  | _ => false
  end.

(** The three levels below [userId], read off the user collection. *)
Definition referralTreeOf (s : Store) (userId : string) : ReferralTree :=
  let l1 := directReferrals s userId in
  let l2 := flat_map (fun u => directReferrals s (user_id u)) l1 in
  let l3 := flat_map (fun u => directReferrals s (user_id u)) l2 in
  mkTree l1 l2 l3.

(** The referral earnings of [userId] as the transaction log has them:
    the sum of the Completed Referral_Bonus transactions of the user. *)
Definition loggedEarnings (userId : string) (l : list Transaction) : Z :=
  foldl (fun total transaction => total + tx_amount transaction) 0
        (filter (fun transaction => tx_type transaction = Referral_Bonus /\
                                    tx_status transaction = TxCompleted)
                (filter (fun t => tx_userId t = userId) l)).

(** The [referralEarnings] and [balance] fields of the document [userId]
    ([0] when the document or the field is absent). *)
Definition earningsField (m : gmap string AppUser) (userId : string) : Z :=
  or0 (m !! userId ≫= referralEarnings).

Definition balanceField (m : gmap string AppUser) (userId : string) : Z :=
  or0 (m !! userId ≫= balance).

(** What the payout at [level] pays to the user [r]. *)
Definition paidTo (level : nat) (depositAmount : Z) (a : option AppUser)
    (r : string) : Z :=
  match a with
  | Some x =>
      if (bonusAt level depositAmount >? 0) && bool_decide (user_id x = r)
      then bonusAt level depositAmount else 0
  | None => 0
  end.

(** The first tier of [cfg] that is neither claimed nor reached. *)
Definition firstOpenTier (C : gset Z) (V : Z) (cfg : list Milestone)
  : option Milestone :=
  find (fun m => negb (bool_decide (target m ∈ C)) && (V <? target m)) cfg.

(** The ladder is respected: for every user, each claimed target is a
    target of the configuration whose lower tiers are claimed as well, and
    no target has two claimed records. *)
Definition ladder_ok (s : Store) : Prop :=
  forall userId,
    (forall t, claimedFor s userId t ->
       (exists m, m ∈ getMilestoneConfig /\ target m = t) /\
       lowerTiersClaimed s userId t) /\
    NoDup (milestoneTarget <$>
             filter (fun r => rw_userId r = userId /\ rw_status r = RwClaimed)
                    (referral_rewards s)).

(** A call of [claimReferralMilestone]: the store calls that fail during
    it, its instant, the user and the target. *)
Record ClaimCall := mkClaimCall {
  cc_fails : StoreCall -> bool;
  cc_now : Z;
  cc_userId : string;
  cc_target : Z
}.

(** The store after a sequence of such calls. *)
Definition runClaims (client : bool) (toLocaleString : Z -> string)
    (calls : list ClaimCall) (s : Store) : Store :=
  foldl (fun s c =>
           outcome_store
             (claimReferralMilestone client (cc_fails c) (cc_now c)
                                     toLocaleString (cc_userId c)
                                     (cc_target c) s))
        s calls.

(** The store after the balance write of a claim, and after the reward
    record was added as well. *)
Definition creditedStore (u : AppUser) (milestone : Milestone) (s : Store)
  : Store :=
  set_users
    (insert (user_id u) (with_balance (or0 (balance u) + reward milestone) u))
    s.

Definition recordedStore (now : Z) (userId : string) (u : AppUser)
    (milestone : Milestone) (s : Store) : Store :=
  set_referral_rewards
    (fun l => l ++ [mkReward userId (target milestone) (reward milestone)
                             RwClaimed now])
    (creditedStore u milestone s).

(** The store calls that fail in the example of a reward record that
    cannot be written. *)
Definition failAddReward (c : StoreCall) : bool :=
  match c with
  | AddReward _ => true
  | _ => false
  end.

(** The store calls that fail when the transaction of a claim cannot be
    written. [claimReferralMilestone] hands [referralUserId: undefined] to
    [createTransaction], which passes it to [addDoc] as it is; the Firestore
    SDK rejects an [undefined] field value unless it was set up with
    [ignoreUndefinedProperties], so with the default set-up this is the
    store the claim runs on. *)
Definition failCreateTransaction (c : StoreCall) : bool :=
  match c with
  | CreateTransaction _ => true
  | _ => false
  end.

(** Why a claim that changed nothing was refused. *)
Definition refused (client : bool) (fails : StoreCall -> bool)
    (userId : string) (t : Z) (s : Store) : Prop :=
  client = false \/
  find (fun m => bool_decide (target m = t)) getMilestoneConfig = None \/
  getReferralMilestoneStatus true fails userId s = Ok (mkStatus 0 [] None) s \/
  claimedFor s userId t \/ ~ lowerTiersClaimed s userId t \/
  (exists V, getValidReferralCount true fails userId s = Ok V s /\ V < t) \/
  fails GetRewards = true \/ fails (GetUser userId) = true \/
  users s !! userId = None \/
  (exists u, users s !! userId = Some u /\
             fails (SaveUser (user_id u)) = true).

(** The sum of the amounts of the transactions of [userId] in [l]. *)
Definition loggedFor (userId : string) (l : list Transaction) : Z :=
  foldr (fun t acc => tx_amount t + acc) 0
        (filter (fun t => tx_userId t = userId) l).

(** What one sweep pays to [r] for the product [p]. *)
Definition sweepPaidTo (now : Z) (p : PurchasedProduct) (r : string) : Z :=
  match sweepPayout now p with
  | Some aw => if bool_decide (pp_userId p = r) then aw.1 else 0
  | None => 0
  end.

(** A store in which the owner of the product has no user document. *)
Definition orphanStore : Store :=
  mkStore (delete "dave" (users chainStore)) [] [] [special1] [].

(** The patch one sweep applies to the documents with the id of the
    product [p] it read, and the document [p] after it. *)
Definition sweepPatch (now : Z) (p : PurchasedProduct)
  : PurchasedProduct -> PurchasedProduct :=
  if bool_decide (pp_status p = Completed) || (now <? startDate p)
  then fun q => q
  else if now >=? endDate p then with_status Completed
  else if (now - default (startDate p) (lastPayoutDate p)) / msPerDay >=? 1
  then with_lastPayoutDate now
  else fun q => q.

Definition sweptDoc (now : Z) (p : PurchasedProduct) : PurchasedProduct :=
  sweepPatch now p p.

(** During the sweep of the products [todo] still to treat: every document
    is an untouched document of the store the sweep started from, to be
    treated if it is Active, or a treated one. *)
Definition sweeping (now : Z) (s0 : Store) (todo : list PurchasedProduct)
    (s : Store) : Prop :=
  forall q, q ∈ purchased_products s ->
    exists q0, q0 ∈ purchased_products s0 /\ pp_id q = pp_id q0 /\
      ((q = q0 /\ (pp_status q0 = Active -> q0 ∈ todo)) \/
       q = sweptDoc now q0).

(** The Basic 2 plan of the catalogue, bought by "dave" at instant 0. *)
Definition basic2 : PurchasedProduct :=
  mkProduct "b2" "dave" "Basic 2" 5000 1175 35250 Active Basic
            0 (30 * msPerDay) None.

Definition basicStore : Store :=
  mkStore (users chainStore) [] [] [basic2] [].

End Ledger.

(** ** Daily claims ([user-service])

    ClaimService works on a collection of its own, [claims]. The day of an
    instant is the date part of its ISO string,
    [new Date().toISOString().split('T')[0]]; it is the function
    [toISODate] of the instant. *)

Module Daily.

Record Claim := mkClaim {
  cl_userId : string;
  cl_productId : string;
  cl_amount : Z;
  cl_claimDate : Z;
  cl_dateKey : string
}.

(** The store calls of the service. *)
Inductive DailyCall :=
| GetClaims
| AddClaim.

Definition nofail : DailyCall -> bool := fun _ => false.

Section Services.
Variable client : bool.
Variable fails : DailyCall -> bool.
Variable now : Z.
Variable toISODate : Z -> string.

(** *** ClaimService *)

Definition getUserClaimsForDate (userId dateKey : string)
    (claims : list Claim) : list Claim :=
  if negb client then []
  else if fails GetClaims then []
  else filter (fun claim => cl_userId claim = userId /\
                            cl_dateKey claim = dateKey) claims.

(** [addClaim]: [None] when it throws. *)
Definition addClaim (claim : Claim) (claims : list Claim)
  : option (list Claim) :=
  if negb client then None
  else if fails AddClaim then None
  else Some (claims ++ [claim]).

Definition hasClaimedToday (userId productId : string)
    (claims : list Claim) : bool :=
  if negb client then false
  else
    let today := toISODate now in
    let claims := getUserClaimsForDate userId today claims in
    existsb (fun claim => String.eqb (cl_productId claim) productId) claims.

End Services.

End Daily.

(** ** Facts about the inventory manager *)

Module InventoryFacts.
Import Inventory.

Lemma inv_emptyStore : inv emptyStore.
Proof. intros [] d H; discriminate H. Qed.

Lemma doc_ok_specialInventory : doc_ok specialInventory.
Proof.
  intros k it H. apply elem_of_list_to_map_2 in H.
  repeat (apply elem_of_cons in H as [H | H];
          [injection H as _ ->; unfold item_ok; simpl; lia |]).
  inversion H.
Qed.

Lemma doc_ok_premiumInventory : doc_ok premiumInventory.
Proof.
  intros k it H. apply elem_of_list_to_map_2 in H.
  repeat (apply elem_of_cons in H as [H | H];
          [injection H as _ ->; unfold item_ok; simpl; lia |]).
  inversion H.
Qed.

Lemma inventoryDoc_setDoc ty ty' d s :
  inventoryDoc ty (setDoc ty' d s) =
  if decide (ty = ty') then Some d else inventoryDoc ty s.
Proof. destruct ty, ty'; reflexivity. Qed.

Lemma inventoryDoc_setMarker ty b s :
  inventoryDoc ty (setMarker b s) = inventoryDoc ty s.
Proof. destruct ty; reflexivity. Qed.

Lemma inv_setDoc ty d s : doc_ok d -> inv s -> inv (setDoc ty d s).
Proof.
  intros Hd Hs ty' d'. rewrite inventoryDoc_setDoc.
  case_decide; [intros [= <-]; exact Hd | apply Hs].
Qed.

Lemma inv_setMarker b s : inv s -> inv (setMarker b s).
Proof. intros Hs ty d. rewrite inventoryDoc_setMarker. apply Hs. Qed.

Lemma inv_initializeInventory client s :
  inv s -> inv (initializeInventory client s).
Proof.
  intros Hs. unfold initializeInventory.
  destruct (negb client); [exact Hs |].
  destruct (initialized s); [exact Hs |].
  apply inv_setMarker, inv_setDoc, inv_setDoc;
    auto using doc_ok_premiumInventory, doc_ok_specialInventory.
Qed.

Lemma doc_ok_alter n productId d it :
  doc_ok d -> d !! productId = Some it -> 0 <= n <= total it ->
  doc_ok (alter (setPurchased n) productId d).
Proof.
  intros Hd Hit Hn k it'. rewrite lookup_alter.
  case_decide as Hk.
  - subst k. rewrite Hit. intros [= <-]. exact Hn.
  - apply Hd.
Qed.

Lemma inv_patchPurchased ty productId n s d it :
  inv s -> inventoryDoc ty s = Some d -> d !! productId = Some it ->
  0 <= n <= total it -> inv (patchPurchased ty productId n s).
Proof.
  intros Hs Hd Hit Hn. unfold patchPurchased. rewrite Hd.
  apply inv_setDoc; [| exact Hs].
  eapply doc_ok_alter; eauto.
Qed.

Lemma inv_increasePurchasedCount client productId ty s :
  inv s -> inv (increasePurchasedCount client productId ty s).2.
Proof.
  intros Hs. unfold increasePurchasedCount.
  destruct (negb client); [exact Hs |].
  pose proof (inv_initializeInventory client s Hs) as H1.
  destruct (inventoryDoc ty _) as [d |] eqn:Hd; [| exact H1].
  destruct (d !! productId) as [it |] eqn:Hit; [| exact H1].
  destruct (purchased it >=? total it) eqn:Hc; [exact H1 |].
  simpl. eapply inv_patchPurchased; eauto.
  pose proof (H1 _ _ Hd _ _ Hit) as Hok. unfold item_ok in Hok.
  rewrite Z.geb_leb in Hc. apply Z.leb_gt in Hc. lia.
Qed.

Lemma inv_restoreInventory client ty s :
  inv s -> inv (restoreInventory client ty s).
Proof.
  intros Hs. unfold restoreInventory.
  destruct (negb client); [exact Hs |].
  destruct (inventoryDoc ty s) as [d |] eqn:Hd; [| exact Hs].
  apply inv_setDoc; [| exact Hs].
  intros k it. rewrite lookup_fmap.
  destruct (d !! k) as [it0 |] eqn:Hk; [| discriminate].
  intros [= <-]. pose proof (Hs _ _ Hd _ _ Hk) as Hok.
  unfold item_ok in *. simpl. lia.
Qed.

Lemma inv_runCall client c s : inv s -> inv (runCall client c s).
Proof.
  destruct c; simpl;
    auto using inv_initializeInventory, inv_increasePurchasedCount,
               inv_restoreInventory.
Qed.

Lemma inv_runCalls client cs s : inv s -> inv (runCalls client cs s).
Proof.
  revert s. induction cs as [| c cs IH]; intros s Hs; [exact Hs |].
  simpl. apply IH, inv_runCall, Hs.
Qed.


Lemma initializeInventory_initialized client s :
  initialized s <> None -> initializeInventory client s = s.
Proof.
  intros H. unfold initializeInventory.
  destruct (negb client); [reflexivity |].
  destruct (initialized s); [reflexivity | congruence].
Qed.

Lemma patchPurchased_insert ty productId n s d it :
  inventoryDoc ty s = Some d -> d !! productId = Some it ->
  patchPurchased ty productId n s =
  setDoc ty (<[productId := mkItem n (total it) (name it)]> d) s.
Proof.
  intros Hd Hit. unfold patchPurchased. rewrite Hd. f_equal.
  apply map_eq. intros k. rewrite lookup_alter, lookup_insert.
  case_decide as Hk; [| reflexivity]. subst k. rewrite Hit. reflexivity.
Qed.

Lemma runThread_done fuel client t s b :
  t_pc t = PDone b -> runThread fuel client t s = (t, s).
Proof.
  revert t s. induction fuel as [| n IH]; intros t s H; [reflexivity |].
  simpl. unfold stepThread. rewrite H. apply IH, H.
Qed.

Lemma runThread_read fuel client productId ty s :
  runThread (S (S fuel)) client (mkThread productId ty PRead) s =
  match inventoryDoc ty s with
  | None => (mkThread productId ty (PDone false), s)
  | Some inventory =>
      match inventory !! productId with
      | None => (mkThread productId ty (PDone false), s)
      | Some it =>
          if purchased it >=? total it
          then (mkThread productId ty (PDone false), s)
          else (mkThread productId ty (PDone true),
                patchPurchased ty productId (purchased it + 1) s)
      end
  end.
Proof.
  cbn [runThread]. unfold stepThread at 1. cbn [t_pc t_type t_productId].
  destruct (inventoryDoc ty s) as [d |];
    [| apply (runThread_done (S fuel) client _ s false); reflexivity].
  destruct (d !! productId) as [it |];
    [| apply (runThread_done (S fuel) client _ s false); reflexivity].
  destruct (purchased it >=? total it);
    [apply (runThread_done (S fuel) client _ s false); reflexivity |].
  unfold at_pc. cbn [t_pc t_type t_productId].
  unfold stepThread. cbn [t_pc t_type t_productId at_pc].
  apply (runThread_done fuel client _ _ true). reflexivity.
Qed.

Lemma runThread_S fuel client t s :
  runThread (S fuel) client t s =
  runThread fuel client (stepThread client t s).1 (stepThread client t s).2.
Proof. simpl. destruct (stepThread client t s). reflexivity. Qed.

Lemma runThread_sequential client productId ty s :
  runThread 6 client (call productId ty) s =
  let '(b, s') := increasePurchasedCount client productId ty s in
  (mkThread productId ty (PDone b), s').
Proof.
  unfold increasePurchasedCount, initializeInventory, call.
  destruct client; cbn [negb]; [| reflexivity].
  rewrite runThread_S. unfold stepThread at 1 2.
  cbn [t_pc negb].
  destruct (initialized s) eqn:Hi; cbn [fst snd];
    unfold at_pc; cbn [t_productId t_type].
  - rewrite (runThread_read 3).
    destruct (inventoryDoc ty s) as [d |]; [| reflexivity].
    destruct (d !! productId) as [it |]; [| reflexivity].
    destruct (purchased it >=? total it); reflexivity.
  - do 3 (rewrite runThread_S; unfold stepThread at 1 2;
          cbn [t_pc fst snd]; unfold at_pc; cbn [t_productId t_type]).
    rewrite (runThread_read 0).
    destruct (inventoryDoc ty _) as [d |]; [| reflexivity].
    destruct (d !! productId) as [it |]; [| reflexivity].
    destruct (purchased it >=? total it); reflexivity.
Qed.

Lemma pc_ok_patchPurchased ty productId n s t :
  pc_ok s t -> pc_ok (patchPurchased ty productId n s) t.
Proof.
  unfold pc_ok. destruct (t_pc t); try exact id.
  intros (d & it & Hd & Hit & Hn). unfold patchPurchased.
  destruct (inventoryDoc ty s) as [d0 |] eqn:Hd0; [| eauto].
  rewrite inventoryDoc_setDoc. case_decide as Hty.
  - subst ty. rewrite Hd in Hd0. injection Hd0 as <-.
    destruct (decide (productId = t_productId t)) as [-> | Hne].
    + exists (alter (setPurchased n) (t_productId t) d), (setPurchased n it).
      split; [reflexivity |]. split; [| exact Hn].
      rewrite lookup_alter, decide_True by reflexivity.
      rewrite Hit. reflexivity.
    + exists (alter (setPurchased n) productId d), it.
      split; [reflexivity |]. split; [| exact Hn].
      rewrite lookup_alter, decide_False by exact Hne. exact Hit.
  - eauto.
Qed.

Lemma initialized_patchPurchased ty productId n s :
  initialized (patchPurchased ty productId n s) = initialized s.
Proof.
  unfold patchPurchased. destruct (inventoryDoc ty s); [| reflexivity].
  destruct ty; reflexivity.
Qed.

Local Ltac same_store Hts :=
  split; [| split]; simpl; [first [assumption | congruence] | assumption |];
  apply Forall_insert; [exact Hts |]; unfold pc_ok; simpl.

Lemma cfg_ok_stepAt client i c : cfg_ok c -> cfg_ok (stepAt client i c).
Proof.
  destruct c as [ts s]. intros (Hi & Hs & Hts). unfold stepAt.
  unfold cfg_ok. simpl in *.
  destruct (ts !! i) as [t |] eqn:Ht; [| split; [| split]; assumption].
  pose proof (Forall_lookup_1 _ _ _ _ Hts Ht) as Hok.
  unfold stepThread. unfold pc_ok in Hok.
  destruct (t_pc t) eqn:Hpc; try contradiction.
  - (* PStart *)
    destruct (negb client); [same_store Hts; exact I |].
    destruct (initialized s) eqn:Hi'; [| congruence].
    same_store Hts; exact I.
  - (* PRead *)
    destruct (inventoryDoc (t_type t) s) as [d |] eqn:Hd;
      [| same_store Hts; exact I].
    destruct (d !! t_productId t) as [it |] eqn:Hit;
      [| same_store Hts; exact I].
    destruct (purchased it >=? total it) eqn:Hc;
      [same_store Hts; exact I |].
    same_store Hts. exists d, it.
    split; [exact Hd |]. split; [exact Hit |].
    pose proof (Hs _ _ Hd _ _ Hit) as Hit'. unfold item_ok in Hit'.
    rewrite Z.geb_leb in Hc. apply Z.leb_gt in Hc. lia.
  - (* PWrite *)
    destruct Hok as (d & it & Hd & Hit & Hn).
    split; [| split]; simpl.
    + rewrite initialized_patchPurchased. exact Hi.
    + eapply inv_patchPurchased; eauto.
    + apply Forall_insert; [| exact I].
      eapply Forall_impl; [exact Hts |].
      intros t0. apply pc_ok_patchPurchased.
  - (* PDone *)
    same_store Hts. rewrite Hpc. exact I.
Qed.

Lemma cfg_ok_runSchedule client sched c :
  cfg_ok c -> cfg_ok (runSchedule client sched c).
Proof.
  revert c. induction sched as [| i sched IH]; intros c Hc; [exact Hc |].
  simpl. apply IH, cfg_ok_stepAt, Hc.
Qed.

(** Interleaved calls on a store that was not initialised. *)

Lemma shaped_setDoc_same ty s : shaped ty (setDoc ty (defaultsOf ty) s).
Proof.
  exists (defaultsOf ty). split; [| reflexivity].
  rewrite inventoryDoc_setDoc, decide_True; reflexivity.
Qed.

Lemma shaped_setDoc_other ty ty' d s :
  ty <> ty' -> shaped ty s -> shaped ty (setDoc ty' d s).
Proof.
  intros Hne (d0 & Hd0 & Ht). exists d0. split; [| exact Ht].
  rewrite inventoryDoc_setDoc, decide_False; assumption.
Qed.

Lemma shaped_setMarker ty b s : shaped ty s -> shaped ty (setMarker b s).
Proof.
  intros (d & Hd & Ht). exists d. split; [| exact Ht].
  rewrite inventoryDoc_setMarker. exact Hd.
Qed.

Lemma shaped_patchPurchased ty ty' productId n s :
  shaped ty s -> shaped ty (patchPurchased ty' productId n s).
Proof.
  intros (d & Hd & Ht). unfold patchPurchased.
  destruct (inventoryDoc ty' s) as [d' |] eqn:Hd'; [| exists d; auto].
  destruct (decide (ty = ty')) as [<- | Hne].
  - rewrite Hd in Hd'. injection Hd' as <-.
    exists (alter (setPurchased n) productId d). split.
    + rewrite inventoryDoc_setDoc, decide_True; reflexivity.
    + intros k. rewrite <- Ht, lookup_alter.
      case_decide; [subst k | reflexivity].
      destruct (d !! productId); reflexivity.
  - exists d. split; [| exact Ht].
    rewrite inventoryDoc_setDoc, decide_False; assumption.
Qed.

Lemma pc_fresh_mono s s' t :
  (forall ty, shaped ty s -> shaped ty s') -> pc_fresh s t -> pc_fresh s' t.
Proof.
  intros Hm. unfold pc_fresh. destruct (t_pc t); try exact id.
  - apply Hm.
  - intros [H1 H2]. split; apply Hm; assumption.
  - intros [H1 H2]. split; apply Hm; assumption.
  - intros (H1 & H2 & H3). split; [apply Hm, H1 |].
    split; [apply Hm, H2 | exact H3].
Qed.

Lemma shaped_dec_cases ty ty' s :
  shaped ty s -> shaped ty (setDoc ty' (defaultsOf ty') s).
Proof.
  intros H. destruct (decide (ty = ty')) as [-> | Hne].
  - apply shaped_setDoc_same.
  - apply shaped_setDoc_other; assumption.
Qed.

Lemma doc_ok_defaultsOf ty : doc_ok (defaultsOf ty).
Proof.
  destruct ty; [apply doc_ok_specialInventory | apply doc_ok_premiumInventory].
Qed.

Lemma shaped_ty ty s : shaped special s -> shaped premium s -> shaped ty s.
Proof. destruct ty; auto. Qed.

Lemma cfg_fresh_stepAt client i c :
  cfg_fresh c -> cfg_fresh (stepAt client i c).
Proof.
  destruct c as [ts s]. intros (Hs & Hi & Hts). unfold stepAt.
  unfold cfg_fresh. simpl in *.
  destruct (ts !! i) as [t |] eqn:Ht; [| split; [| split]; assumption].
  pose proof (Forall_lookup_1 _ _ _ _ Hts Ht) as Hok.
  unfold stepThread. unfold pc_fresh in Hok.
  destruct (t_pc t) eqn:Hpc.
  - (* PStart *)
    destruct (negb client).
    { split; [| split]; cbn [fst snd]; try assumption.
      apply Forall_insert; [exact Hts | exact I]. }
    destruct (initialized s) eqn:Hi'.
    + assert (Hsh : shaped special s /\ shaped premium s)
        by (apply Hi; discriminate).
      split; [exact Hs |]. split; [intros _; exact Hsh |]. simpl.
      apply Forall_insert; [exact Hts | exact Hsh].
    + split; [exact Hs |]. simpl.
      split; [rewrite Hi'; intros H; exfalso; apply H; reflexivity |].
      apply Forall_insert; [exact Hts | exact I].
  - (* PInitSpecial *)
    split; [| split]; cbn [fst snd].
    + apply inv_setDoc; [apply doc_ok_specialInventory | exact Hs].
    + intros Hm. destruct (Hi Hm) as [_ Hp].
      split; [apply (shaped_setDoc_same special) |].
      apply (shaped_dec_cases premium special), Hp.
    + apply Forall_insert.
      * eapply Forall_impl; [exact Hts |]. intros t0. apply pc_fresh_mono.
        intros ty. apply (shaped_dec_cases ty special).
      * apply (shaped_setDoc_same special).
  - (* PInitPremium *)
    split; [| split]; cbn [fst snd].
    + apply inv_setDoc; [apply doc_ok_premiumInventory | exact Hs].
    + intros _. split; [| apply (shaped_setDoc_same premium)].
      apply (shaped_dec_cases special premium), Hok.
    + apply Forall_insert.
      * eapply Forall_impl; [exact Hts |]. intros t0. apply pc_fresh_mono.
        intros ty. apply (shaped_dec_cases ty premium).
      * split; [| apply (shaped_setDoc_same premium)].
        apply (shaped_dec_cases special premium), Hok.
  - (* PInitMarker *)
    destruct Hok as [H1 H2].
    split; [| split]; cbn [fst snd].
    + apply inv_setMarker, Hs.
    + intros _. split; apply shaped_setMarker; assumption.
    + apply Forall_insert.
      * eapply Forall_impl; [exact Hts |]. intros t0. apply pc_fresh_mono.
        intros ty. apply shaped_setMarker.
      * split; apply shaped_setMarker; assumption.
  - (* PRead *)
    destruct Hok as [H1 H2].
    destruct (inventoryDoc (t_type t) s) as [d |] eqn:Hd.
    2:{ split; [| split]; cbn [fst snd]; try assumption.
        apply Forall_insert; [exact Hts | exact I]. }
    destruct (d !! t_productId t) as [it |] eqn:Hit.
    2:{ split; [| split]; cbn [fst snd]; try assumption.
        apply Forall_insert; [exact Hts | exact I]. }
    destruct (purchased it >=? total it) eqn:Hc.
    { split; [| split]; cbn [fst snd]; try assumption.
      apply Forall_insert; [exact Hts | exact I]. }
    split; [| split]; cbn [fst snd]; try assumption.
    apply Forall_insert; [exact Hts |].
    unfold pc_fresh. simpl. split; [exact H1 |]. split; [exact H2 |].
    destruct (shaped_ty (t_type t) s H1 H2) as (d' & Hd' & Htot).
    rewrite Hd in Hd'. injection Hd' as <-.
    specialize (Htot (t_productId t)). rewrite Hit in Htot.
    destruct (defaultsOf (t_type t) !! t_productId t) as [it0 |];
      [| discriminate Htot].
    exists it0. split; [reflexivity |].
    injection Htot as Htot.
    pose proof (Hs _ _ Hd _ _ Hit) as Hit'. unfold item_ok in Hit'.
    rewrite Z.geb_leb in Hc. apply Z.leb_gt in Hc. lia.
  - (* PWrite *)
    destruct Hok as (H1 & H2 & it0 & Hit0 & Hn).
    destruct (shaped_ty (t_type t) s H1 H2) as (d & Hd & Htot).
    pose proof (Htot (t_productId t)) as Htp. rewrite Hit0 in Htp.
    destruct (d !! t_productId t) as [it |] eqn:Hit; [| discriminate Htp].
    injection Htp as Htp.
    split; [| split]; cbn [fst snd].
    + eapply inv_patchPurchased; eauto. lia.
    + rewrite initialized_patchPurchased. intros Hm.
      destruct (Hi Hm). split; apply shaped_patchPurchased; assumption.
    + apply Forall_insert; [| exact I].
      eapply Forall_impl; [exact Hts |]. intros t0. apply pc_fresh_mono.
      intros ty. apply shaped_patchPurchased.
  - (* PDone *)
    split; [| split]; cbn [fst snd]; try assumption.
    apply Forall_insert; [exact Hts |]. unfold pc_fresh. rewrite Hpc. exact I.
Qed.

Lemma cfg_fresh_runSchedule client sched c :
  cfg_fresh c -> cfg_fresh (runSchedule client sched c).
Proof.
  revert c. induction sched as [| i sched IH]; intros c Hc; [exact Hc |].
  simpl. apply IH, cfg_fresh_stepAt, Hc.
Qed.

(** Every interleaving of calls that all start on a store that satisfies
    the invariant ends on a store that satisfies it. *)
Lemma inv_runSchedule client sched ts s :
  inv s -> Forall (fun t => t_pc t = PStart) ts ->
  inv (runSchedule client sched (ts, s)).2.
Proof.
  intros Hs Hts. destruct (initialized s) as [b |] eqn:Hi.
  - apply (cfg_ok_runSchedule client sched (ts, s)).
    split; [simpl; rewrite Hi; discriminate |]. split; [exact Hs |]. simpl.
    eapply Forall_impl; [exact Hts |].
    intros t Ht. unfold pc_ok. rewrite Ht. exact I.
  - apply (cfg_fresh_runSchedule client sched (ts, s)).
    split; [exact Hs |]. split; [simpl; rewrite Hi; intros H; contradiction |].
    simpl. eapply Forall_impl; [exact Hts |].
    intros t Ht. unfold pc_fresh. rewrite Ht. exact I.
Qed.

Lemma inv_freshStore : inv freshStore.
Proof. apply inv_initializeInventory, inv_emptyStore. Qed.


Lemma marked_emptyStore : marked emptyStore.
Proof. intros [] H; exfalso; apply H; reflexivity. Qed.

Lemma marked_initialized s : initialized s <> None -> marked s.
Proof. intros H ty _. exact H. Qed.

Lemma marked_initializeInventory client s :
  marked s -> marked (initializeInventory client s).
Proof.
  intros Hm. unfold initializeInventory.
  destruct (negb client); [exact Hm |].
  destruct (initialized s); [exact Hm |].
  apply marked_initialized. discriminate.
Qed.

Lemma marked_patchPurchased ty productId n s :
  marked s -> marked (patchPurchased ty productId n s).
Proof.
  intros Hm. unfold patchPurchased.
  destruct (inventoryDoc ty s) as [d |] eqn:Hd; [| exact Hm].
  apply marked_initialized.
  assert (Hi : initialized s <> None) by (apply (Hm ty); congruence).
  destruct ty; exact Hi.
Qed.

Lemma marked_runCall client c s : marked s -> marked (runCall client c s).
Proof.
  intros Hm. destruct c as [| productId ty | ty]; simpl.
  - apply marked_initializeInventory, Hm.
  - unfold increasePurchasedCount.
    destruct (negb client); [exact Hm |].
    pose proof (marked_initializeInventory client s Hm) as H1.
    destruct (inventoryDoc ty _) as [d |]; [| exact H1].
    destruct (d !! productId) as [it |]; [| exact H1].
    destruct (purchased it >=? total it); [exact H1 |].
    apply marked_patchPurchased, H1.
  - unfold restoreInventory.
    destruct (negb client); [exact Hm |].
    destruct (inventoryDoc ty s) as [d |] eqn:Hd; [| exact Hm].
    apply marked_initialized.
    assert (Hi : initialized s <> None) by (apply (Hm ty); congruence).
    destruct ty; exact Hi.
Qed.

Lemma marked_runCalls client cs s : marked s -> marked (runCalls client cs s).
Proof.
  revert s. induction cs as [| c cs IH]; intros s Hs; [exact Hs |].
  simpl. apply IH, marked_runCall, Hs.
Qed.

(** The call succeeds exactly when [isProductAvailable] says so. *)
Lemma increase_iff_available client productId ty s :
  (increasePurchasedCount client productId ty s).1 =
  (isProductAvailable client productId ty s).1.
Proof.
  unfold increasePurchasedCount, isProductAvailable.
  destruct (negb client); [reflexivity |]. simpl.
  destruct (inventoryDoc ty _) as [d |]; [| reflexivity].
  destruct (d !! productId) as [it |]; [| reflexivity].
  rewrite Z.geb_leb, Z.ltb_antisym.
  destruct (total it <=? purchased it); reflexivity.
Qed.

Lemma increase_sold_out client productId ty s d it :
  initialized s <> None ->
  inventoryDoc ty s = Some d -> d !! productId = Some it ->
  total it <= purchased it ->
  increasePurchasedCount client productId ty s = (false, s).
Proof.
  intros Hi Hd Hit Hfull. unfold increasePurchasedCount.
  destruct (negb client); [reflexivity |].
  rewrite (initializeInventory_initialized client s Hi). simpl.
  rewrite Hd, Hit.
  replace (purchased it >=? total it) with true; [reflexivity |].
  symmetry. rewrite Z.geb_leb. apply Z.leb_le. exact Hfull.
Qed.

Lemma increase_absent client productId ty s :
  (forall d, inventoryDoc ty (initializeInventory client s) = Some d ->
             d !! productId = None) ->
  increasePurchasedCount client productId ty s =
  (false, initializeInventory client s).
Proof.
  intros Habs. unfold increasePurchasedCount.
  destruct (negb client) eqn:Hc.
  { unfold initializeInventory. rewrite Hc. reflexivity. }
  simpl. destruct (inventoryDoc ty _) as [d |] eqn:Hd; [| reflexivity].
  rewrite (Habs d eq_refl). reflexivity.
Qed.

Lemma increase_success client productId ty s s' :
  increasePurchasedCount client productId ty s = (true, s') ->
  exists d it,
    inventoryDoc ty (initializeInventory client s) = Some d /\
    d !! productId = Some it /\ purchased it < total it /\
    s' = setDoc ty
           (<[productId := mkItem (purchased it + 1) (total it) (name it)]> d)
           (initializeInventory client s).
Proof.
  unfold increasePurchasedCount.
  destruct (negb client); [discriminate |]. simpl.
  destruct (inventoryDoc ty _) as [d |] eqn:Hd; [| discriminate].
  destruct (d !! productId) as [it |] eqn:Hit; [| discriminate].
  destruct (purchased it >=? total it) eqn:Hc; [discriminate |].
  intros [= <-]. exists d, it. repeat split; try assumption.
  - rewrite Z.geb_leb in Hc. apply Z.leb_gt in Hc. exact Hc.
  - apply patchPurchased_insert; assumption.
Qed.

(** C1 (amended). The product ids of the calls are not names of
    properties inherited from Object.prototype (for such a name the lookup
    [inventory[productId]] of the code is truthy without an entry). From a
    store that satisfies [0 <= purchased <= total] for every product record
    (the empty collection included), every sequence of calls of
    initializeInventory, increasePurchasedCount and restoreInventory leaves
    a store that satisfies it. In every store these calls produce from the
    empty collection, and in every initialised store, a call of
    increasePurchasedCount for a product with [purchased = total] returns
    false and leaves the store as it was. The absence checks come after the
    lazy initialisation the call starts with: when the inventory document
    or the product id is absent then, the call returns false and the store
    is the one the initialisation left (the same store when it was
    initialised already). A call that returns true has replaced the
    product's entry by one whose purchased count is one more, with total
    and name kept, and nothing else. *)
Theorem C1_inventory_invariant (client : bool) (s : InvStore) (Hs : inv s) :
  (forall cs, plainCalls cs -> inv (runCalls client cs s)) /\
  (forall cs productId ty d it,
      plainCalls cs ->
      let s' := runCalls client cs emptyStore in
      inventoryDoc ty s' = Some d -> d !! productId = Some it ->
      purchased it = total it ->
      increasePurchasedCount client productId ty s' = (false, s')) /\
  (forall productId ty d it,
      initialized s <> None ->
      inventoryDoc ty s = Some d -> d !! productId = Some it ->
      purchased it = total it ->
      increasePurchasedCount client productId ty s = (false, s)) /\
  (forall productId ty,
      plainKey productId ->
      (forall d, inventoryDoc ty (initializeInventory client s) = Some d ->
                 d !! productId = None) ->
      increasePurchasedCount client productId ty s =
      (false, initializeInventory client s)) /\
  (initialized s <> None -> initializeInventory client s = s) /\
  (forall productId ty s',
      plainKey productId ->
      increasePurchasedCount client productId ty s = (true, s') ->
      exists d it,
        inventoryDoc ty (initializeInventory client s) = Some d /\
        d !! productId = Some it /\ purchased it < total it /\
        s' = setDoc ty
               (<[productId :=
                    mkItem (purchased it + 1) (total it) (name it)]> d)
               (initializeInventory client s)).
Proof.
  split; [| split; [| split; [| split; [| split]]]].
  - intros cs _. apply inv_runCalls, Hs.
  - intros cs productId ty d it _ s' Hd Hit Heq.
    eapply increase_sold_out; eauto; [| lia].
    apply (marked_runCalls client cs emptyStore marked_emptyStore ty).
    fold s'. congruence.
  - intros productId ty d it Hi Hd Hit Heq.
    eapply increase_sold_out; eauto. lia.
  - intros productId ty _. apply increase_absent.
  - apply initializeInventory_initialized.
  - intros productId ty s' _. apply increase_success.
Qed.

Lemma C1_inventory_invariant_witness :
  inv (runCalls true
         [CallInitialize; CallIncrease "special-11" special;
          CallIncrease "special-11" special; CallRestore special]
         emptyStore) /\
  increasePurchasedCount true "special-11" special soldOutStore
  = (false, soldOutStore) /\
  increasePurchasedCount true "special-12" special soldOutStore
  = (false, soldOutStore).
Proof.
  assert (Hsold : inv soldOutStore)
    by apply inv_increasePurchasedCount, inv_freshStore.
  split; [| split].
  - apply (proj1 (C1_inventory_invariant true emptyStore inv_emptyStore)).
    repeat constructor.
  - eapply (proj1 (proj2 (proj2
              (C1_inventory_invariant true soldOutStore Hsold))));
      [discriminate | reflexivity | vm_compute; reflexivity | reflexivity].
  - apply (proj1 (proj2 (proj2 (proj2
             (C1_inventory_invariant true soldOutStore Hsold)))));
      [reflexivity |].
    intros d [= <-]. vm_compute. reflexivity.
Defined.

(** C1, as stated, fails on the empty collection. The inventory document
    is absent when the call is made, and the call for "special-1" returns
    true, because it first creates the documents. For a product id that is
    in no document the call returns false, and the store is not the one it
    was called on: it has been initialised. *)
Lemma C1_absent_document_counterexample :
  inventoryDoc special emptyStore = None /\
  (increasePurchasedCount true "special-1" special emptyStore).1 = true /\
  increasePurchasedCount true "no-such-product" special emptyStore
  = (false, freshStore) /\
  freshStore <> emptyStore.
Proof.
  split; [reflexivity |]. split; [vm_compute; reflexivity |].
  split; [vm_compute; reflexivity |].
  intros H. apply (f_equal initialized) in H. discriminate H.
Qed.

(** C9 (amended). The increment is a read of the inventory document
    followed, in a second store operation, by a field patch that writes the
    count read plus one; a call run on its own, store operation by store
    operation, is the sequential increasePurchasedCount. Under every
    interleaving of the store operations of any number of
    increasePurchasedCount calls whose product ids are not names of
    properties inherited from Object.prototype, started on a store that
    satisfies [0 <= purchased <= total] (initialised or not), the store
    satisfies it at the end, so the persisted count never exceeds the
    total. Updates can be lost: two calls that both read before either
    writes both return true while the count rises by one. *)
Theorem C9_interleaved_increase (client : bool) (ts : list Thread)
    (sched : list nat) (s : InvStore)
    (Hs : inv s)
    (Hts : Forall (fun t => t_pc t = PStart) ts)
    (Hplain : plainThreads ts) :
  inv (runSchedule client sched (ts, s)).2 /\
  (forall productId ty,
      plainKey productId ->
      runThread 6 client (call productId ty) s =
      (mkThread productId ty
         (PDone (increasePurchasedCount client productId ty s).1),
       (increasePurchasedCount client productId ty s).2)).
Proof.
  split.
  - apply inv_runSchedule; assumption.
  - intros productId ty _. rewrite runThread_sequential.
    destruct (increasePurchasedCount client productId ty s). reflexivity.
Qed.

Lemma C9_interleaved_increase_witness :
  inv (runSchedule true [0; 1; 0; 1; 0; 1]%nat
         ([call "special-11" special; call "special-11" special],
          freshStore)).2 /\
  inv (runSchedule true [0; 1; 1; 0; 0; 1; 1; 0; 0; 0; 1; 1]%nat
         ([call "special-11" special; call "premium-10" premium],
          emptyStore)).2.
Proof.
  split.
  - apply (C9_interleaved_increase true
             [call "special-11" special; call "special-11" special]
             [0; 1; 0; 1; 0; 1]%nat freshStore).
    + exact inv_freshStore.
    + repeat constructor.
    + repeat constructor.
  - apply (C9_interleaved_increase true
             [call "special-11" special; call "premium-10" premium]
             [0; 1; 1; 0; 0; 1; 1; 0; 0; 0; 1; 1]%nat emptyStore).
    + exact inv_emptyStore.
    + repeat constructor.
    + repeat constructor.
Defined.

(** C9, as stated, fails: two calls for the last unit of "special-11"
    (total 1), interleaved so that both read before either writes, both
    return true, and the persisted count rises by one only. *)
Lemma C9_lost_update_counterexample :
  let c := runSchedule true [0; 1; 0; 1; 0; 1]%nat
             ([call "special-11" special; call "special-11" special],
              freshStore) in
  successes c.1 = 2%nat /\
  (inventoryDoc special freshStore ≫= (.!! "special-11"))
  = Some (mkItem 0 1 "Special 11") /\
  (inventoryDoc special c.2 ≫= (.!! "special-11"))
  = Some (mkItem 1 1 "Special 11").
Proof. vm_compute. repeat split. Qed.

(** *** Further properties of the inventory class *)

Lemma initializeInventory_idem client s :
  initializeInventory client (initializeInventory client s) =
  initializeInventory client s.
Proof.
  unfold initializeInventory. destruct client; simpl; [| reflexivity].
  destruct (initialized s) eqn:E; simpl; [rewrite E |]; reflexivity.
Qed.

Lemma initializeInventory_client_initialized s :
  initialized (initializeInventory true s) <> None.
Proof.
  unfold initializeInventory. simpl.
  destruct (initialized s) eqn:E; simpl; congruence.
Qed.

Lemma increase_initialize client productId ty s :
  increasePurchasedCount client productId ty (initializeInventory client s) =
  increasePurchasedCount client productId ty s.
Proof.
  unfold increasePurchasedCount. destruct client; simpl.
  - rewrite initializeInventory_idem. reflexivity.
  - reflexivity.
Qed.

(** [increasePurchasedCount] on an initialised collection. *)
Lemma increase_initialized client productId ty s :
  initialized s <> None ->
  increasePurchasedCount client productId ty s =
  if client then
    match inventoryDoc ty s with
    | None => (false, s)
    | Some d =>
        match d !! productId with
        | None => (false, s)
        | Some it =>
            if purchased it <? total it
            then (true,
                  setDoc ty
                    (<[productId :=
                         mkItem (purchased it + 1) (total it) (name it)]> d) s)
            else (false, s)
        end
    end
  else (false, s).
Proof.
  intros Hinit. unfold increasePurchasedCount.
  destruct client; simpl; [| reflexivity].
  rewrite (initializeInventory_initialized true s Hinit).
  destruct (inventoryDoc ty s) as [d |] eqn:Ed; [| reflexivity].
  destruct (d !! productId) as [it |] eqn:Eit; [| reflexivity].
  destruct (Z.geb_spec (purchased it) (total it)) as [Hge | Hlt].
  - destruct (Z.ltb_spec (purchased it) (total it)); [lia | reflexivity].
  - destruct (Z.ltb_spec (purchased it) (total it)); [| lia].
    rewrite (patchPurchased_insert ty productId _ s d it Ed Eit).
    reflexivity.
Qed.

Lemma initialized_setDoc ty d s : initialized (setDoc ty d s) = initialized s.
Proof. destruct ty; reflexivity. Qed.

Lemma initialized_increase client productId ty s :
  initialized s <> None ->
  initialized (increasePurchasedCount client productId ty s).2 <> None.
Proof.
  intros Hinit. rewrite (increase_initialized _ _ _ _ Hinit).
  destruct client; [| exact Hinit].
  destruct (inventoryDoc ty s) as [d |]; [| exact Hinit].
  destruct (d !! productId) as [it |]; [| exact Hinit].
  destruct (purchased it <? total it); [| exact Hinit].
  simpl. rewrite initialized_setDoc. exact Hinit.
Qed.

Lemma forceResetInventory_eq s :
  forceResetInventory true s = setMarker false s.
Proof. reflexivity. Qed.

Lemma blocked_runCall c s : blocked s -> runCall true c s = s.
Proof.
  intros [Hinit Hnone]. destruct c as [| productId ty | ty]; simpl.
  - apply initializeInventory_initialized, Hinit.
  - rewrite (increase_initialized _ _ _ _ Hinit), Hnone. reflexivity.
  - unfold restoreInventory. simpl. rewrite Hnone. reflexivity.
Qed.

Lemma blocked_runCalls cs s : blocked s -> runCalls true cs s = s.
Proof.
  intros Hb. induction cs as [| c cs IH]; [reflexivity |].
  unfold runCalls in *. simpl. rewrite (blocked_runCall c s Hb). exact IH.
Qed.

(** X1. [forceResetInventory] resets nothing: in every store, and on the
    server as in the browser, each inventory document is after the call
    what it was before it (absent if it was absent, with the same purchased
    counts otherwise); in the browser the marker document is left with
    [initialized: false]. *)
Theorem X1_force_reset_keeps_documents (client : bool) (s : InvStore) :
  (forall ty,
      inventoryDoc ty (forceResetInventory client s) = inventoryDoc ty s) /\
  (forall ty productId,
      purchasedOf ty productId (forceResetInventory client s) =
      purchasedOf ty productId s) /\
  initialized (forceResetInventory client s) =
  (if client then Some false else initialized s).
Proof.
  assert (Hdoc : forall ty,
             inventoryDoc ty (forceResetInventory client s) = inventoryDoc ty s).
  { intros ty. destruct client; [| reflexivity].
    rewrite forceResetInventory_eq. apply inventoryDoc_setMarker. }
  split; [exact Hdoc |]. split.
  - intros ty productId. unfold purchasedOf. rewrite Hdoc. reflexivity.
  - destruct client; reflexivity.
Qed.

(** X2. After [forceResetInventory] on the empty collection the inventory
    documents are never created: whatever calls of [initializeInventory],
    [increasePurchasedCount] and [restoreInventory] follow, the store stays
    as the reset left it, every purchase returns false (the document is
    absent, so no product is looked up), every product is reported
    unavailable, and every product whose id is not the name of a property
    inherited from Object.prototype is reported with the counts (0, 0). *)
Theorem X2_force_reset_blocks_empty_collection (cs : list Call)
    (productId : string) (ty : ProductType) :
  let s := runCalls true cs resetStore in
  s = resetStore /\
  increasePurchasedCount true productId ty s = (false, s) /\
  isProductAvailable true productId ty s = (false, s) /\
  (plainKey productId ->
   getProductAvailability true productId ty s = ((0, 0), s)).
Proof.
  assert (Hb : blocked resetStore).
  { split; [discriminate |]. intros []; reflexivity. }
  simpl. rewrite (blocked_runCalls cs resetStore Hb).
  split; [reflexivity |]. split; [| split].
  - rewrite (increase_initialized true productId ty resetStore (proj1 Hb)).
    rewrite (proj2 Hb). reflexivity.
  - destruct ty; reflexivity.
  - intros _. destruct ty; reflexivity.
Qed.

Lemma X2_force_reset_blocks_empty_collection_witness :
  let s := runCalls true [CallInitialize; CallIncrease "special-1" special;
                          CallRestore special] resetStore in
  s = resetStore /\
  increasePurchasedCount true "special-1" special s = (false, s) /\
  isProductAvailable true "special-1" special s = (false, s) /\
  getProductAvailability true "special-1" special s = ((0, 0), s).
Proof.
  destruct (X2_force_reset_blocks_empty_collection
              [CallInitialize; CallIncrease "special-1" special;
               CallRestore special] "special-1" special)
    as (H1 & H2 & H3 & H4).
  split; [exact H1 |]. split; [exact H2 |]. split; [exact H3 |].
  apply H4. reflexivity.
Defined.

Lemma getProductAvailability_initialized productId ty s :
  initialized s <> None ->
  getProductAvailability true productId ty s =
  (match inventoryDoc ty s ≫= (.!! productId) with
   | Some it => (purchased it, total it)
   | None => (0, 0)
   end, s).
Proof.
  intros Hinit. unfold getProductAvailability, getInventory. simpl.
  rewrite (initializeInventory_initialized true s Hinit).
  destruct (inventoryDoc ty s) as [d |]; simpl.
  - destruct (d !! productId); reflexivity.
  - rewrite lookup_empty. reflexivity.
Qed.

Lemma getProductAvailability_initialize client productId ty s :
  getProductAvailability client productId ty (initializeInventory client s) =
  getProductAvailability client productId ty s.
Proof.
  unfold getProductAvailability. destruct client; simpl; [| reflexivity].
  rewrite initializeInventory_idem. reflexivity.
Qed.

(** X3. The availability check, the counts shown and the purchase agree
    for every product id that is not the name of a property inherited from
    Object.prototype. [isProductAvailable] and [getProductAvailability]
    leave the store that the lazy initialisation leaves; the check returns
    true exactly when the counts reported satisfy purchased < total (absent
    products are reported as 0 of 0), and exactly when
    [increasePurchasedCount] returns true, on the same store or, as the
    purchase handler calls it, on the store the check has left. *)
Theorem X3_check_agrees_with_purchase (client : bool) (productId : string)
    (ty : ProductType) (s : InvStore) (Hplain : plainKey productId) :
  let check := isProductAvailable client productId ty s in
  let counts := getProductAvailability client productId ty s in
  check.2 = initializeInventory client s /\
  counts.2 = initializeInventory client s /\
  check.1 = (counts.1.1 <? counts.1.2) /\
  (increasePurchasedCount client productId ty s).1 = check.1 /\
  (increasePurchasedCount client productId ty check.2).1 = check.1.
Proof.
  simpl.
  assert (H2 : (isProductAvailable client productId ty s).2 =
               initializeInventory client s).
  { unfold isProductAvailable, initializeInventory.
    destruct client; simpl; [| reflexivity].
    destruct (inventoryDoc ty _) as [d |]; [| reflexivity].
    destruct (d !! productId); reflexivity. }
  split; [exact H2 |]. split; [| split; [| split]].
  - unfold getProductAvailability, initializeInventory.
    destruct client; simpl; [| reflexivity].
    destruct (getInventory true ty _ !! productId); reflexivity.
  - unfold isProductAvailable, getProductAvailability, getInventory.
    destruct client; simpl; [| reflexivity].
    destruct (inventoryDoc ty _) as [d |]; simpl.
    + destruct (d !! productId); reflexivity.
    + rewrite lookup_empty. reflexivity.
  - apply increase_iff_available.
  - rewrite H2, increase_initialize. apply increase_iff_available.
Qed.

Lemma X3_check_agrees_with_purchase_witness :
  isProductAvailable true "special-11" special emptyStore
  = (true, freshStore) /\
  getProductAvailability true "special-11" special emptyStore
  = ((0, 1), freshStore) /\
  (increasePurchasedCount true "special-11" special emptyStore).1 = true /\
  (isProductAvailable true "no-such-product" special emptyStore).1
  = (increasePurchasedCount true "no-such-product" special freshStore).1.
Proof.
  pose proof (X3_check_agrees_with_purchase true "special-11" special
                emptyStore eq_refl) as (_ & _ & _ & H4 & _).
  pose proof (X3_check_agrees_with_purchase true "no-such-product" special
                emptyStore eq_refl) as (H1 & _ & _ & _ & H5).
  cbv zeta in *.
  split; [vm_compute; reflexivity |]. split; [vm_compute; reflexivity |].
  split; [rewrite H4; vm_compute; reflexivity |].
  rewrite <- H5, H1. reflexivity.
Defined.

(** X4. A purchase shows in the counts, and only there (product ids are
    not names of properties inherited from Object.prototype): when
    [increasePurchasedCount] returns true, [getProductAvailability] on the
    store it leaves reports for that product one more purchased unit and
    the same total, without changing the store again, and for every other
    product of either type the counts it reported before. *)
Theorem X4_purchase_shows_in_counts (client : bool) (productId : string)
    (ty : ProductType) (s s' : InvStore)
    (Hplain : plainKey productId)
    (Hok : increasePurchasedCount client productId ty s = (true, s')) :
  let before := getProductAvailability client productId ty s in
  getProductAvailability client productId ty s' =
    ((before.1.1 + 1, before.1.2), s') /\
  (forall productId' ty',
      plainKey productId' ->
      (productId', ty') <> (productId, ty) ->
      getProductAvailability client productId' ty' s' =
      ((getProductAvailability client productId' ty' s).1, s')).
Proof.
  assert (Hclient : client = true).
  { destruct client; [reflexivity |]. discriminate Hok. }
  subst client.
  destruct (increase_success _ _ _ _ _ Hok) as (d & it & Hd & Hit & Hlt & ->).
  pose proof (initializeInventory_client_initialized s) as Hinit.
  set (s1 := initializeInventory true s) in *.
  set (d' := <[productId := mkItem (purchased it + 1) (total it) (name it)]> d).
  assert (Hinit' : initialized (setDoc ty d' s1) <> None)
    by (rewrite initialized_setDoc; exact Hinit).
  simpl. split.
  - rewrite <- (getProductAvailability_initialize true productId ty s).
    fold s1.
    rewrite !getProductAvailability_initialized by assumption.
    rewrite inventoryDoc_setDoc, decide_True by reflexivity.
    rewrite Hd. simpl. unfold d'. rewrite lookup_insert_eq, Hit. reflexivity.
  - intros productId' ty' _ Hne.
    rewrite <- (getProductAvailability_initialize true productId' ty' s).
    fold s1.
    rewrite !getProductAvailability_initialized by assumption.
    simpl. rewrite inventoryDoc_setDoc.
    destruct (decide (ty' = ty)) as [-> | Hty]; [| reflexivity].
    rewrite Hd. simpl. unfold d'.
    rewrite lookup_insert_ne by congruence. reflexivity.
Qed.

Lemma X4_purchase_shows_in_counts_witness :
  let s' := (increasePurchasedCount true "special-9" special freshStore).2 in
  getProductAvailability true "special-9" special freshStore
  = ((0, 5), freshStore) /\
  getProductAvailability true "special-9" special s' = ((1, 5), s') /\
  getProductAvailability true "premium-9" premium s' = ((0, 2), s').
Proof.
  assert (Hok : increasePurchasedCount true "special-9" special freshStore
                = (true, (increasePurchasedCount true "special-9" special
                            freshStore).2))
    by (vm_compute; reflexivity).
  pose proof (X4_purchase_shows_in_counts true "special-9" special
                freshStore _ eq_refl Hok) as [H1 H2].
  cbv zeta. split; [vm_compute; reflexivity |]. split.
  - rewrite H1. f_equal.
  - rewrite (H2 "premium-9" premium eq_refl) by discriminate.
    f_equal.
Defined.

(** The product ids of the two default inventories are not inherited
    property names. *)
Lemma defaults_plain ty productId it :
  defaultsOf ty !! productId = Some it -> plainKey productId.
Proof.
  assert (H : forall ty, map_Forall (fun productId _ => plainKey productId)
                                    (defaultsOf ty)).
  { intros []; apply (bool_decide_unpack (map_Forall _ _));
      vm_compute; exact I. }
  apply (H ty productId it).
Qed.

Lemma defaults_unpurchased ty productId it :
  defaultsOf ty !! productId = Some it -> purchased it = 0.
Proof.
  assert (H : forall ty, map_Forall (fun _ it => purchased it = 0)
                                    (defaultsOf ty)).
  { intros []; apply (bool_decide_unpack (map_Forall _ _));
      vm_compute; exact I. }
  apply (H ty productId it).
Qed.

Lemma purchasedOf_initialize client ty productId s :
  marked s ->
  purchasedOf ty productId (initializeInventory client s) =
  purchasedOf ty productId s.
Proof.
  intros Hm. destruct client; [| reflexivity].
  destruct (initialized s) eqn:E.
  { rewrite initializeInventory_initialized by congruence. reflexivity. }
  replace (initializeInventory true s)
    with (setMarker true
            (setDoc premium premiumInventory
               (setDoc special specialInventory s)))
    by (unfold initializeInventory; simpl; rewrite E; reflexivity).
  assert (Hnone : forall ty, inventoryDoc ty s = None).
  { intros ty'. destruct (inventoryDoc ty' s) eqn:Ed; [| reflexivity].
    exfalso. apply (Hm ty'); [rewrite Ed; discriminate | exact E]. }
  assert (Hdoc : inventoryDoc ty
                   (setMarker true
                      (setDoc premium premiumInventory
                         (setDoc special specialInventory s)))
                 = Some (defaultsOf ty)) by (destruct ty; reflexivity).
  unfold purchasedOf. rewrite Hdoc, (Hnone ty). simpl.
  destruct (defaultsOf ty !! productId) as [it |] eqn:Eit; [| reflexivity].
  apply (defaults_unpurchased ty productId it Eit).
Qed.

Lemma purchases_initialize client calls s :
  calls <> [] ->
  purchases client calls (initializeInventory client s) =
  purchases client calls s.
Proof.
  destruct calls as [| [productId ty] rest]; [congruence |]. intros _.
  simpl. rewrite increase_initialize. reflexivity.
Qed.

Lemma purchasedOf_setDoc ty ty' productId productId' it d s :
  inventoryDoc ty s = Some d -> d !! productId = Some it ->
  purchasedOf ty' productId'
    (setDoc ty (<[productId :=
                    mkItem (purchased it + 1) (total it) (name it)]> d) s) =
  purchasedOf ty' productId' s +
  (if bool_decide (productId = productId') && bool_decide (ty = ty')
   then 1 else 0).
Proof.
  intros Hd Hit. unfold purchasedOf. rewrite inventoryDoc_setDoc.
  destruct (decide (ty' = ty)) as [-> | Hty].
  - rewrite Hd. simpl. rewrite (bool_decide_eq_true_2 (ty = ty)) by reflexivity.
    rewrite andb_true_r.
    destruct (decide (productId = productId')) as [-> | Hne].
    + rewrite lookup_insert_eq, Hit, bool_decide_eq_true_2 by reflexivity.
      reflexivity.
    + rewrite lookup_insert_ne, bool_decide_eq_false_2 by assumption. lia.
  - rewrite (bool_decide_eq_false_2 (ty = ty')) by congruence.
    rewrite andb_false_r. lia.
Qed.

Lemma purchases_accounting client productId ty calls : forall s,
  initialized s <> None ->
  purchasedOf ty productId (purchases client calls s).2 =
  purchasedOf ty productId s + sold productId ty calls (purchases client calls s).1.
Proof.
  induction calls as [| [productId' ty'] rest IH]; intros s Hinit.
  - simpl. lia.
  - simpl.
    pose proof (initialized_increase client productId' ty' s Hinit) as Hinit1.
    rewrite (increase_initialized client productId' ty' s Hinit) in *.
    destruct client.
    + destruct (inventoryDoc ty' s) as [d |] eqn:Ed.
      * destruct (d !! productId') as [it |] eqn:Eit.
        -- destruct (purchased it <? total it) eqn:Elt.
           ++ simpl in Hinit1.
              specialize (IH _ Hinit1).
              destruct (purchases true rest _) as [bs s2]. simpl in *.
              rewrite IH, (purchasedOf_setDoc _ _ _ _ _ _ _ Ed Eit). lia.
           ++ specialize (IH s Hinit).
              destruct (purchases true rest s) as [bs s2]. simpl in *. lia.
        -- specialize (IH s Hinit).
           destruct (purchases true rest s) as [bs s2]. simpl in *. lia.
      * specialize (IH s Hinit).
        destruct (purchases true rest s) as [bs s2]. simpl in *. lia.
    + specialize (IH s Hinit).
      destruct (purchases false rest s) as [bs s2]. simpl in *. lia.
Qed.

Lemma inv_purchases client calls : forall s,
  inv s -> inv (purchases client calls s).2.
Proof.
  induction calls as [| [productId ty] rest IH]; intros s Hs; [exact Hs |].
  simpl.
  pose proof (inv_increasePurchasedCount client productId ty s Hs) as H1.
  destruct (increasePurchasedCount client productId ty s) as [b s1].
  specialize (IH s1 H1). destruct (purchases client rest s1) as [bs s2].
  exact IH.
Qed.

Lemma marked_purchases client calls : forall s,
  marked s -> marked (purchases client calls s).2.
Proof.
  induction calls as [| [productId ty] rest IH]; intros s Hs; [exact Hs |].
  simpl.
  pose proof (marked_runCall client (CallIncrease productId ty) s Hs) as H1.
  simpl in H1.
  destruct (increasePurchasedCount client productId ty s) as [b s1].
  specialize (IH s1 H1). destruct (purchases client rest s1) as [bs s2].
  exact IH.
Qed.

Lemma purchases_length client calls : forall s,
  length (purchases client calls s).1 = length calls.
Proof.
  induction calls as [| [productId ty] rest IH]; intros s; [reflexivity |].
  simpl. destruct (increasePurchasedCount client productId ty s) as [b s1].
  specialize (IH s1). destruct (purchases client rest s1) as [bs s2].
  simpl in *. congruence.
Qed.

(** X5. Purchases made one after the other are counted exactly. Started on
    the empty collection, or on any store whose inventory documents exist
    only once it is initialised, and whose counts satisfy
    0 <= purchased <= total, a sequence of [increasePurchasedCount] calls
    for product ids that are not names of properties inherited from
    Object.prototype returns one boolean per call and leaves, for every
    product, a purchased count equal to the count before plus the number of
    calls for that product that returned true; the invariant still holds,
    so no more calls succeed than units were left. *)
Theorem X5_sequential_purchases_counted (client : bool)
    (calls : list (string * ProductType)) (s : InvStore)
    (Hm : marked s) (Hs : inv s) (Hplain : plainPurchases calls) :
  let results := (purchases client calls s).1 in
  let s' := (purchases client calls s).2 in
  length results = length calls /\
  inv s' /\ marked s' /\
  forall productId ty,
    purchasedOf ty productId s' =
    purchasedOf ty productId s + sold productId ty calls results /\
    forall d it, inventoryDoc ty s' = Some d -> d !! productId = Some it ->
      purchasedOf ty productId s + sold productId ty calls results
      <= total it.
Proof.
  simpl. split; [apply purchases_length |].
  split; [apply inv_purchases, Hs |].
  split; [apply marked_purchases, Hm |].
  intros productId ty.
  assert (Hacc : purchasedOf ty productId (purchases client calls s).2 =
                 purchasedOf ty productId s +
                 sold productId ty calls (purchases client calls s).1).
  { destruct calls as [| c rest]; [simpl; lia |].
    destruct client.
    - rewrite <- (purchases_initialize true (c :: rest) s) by discriminate.
      rewrite purchases_accounting
        by apply initializeInventory_client_initialized.
      rewrite purchasedOf_initialize by exact Hm. reflexivity.
    - destruct (initialized s) eqn:E.
      + apply purchases_accounting. congruence.
      + rewrite <- (purchases_initialize false (c :: rest) s) by discriminate.
        clear. generalize (c :: rest). intros l.
        change (initializeInventory false s) with s.
        induction l as [| [productId' ty'] l IH]; [simpl; lia |].
        simpl. destruct (purchases false l s) as [bs s2]. simpl in *. lia. }
  split; [exact Hacc |].
  intros d it Hd Hit. rewrite <- Hacc.
  pose proof (inv_purchases client calls s Hs ty d Hd productId it Hit) as Hok.
  unfold purchasedOf. rewrite Hd. simpl. rewrite Hit. apply Hok.
Qed.

Lemma X5_sequential_purchases_counted_witness :
  let calls := [("special-11", special); ("premium-9", premium);
                ("special-11", special); ("premium-9", premium);
                ("premium-9", premium)] in
  (purchases true calls emptyStore).1 = [true; true; false; true; false] /\
  purchasedOf special "special-11" (purchases true calls emptyStore).2 = 1 /\
  purchasedOf premium "premium-9" (purchases true calls emptyStore).2 = 2.
Proof.
  pose proof (X5_sequential_purchases_counted true
                [("special-11", special); ("premium-9", premium);
                 ("special-11", special); ("premium-9", premium);
                 ("premium-9", premium)]
                emptyStore marked_emptyStore inv_emptyStore
                ltac:(repeat constructor)) as H.
  cbv zeta in H. destruct H as (_ & _ & _ & H). cbv zeta.
  split; [vm_compute; reflexivity |]. split.
  - rewrite (proj1 (H "special-11" special)). vm_compute. reflexivity.
  - rewrite (proj1 (H "premium-9" premium)). vm_compute. reflexivity.
Defined.

(** X6. A product sells exactly the units that are left. On an initialised
    collection in which [productId] has [total - purchased] units left,
    [n] calls of [increasePurchasedCount] for it, one after the other,
    return true for the first [min n (total - purchased)] calls and false
    for all the later ones. *)
Theorem X6_sells_exactly_remaining_units (n : nat) (productId : string)
    (ty : ProductType) (s : InvStore) (d : gmap string Item) (it : Item)
    (Hinit : initialized s <> None)
    (Hd : inventoryDoc ty s = Some d)
    (Hit : d !! productId = Some it) :
  let left := Z.to_nat (total it - purchased it) in
  (purchases true (replicate n (productId, ty)) s).1 =
  replicate (n `min` left) true ++ replicate (n - left) false.
Proof.
  revert s d it Hinit Hd Hit.
  induction n as [| n IH]; intros s d it Hinit Hd Hit; [reflexivity |].
  cbn [replicate purchases].
  pose proof (initialized_increase true productId ty s Hinit) as Hinit1.
  rewrite (increase_initialized true productId ty s Hinit) in *.
  rewrite Hd, Hit in *.
  destruct (Z.ltb_spec (purchased it) (total it)) as [Hlt | Hge].
  - set (it' := mkItem (purchased it + 1) (total it) (name it)) in *.
    set (s1 := setDoc ty (<[productId := it']> d) s) in *.
    assert (Hd1 : inventoryDoc ty s1 = Some (<[productId := it']> d)).
    { unfold s1. rewrite inventoryDoc_setDoc, decide_True; reflexivity. }
    specialize (IH s1 _ it' Hinit1 Hd1 (lookup_insert_eq _ _ _)).
    destruct (purchases true (replicate n (productId, ty)) s1) as [bs s2].
    cbn [fst] in *. rewrite IH. cbn [it' total purchased].
    replace (Z.to_nat (total it - purchased it))
      with (S (Z.to_nat (total it - (purchased it + 1)))) by lia.
    reflexivity.
  - specialize (IH s d it Hinit Hd Hit).
    destruct (purchases true (replicate n (productId, ty)) s) as [bs s2].
    cbn [fst] in *. rewrite IH.
    replace (Z.to_nat (total it - purchased it)) with 0%nat by lia.
    rewrite Nat.min_0_r, !Nat.sub_0_r. reflexivity.
Qed.

Lemma X6_sells_exactly_remaining_units_witness :
  (purchases true (replicate 7 ("special-9", special)) freshStore).1 =
  [true; true; true; true; true; false; false].
Proof.
  rewrite (X6_sells_exactly_remaining_units 7 "special-9" special freshStore
             specialInventory (mkItem 0 5 "Special 9"));
    [reflexivity | discriminate | reflexivity | vm_compute; reflexivity].
Defined.

Lemma inventoryDoc_restoreInventory ty ty' s :
  inventoryDoc ty' (restoreInventory true ty s) =
  if decide (ty' = ty)
  then restoredDoc <$> inventoryDoc ty s
  else inventoryDoc ty' s.
Proof.
  unfold restoreInventory. simpl.
  destruct (inventoryDoc ty s) as [d |] eqn:Ed.
  - rewrite inventoryDoc_setDoc. destruct (decide (ty' = ty)); reflexivity.
  - destruct (decide (ty' = ty)) as [-> |]; [rewrite Ed |]; reflexivity.
Qed.

Lemma restored_increase productId ty ty' s :
  initialized s <> None ->
  restoredDoc <$> inventoryDoc ty' (increasePurchasedCount true productId ty s).2 =
  restoredDoc <$> inventoryDoc ty' s.
Proof.
  intros Hinit. rewrite (increase_initialized true productId ty s Hinit).
  destruct (inventoryDoc ty s) as [d |] eqn:Ed; [| reflexivity].
  destruct (d !! productId) as [it |] eqn:Eit; [| reflexivity].
  destruct (purchased it <? total it); [| reflexivity].
  cbn [snd]. rewrite inventoryDoc_setDoc.
  destruct (decide (ty' = ty)) as [-> | Hne]; [| reflexivity].
  rewrite Ed. cbn [fmap option_fmap option_map]. f_equal.
  unfold restoredDoc. rewrite fmap_insert. apply insert_id.
  rewrite lookup_fmap, Eit. reflexivity.
Qed.

Lemma restored_purchases ty' calls : forall s,
  initialized s <> None ->
  restoredDoc <$> inventoryDoc ty' (purchases true calls s).2 =
  restoredDoc <$> inventoryDoc ty' s.
Proof.
  induction calls as [| [productId ty] rest IH]; intros s Hinit;
    [reflexivity |].
  simpl.
  pose proof (initialized_increase true productId ty s Hinit) as Hinit1.
  pose proof (restored_increase productId ty ty' s Hinit) as H1.
  destruct (increasePurchasedCount true productId ty s) as [b s1].
  specialize (IH s1 Hinit1). destruct (purchases true rest s1) as [bs s2].
  cbn [snd] in *. congruence.
Qed.

(** X7. [restoreInventory] undoes the purchases of its product type and
    nothing else. On an initialised collection, after any sequence of
    purchases for product ids that are not names of properties inherited
    from Object.prototype, the restored document of the type is the one a
    restore before the purchases would have given: every entry has
    purchased 0 and the total and name it had. The document of the other
    type is left as the purchases left it, and a second restore changes
    nothing. *)
Theorem X7_restore_undoes_purchases
    (calls : list (string * ProductType)) (ty : ProductType) (s : InvStore)
    (Hinit : initialized s <> None) (Hplain : plainPurchases calls) :
  let s' := (purchases true calls s).2 in
  inventoryDoc ty (restoreInventory true ty s') =
    inventoryDoc ty (restoreInventory true ty s) /\
  (forall d productId it,
      inventoryDoc ty s' = Some d -> d !! productId = Some it ->
      inventoryDoc ty (restoreInventory true ty s') ≫= (.!! productId)
      = Some (mkItem 0 (total it) (name it))) /\
  (forall productId,
      purchasedOf ty productId (restoreInventory true ty s') = 0) /\
  (forall ty', ty' <> ty ->
      inventoryDoc ty' (restoreInventory true ty s') = inventoryDoc ty' s') /\
  restoreInventory true ty (restoreInventory true ty s') =
    restoreInventory true ty s'.
Proof.
  cbv zeta. set (s' := (purchases true calls s).2).
  split; [| split; [| split; [| split]]].
  - rewrite !inventoryDoc_restoreInventory, !decide_True by reflexivity.
    apply restored_purchases, Hinit.
  - intros d productId it Hd Hit.
    rewrite inventoryDoc_restoreInventory, decide_True, Hd by reflexivity.
    simpl. unfold restoredDoc. rewrite lookup_fmap, Hit. reflexivity.
  - intros productId. unfold purchasedOf.
    rewrite inventoryDoc_restoreInventory, decide_True by reflexivity.
    destruct (inventoryDoc ty s') as [d |]; [| reflexivity].
    simpl. unfold restoredDoc. rewrite lookup_fmap.
    destruct (d !! productId); reflexivity.
  - intros ty' Hne.
    rewrite inventoryDoc_restoreInventory, decide_False by exact Hne.
    reflexivity.
  - unfold restoreInventory. simpl.
    destruct (inventoryDoc ty s') as [d |] eqn:Ed; [| rewrite Ed; reflexivity].
    rewrite inventoryDoc_setDoc, decide_True by reflexivity.
    rewrite <- map_fmap_compose.
    destruct ty; reflexivity.
Qed.

Lemma X7_restore_undoes_purchases_witness :
  purchasedOf special "special-11" soldOutStore = 1 /\
  restoreInventory true special soldOutStore = freshStore.
Proof.
  split; [vm_compute; reflexivity |].
  pose proof (X7_restore_undoes_purchases [("special-11", special)] special
                freshStore) as H.
  cbv zeta in H. destruct H as (H & _); [discriminate | repeat constructor |].
  assert (Hs : (purchases true [("special-11", special)] freshStore).2
               = soldOutStore) by reflexivity.
  rewrite Hs in H. clear Hs.
  assert (Hfresh : restoreInventory true special freshStore = freshStore).
  { vm_compute. reflexivity. }
  rewrite Hfresh in H.
  assert (Hrest : forall st d,
             inventoryDoc special st = Some d ->
             premiumDoc st = premiumDoc freshStore ->
             initialized st = initialized freshStore ->
             inventoryDoc special (restoreInventory true special st)
             = inventoryDoc special freshStore ->
             restoreInventory true special st = freshStore).
  { intros st d Hd Hp Hi Heq. unfold restoreInventory in *. simpl in *.
    rewrite Hd in *. simpl in *. rewrite Hp, Hi.
    injection Heq as ->. reflexivity. }
  eapply Hrest; [vm_compute; reflexivity | reflexivity | reflexivity | exact H].
Defined.

End InventoryFacts.

(** ** Facts about the inventory class with [available] counts *)

Module LegacyInventoryFacts.
Import LegacyInventory.

Lemma legacy_inventoryDoc_setDoc ty ty' d s :
  inventoryDoc ty (setDoc ty' d s) =
  if decide (ty = ty') then Some d else inventoryDoc ty s.
Proof. destruct ty, ty'; reflexivity. Qed.

Lemma legacy_defaults_ok ty productId it :
  (match ty with
   | Inventory.special => specialInventory
   | Inventory.premium => premiumInventory
   end) !! productId = Some it -> item_ok it.
Proof.
  assert (H : forall d, d = specialInventory \/ d = premiumInventory ->
                        map_Forall (fun _ it => item_ok it) d).
  { intros d [-> | ->]; apply (bool_decide_unpack (map_Forall _ _));
      vm_compute; exact I. }
  destruct ty; apply H; auto.
Qed.

Lemma legacy_decrease_cases client productId ty s :
  decreaseAvailability client productId ty s = (false, s) \/
  exists d it,
    client = true /\ inventoryDoc ty s = Some d /\ d !! productId = Some it /\
    0 < available it /\
    decreaseAvailability client productId ty s =
    (true, setDoc ty (<[productId := mkItem (available it - 1) (total it)
                                            (name it)]> d) s).
Proof.
  unfold decreaseAvailability. destruct client; simpl; [| auto].
  destruct (inventoryDoc ty s) as [d |] eqn:Ed; [| auto].
  destruct (d !! productId) as [it |] eqn:Eit; [| auto].
  destruct (Z.leb_spec (available it) 0); [auto |].
  right. exists d, it. auto.
Qed.

(** X8. The class with [available] counts keeps 0 <= available <= total
    through [initializeInventory], [decreaseAvailability] and
    [restoreInventory]. For a product id that is not the name of a property
    inherited from Object.prototype, a call of [decreaseAvailability] that
    returns false leaves the store exactly as it was (it never initialises:
    on the empty collection it returns false and creates nothing); a call
    that returns true found the product with a positive count and lowers
    that count by exactly one, changing nothing else. *)
Theorem X8_available_counts_invariant (client : bool) (productId : string)
    (ty : Inventory.ProductType) (s : InvStore) (Hs : inv s)
    (Hplain : Inventory.plainKey productId) :
  inv (initializeInventory client s) /\
  inv (decreaseAvailability client productId ty s).2 /\
  inv (restoreInventory client ty s) /\
  (forall s', decreaseAvailability client productId ty s = (false, s') ->
              s' = s) /\
  (forall s', decreaseAvailability client productId ty s = (true, s') ->
     exists d it,
       inventoryDoc ty s = Some d /\ d !! productId = Some it /\
       0 < available it /\
       s' = setDoc ty (<[productId := mkItem (available it - 1) (total it)
                                             (name it)]> d) s) /\
  decreaseAvailability client productId ty emptyStore = (false, emptyStore).
Proof.
  split; [| split; [| split; [| split; [| split]]]].
  - unfold initializeInventory. destruct client; simpl; [| exact Hs].
    destruct (initialized s); [exact Hs |].
    intros ty' d productId' it Hd Hit.
    destruct ty'; simpl in Hd; injection Hd as <-.
    + apply (legacy_defaults_ok Inventory.special productId' it Hit).
    + apply (legacy_defaults_ok Inventory.premium productId' it Hit).
  - destruct (legacy_decrease_cases client productId ty s)
      as [-> | (d & it & _ & Hd & Hit & Hpos & ->)]; [exact Hs |].
    cbn [snd]. intros ty' d' productId' it' Hd' Hit'.
    rewrite legacy_inventoryDoc_setDoc in Hd'.
    destruct (decide (ty' = ty)) as [-> | Hne]; [| exact (Hs _ _ _ _ Hd' Hit')].
    injection Hd' as <-.
    destruct (decide (productId' = productId)) as [-> | Hp].
    + rewrite lookup_insert_eq in Hit'. injection Hit' as <-.
      pose proof (Hs _ _ _ _ Hd Hit) as Hok. unfold item_ok in *. simpl. lia.
    + rewrite lookup_insert_ne in Hit' by congruence.
      exact (Hs _ _ _ _ Hd Hit').
  - unfold restoreInventory. destruct client; simpl; [| exact Hs].
    destruct (inventoryDoc ty s) as [d |] eqn:Ed; [| exact Hs].
    intros ty' d' productId' it' Hd' Hit'.
    rewrite legacy_inventoryDoc_setDoc in Hd'.
    destruct (decide (ty' = ty)) as [-> | Hne]; [| exact (Hs _ _ _ _ Hd' Hit')].
    injection Hd' as <-. rewrite lookup_fmap in Hit'.
    destruct (d !! productId') as [it0 |] eqn:E0; [| discriminate].
    injection Hit' as <-. pose proof (Hs _ _ _ _ Ed E0) as Hok.
    unfold item_ok in *. simpl. lia.
  - intros s' H.
    destruct (legacy_decrease_cases client productId ty s)
      as [E | (d & it & _ & _ & _ & _ & E)]; congruence.
  - intros s' H.
    destruct (legacy_decrease_cases client productId ty s)
      as [E | (d & it & _ & Hd & Hit & Hpos & E)]; [congruence |].
    exists d, it. split; [exact Hd |]. split; [exact Hit |].
    split; [exact Hpos |]. congruence.
  - unfold decreaseAvailability. destruct client, ty; reflexivity.
Qed.

Lemma X8_available_counts_invariant_witness :
  inv (decreaseAvailability true "special-11" Inventory.special
         (initializeInventory true emptyStore)).2 /\
  (decreaseAvailability true "special-11" Inventory.special
     (initializeInventory true emptyStore)).1 = true /\
  (decreaseAvailability true "special-11" Inventory.special
     (decreaseAvailability true "special-11" Inventory.special
        (initializeInventory true emptyStore)).2).1 = false.
Proof.
  assert (H0 : inv emptyStore) by (intros [] d productId it Hd; discriminate Hd).
  pose proof (X8_available_counts_invariant true "special-11"
                Inventory.special emptyStore H0 eq_refl) as (Hinit & _).
  pose proof (X8_available_counts_invariant true "special-11"
                Inventory.special _ Hinit eq_refl) as (_ & Hdec & _).
  split; [exact Hdec |]. split; vm_compute; reflexivity.
Defined.

Lemma toLegacy_inventoryDoc ty s :
  inventoryDoc ty (toLegacy s) = toLegacyDoc <$> Inventory.inventoryDoc ty s.
Proof. destruct ty; reflexivity. Qed.

Lemma toLegacy_setDoc ty d s :
  toLegacy (Inventory.setDoc ty d s) = setDoc ty (toLegacyDoc d) (toLegacy s).
Proof. destruct ty; reflexivity. Qed.

Lemma toLegacy_initializeInventory client s :
  initializeInventory client (toLegacy s) =
  toLegacy (Inventory.initializeInventory client s).
Proof.
  unfold initializeInventory, Inventory.initializeInventory.
  destruct client; simpl; [| reflexivity].
  destruct (Inventory.initialized s); [reflexivity |].
  vm_compute. reflexivity.
Qed.

(** X9. The two inventory classes are one bookkeeping in two encodings,
    related by available = total - purchased. [initializeInventory] and
    [restoreInventory] of the two classes correspond on every store. On an
    initialised collection, and for a product id that is not the name of a
    property inherited from Object.prototype, [decreaseAvailability]
    returns what [increasePurchasedCount] returns and leaves the
    corresponding store, and the availability check and the counts
    correspond as well. They differ on a collection that is not
    initialised: there only [increasePurchasedCount] initialises first. *)
Theorem X9_available_is_total_minus_purchased (client : bool)
    (productId : string) (ty : Inventory.ProductType)
    (s : Inventory.InvStore) (Hplain : Inventory.plainKey productId) :
  initializeInventory client (toLegacy s) =
    toLegacy (Inventory.initializeInventory client s) /\
  restoreInventory client ty (toLegacy s) =
    toLegacy (Inventory.restoreInventory client ty s) /\
  (Inventory.initialized s <> None ->
   decreaseAvailability client productId ty (toLegacy s) =
     ((Inventory.increasePurchasedCount client productId ty s).1,
      toLegacy (Inventory.increasePurchasedCount client productId ty s).2) /\
   isProductAvailable client productId ty (toLegacy s) =
     (Inventory.isProductAvailable client productId ty s).1 /\
   getProductAvailability client productId ty (toLegacy s) =
     (let counts := (Inventory.getProductAvailability client productId ty s).1
      in (counts.2 - counts.1, counts.2))) /\
  (decreaseAvailability true "special-1" Inventory.special
     (toLegacy Inventory.emptyStore)).1 = false /\
  (Inventory.increasePurchasedCount true "special-1" Inventory.special
     Inventory.emptyStore).1 = true.
Proof.
  split; [apply toLegacy_initializeInventory |].
  split; [| split; [| split; vm_compute; reflexivity]].
  - unfold restoreInventory, Inventory.restoreInventory.
    destruct client; simpl; [| reflexivity].
    rewrite toLegacy_inventoryDoc.
    destruct (Inventory.inventoryDoc ty s) as [d |]; simpl; [| reflexivity].
    rewrite toLegacy_setDoc. f_equal. unfold toLegacyDoc.
    rewrite <- !map_fmap_compose. apply map_fmap_ext.
    intros k it _. unfold toAvailable, setAvailable. simpl.
    f_equal. lia.
  - intros Hinit. split; [| split].
    + rewrite (InventoryFacts.increase_initialized _ _ _ _ Hinit).
      unfold decreaseAvailability. destruct client; simpl; [| reflexivity].
      rewrite toLegacy_inventoryDoc.
      destruct (Inventory.inventoryDoc ty s) as [d |]; simpl; [| reflexivity].
      unfold toLegacyDoc at 1. rewrite lookup_fmap.
      destruct (d !! productId) as [it |]; simpl; [| reflexivity].
      destruct (Z.ltb_spec (Inventory.purchased it) (Inventory.total it));
        destruct (Z.leb_spec (Inventory.total it - Inventory.purchased it) 0);
        try lia; [| reflexivity].
      simpl. rewrite toLegacy_setDoc. do 2 f_equal.
      unfold toLegacyDoc. rewrite fmap_insert. f_equal.
      unfold toAvailable, setAvailable. simpl. f_equal. lia.
    + unfold isProductAvailable, Inventory.isProductAvailable, getInventory.
      destruct client; simpl; [| reflexivity].
      rewrite (InventoryFacts.initializeInventory_initialized true s Hinit).
      rewrite toLegacy_inventoryDoc.
      destruct (Inventory.inventoryDoc ty s) as [d |]; simpl;
        [| rewrite lookup_empty; reflexivity].
      unfold toLegacyDoc. rewrite lookup_fmap.
      destruct (d !! productId) as [it |]; simpl; [| reflexivity].
      destruct (Z.ltb_spec (Inventory.purchased it) (Inventory.total it));
        destruct (Z.gtb_spec (Inventory.total it - Inventory.purchased it) 0);
        try lia; reflexivity.
    + unfold getProductAvailability, getInventory.
      destruct client; cbn [negb]; [| reflexivity].
      rewrite (InventoryFacts.getProductAvailability_initialized _ _ _ Hinit).
      rewrite toLegacy_inventoryDoc.
      destruct (Inventory.inventoryDoc ty s) as [d |]; simpl;
        [| rewrite lookup_empty; reflexivity].
      unfold toLegacyDoc. rewrite lookup_fmap.
      destruct (d !! productId) as [it |]; reflexivity.
Qed.

Lemma X9_available_is_total_minus_purchased_witness :
  decreaseAvailability true "special-9" Inventory.special
    (toLegacy Inventory.freshStore) =
  (true,
   toLegacy (Inventory.increasePurchasedCount true "special-9"
               Inventory.special Inventory.freshStore).2) /\
  getProductAvailability true "special-9" Inventory.special
    (toLegacy Inventory.freshStore) = (5, 5).
Proof.
  pose proof (X9_available_is_total_minus_purchased true "special-9"
                Inventory.special Inventory.freshStore eq_refl)
    as (_ & _ & H & _).
  destruct H as (Hdec & _ & Hcounts); [discriminate |].
  split.
  - rewrite Hdec. reflexivity.
  - rewrite Hcounts. vm_compute. reflexivity.
Defined.

End LegacyInventoryFacts.

(** ** Facts about the ledger services *)

Module LedgerFacts.
Import Ledger.

(** *** Deposit bonuses without store failures, in the browser *)

Lemma processLevel1_eq now user d s :
  truthy (referredBy user) = true ->
  processLevel1ReferralBonus true nofail now user d s =
  Ok tt (payAncestor now user d 1 s).
Proof.
  intros Ht. unfold processLevel1ReferralBonus, payAncestor, ancestorAt,
    referrerOf, payLevel, bonusAt, bind, getUserById, nofail.
  rewrite Ht. cbn [levelPercent].
  destruct (users s !! default "" (referredBy user)) as [a |];
    [| reflexivity].
  destruct (round_percent 19 d >? 0); reflexivity.
Qed.

Lemma processLevel2_eq now user d s :
  truthy (referredBy user) = true ->
  processLevel2ReferralBonus true nofail now user d s =
  Ok tt (payAncestor now user d 2 s).
Proof.
  intros Ht. unfold processLevel2ReferralBonus, payAncestor, ancestorAt,
    referrerOf, payLevel, bonusAt, bind, getUserById, nofail.
  rewrite Ht. cbn [levelPercent].
  destruct (users s !! default "" (referredBy user)) as [a1 |];
    [| reflexivity].
  destruct (truthy (referredBy a1)); [| reflexivity]. cbn [negb].
  destruct (users s !! default "" (referredBy a1)) as [a2 |];
    [| reflexivity].
  destruct (round_percent 2 d >? 0); reflexivity.
Qed.

Lemma processLevel3_eq now user d s :
  truthy (referredBy user) = true ->
  processLevel3ReferralBonus true nofail now user d s =
  Ok tt (payAncestor now user d 3 s).
Proof.
  intros Ht. unfold processLevel3ReferralBonus, payAncestor, ancestorAt,
    referrerOf, payLevel, bonusAt, bind, getUserById, nofail.
  rewrite Ht. cbn [levelPercent].
  destruct (users s !! default "" (referredBy user)) as [a1 |];
    [| reflexivity].
  destruct (truthy (referredBy a1)); [| reflexivity]. cbn [negb].
  destruct (users s !! default "" (referredBy a1)) as [a2 |];
    [| reflexivity].
  destruct (truthy (referredBy a2)); [| reflexivity]. cbn [negb].
  destruct (users s !! default "" (referredBy a2)) as [a3 |];
    [| reflexivity].
  destruct (round_percent 1 d >? 0); reflexivity.
Qed.

Lemma deposit_no_user client fails now userId d s :
  users s !! userId = None ->
  processDepositReferralBonus client fails now userId d s = Ok tt s.
Proof.
  intros Hu. unfold processDepositReferralBonus, try_catch, bind, getUserById.
  destruct (fails (GetUser userId)); [reflexivity |]. rewrite Hu. reflexivity.
Qed.

Lemma deposit_no_referrer client fails now userId d s u :
  users s !! userId = Some u -> truthy (referredBy u) = false ->
  processDepositReferralBonus client fails now userId d s = Ok tt s.
Proof.
  intros Hu Ht. unfold processDepositReferralBonus, try_catch, bind,
    getUserById.
  destruct (fails (GetUser userId)); [reflexivity |].
  rewrite Hu, Ht. reflexivity.
Qed.

(** The guard of the code and the count of bonus transactions in the
    referrer's log. *)
Lemma alreadyPaid_count r userId (l : list Transaction) :
  existsb (isBonusFor userId) (filter (fun t => tx_userId t = r) l) = false
  <-> countBonuses r userId l = 0%nat.
Proof.
  unfold countBonuses. induction l as [| t l IH]; [easy |].
  rewrite !filter_cons.
  destruct (decide (bonusPaid r userId t)) as [(Hr & Ht & Hu) | Hn].
  - rewrite decide_True by exact Hr. simpl. unfold isBonusFor at 1.
    rewrite !bool_decide_true by assumption. simpl. split; discriminate.
  - destruct (decide (tx_userId t = r)) as [Hr | Hr]; [| exact IH].
    simpl. unfold isBonusFor at 1.
    destruct (bool_decide (tx_type t = Referral_Bonus)) eqn:Ht;
      [| exact IH].
    destruct (bool_decide (tx_referralUserId t = Some userId)) eqn:Hu;
      [| exact IH].
    apply bool_decide_eq_true in Ht, Hu. exfalso. apply Hn.
    repeat split; assumption.
Qed.

Lemma deposit_already_paid now userId d s u :
  users s !! userId = Some u -> truthy (referredBy u) = true ->
  countBonuses (default "" (referredBy u)) userId (transactions s) <> 0%nat ->
  processDepositReferralBonus true nofail now userId d s = Ok tt s.
Proof.
  intros Hu Ht Hc. unfold processDepositReferralBonus, try_catch, bind,
    getUserById, getTransactionsByUser, nofail. cbn [negb].
  rewrite Hu, Ht. cbn [negb].
  destruct (existsb _ _) eqn:He; [reflexivity |].
  apply alreadyPaid_count in He. contradiction.
Qed.

Lemma deposit_pays now userId d s u :
  users s !! userId = Some u -> truthy (referredBy u) = true ->
  countBonuses (default "" (referredBy u)) userId (transactions s) = 0%nat ->
  processDepositReferralBonus true nofail now userId d s =
  Ok tt (payAncestor now u d 3 (payAncestor now u d 2 (payAncestor now u d 1 s))).
Proof.
  intros Hu Ht Hc. apply alreadyPaid_count in Hc.
  unfold processDepositReferralBonus, try_catch.
  unfold bind at 1. unfold getUserById at 1. unfold nofail at 1.
  rewrite Hu, Ht. cbn [negb].
  unfold bind at 1. unfold getTransactionsByUser, nofail at 1. cbn [negb].
  rewrite Hc.
  unfold bind. rewrite processLevel1_eq, processLevel2_eq, processLevel3_eq
    by exact Ht.
  reflexivity.
Qed.

(** *** The referral graph is not changed by payouts *)

Lemma same_id_refl a : same_id a a.
Proof. repeat split. Qed.

Lemma same_id_with_bonus b a a' : same_id a a' -> same_id a (with_bonus b a').
Proof. intros (H1 & H2 & H3). repeat split; assumption. Qed.

Lemma same_graph_refl m : same_graph m m.
Proof. intros k. unfold opt_same. destruct (m !! k); auto using same_id_refl. Qed.

Lemma same_graph_alter b r m m' :
  same_graph m m' -> same_graph m (alter (with_bonus b) r m').
Proof.
  intros H k. specialize (H k). rewrite lookup_alter.
  unfold opt_same in *. case_decide; [subst r | exact H].
  destruct (m !! k), (m' !! k); simpl; auto using same_id_with_bonus.
Qed.

Lemma ids_consistent_alter b r m :
  ids_consistent m -> ids_consistent (alter (with_bonus b) r m).
Proof.
  intros H k u. rewrite lookup_alter. case_decide; [subst r | apply H].
  destruct (m !! k) as [u0 |] eqn:Hk; [| discriminate].
  intros [= <-]. simpl. apply H, Hk.
Qed.

Lemma referrerOf_same m m' a a' :
  same_graph m m' -> same_id a a' ->
  opt_same (referrerOf m a) (referrerOf m' a').
Proof.
  intros Hg (_ & _ & Hr). unfold referrerOf. rewrite <- Hr.
  destruct (truthy (referredBy a)); [apply Hg | exact I].
Qed.

Lemma ancestorAt_same level m m' u :
  same_graph m m' ->
  opt_same (ancestorAt level m u) (ancestorAt level m' u).
Proof.
  intros Hg.
  pose proof (referrerOf_same m m' u u Hg (same_id_refl u)) as H1.
  destruct level as [| [| [| [| n]]]]; simpl; try exact I; try exact H1.
  - destruct (referrerOf m u) as [a1 |], (referrerOf m' u) as [a1' |];
      try contradiction; [| exact I].
    apply referrerOf_same; assumption.
  - destruct (referrerOf m u) as [a1 |], (referrerOf m' u) as [a1' |];
      try contradiction; [| exact I].
    pose proof (referrerOf_same m m' a1 a1' Hg H1) as H2.
    destruct (referrerOf m a1) as [a2 |], (referrerOf m' a1') as [a2' |];
      try contradiction; [| exact I].
    apply referrerOf_same; assumption.
Qed.

Lemma referrerOf_lookup m x a :
  ids_consistent m -> referrerOf m x = Some a -> m !! user_id a = Some a.
Proof.
  intros Hids. unfold referrerOf.
  destruct (truthy (referredBy x)); [| discriminate].
  intros H. rewrite (Hids _ _ H). exact H.
Qed.

Lemma ancestorAt_lookup level m u a :
  ids_consistent m -> ancestorAt level m u = Some a ->
  m !! user_id a = Some a.
Proof.
  intros Hids.
  destruct level as [| [| [| [| n]]]]; simpl; try discriminate.
  - apply referrerOf_lookup, Hids.
  - destruct (referrerOf m u); [| discriminate].
    apply referrerOf_lookup, Hids.
  - destruct (referrerOf m u) as [a1 |]; [| discriminate].
    destruct (referrerOf m a1); [| discriminate].
    apply referrerOf_lookup, Hids.
Qed.

Lemma insert_alter_lookup (f : AppUser -> AppUser) k a
    (m : gmap string AppUser) :
  m !! k = Some a -> <[k := f a]> m = alter f k m.
Proof.
  intros H. apply map_eq. intros j. rewrite lookup_insert, lookup_alter.
  case_decide; [| reflexivity]. subst j. rewrite H. reflexivity.
Qed.

(** One payout, in a store whose referral graph is that of [m0]. *)
Lemma payAncestor_spec now u d level s m0 :
  ids_consistent (users s) -> same_graph m0 (users s) ->
  let s' := payAncestor now u d level s in
  let A := ancestorAt level m0 u in
  users s' = creditOf level d A (users s) /\
  transactions s' =
    transactions s ++ transactionsOf now level d (user_id u) A /\
  notifications s' = notifications s ++ notificationsOf now level d A /\
  purchased_products s' = purchased_products s /\
  referral_rewards s' = referral_rewards s /\
  ids_consistent (users s') /\ same_graph m0 (users s').
Proof.
  intros Hids Hg. cbv zeta. unfold payAncestor.
  pose proof (ancestorAt_same level m0 (users s) u Hg) as Hs.
  destruct (ancestorAt level (users s) u) as [a' |] eqn:Ha';
    destruct (ancestorAt level m0 u) as [a |] eqn:Ha;
    try contradiction.
  - destruct Hs as (Hid & Hmail & _).
    unfold payLevel, creditOf, transactionsOf, notificationsOf.
    destruct (bonusAt level d >? 0).
    + simpl. rewrite Hid, Hmail.
      pose proof (ancestorAt_lookup _ _ _ _ Hids Ha') as Hl.
      rewrite (insert_alter_lookup _ _ _ _ Hl).
      repeat split; auto using ids_consistent_alter, same_graph_alter.
    + rewrite !app_nil_r. repeat split; assumption.
  - simpl. rewrite !app_nil_r. repeat split; assumption.
Qed.

Lemma store_eq (s s' : Store) :
  users s' = users s -> transactions s' = transactions s ->
  notifications s' = notifications s ->
  purchased_products s' = purchased_products s ->
  referral_rewards s' = referral_rewards s -> s' = s.
Proof. destruct s, s'; simpl; intros; subst; reflexivity. Qed.

(** The effect of a call that passes the guards, in terms of the ancestors
    found in the store before the call. *)
Lemma deposit_effect now userId d s u :
  ids_consistent (users s) ->
  users s !! userId = Some u -> truthy (referredBy u) = true ->
  countBonuses (default "" (referredBy u)) userId (transactions s) = 0%nat ->
  let A level := ancestorAt level (users s) u in
  exists s',
    processDepositReferralBonus true nofail now userId d s = Ok tt s' /\
    users s' =
      creditOf 3 d (A 3%nat) (creditOf 2 d (A 2%nat)
                                (creditOf 1 d (A 1%nat) (users s))) /\
    transactions s' =
      transactions s ++ transactionsOf now 1 d userId (A 1%nat)
                     ++ transactionsOf now 2 d userId (A 2%nat)
                     ++ transactionsOf now 3 d userId (A 3%nat) /\
    notifications s' =
      notifications s ++ notificationsOf now 1 d (A 1%nat)
                      ++ notificationsOf now 2 d (A 2%nat)
                      ++ notificationsOf now 3 d (A 3%nat) /\
    purchased_products s' = purchased_products s /\
    referral_rewards s' = referral_rewards s /\
    ids_consistent (users s') /\ same_graph (users s) (users s').
Proof.
  intros Hids Hu Ht Hc A. eexists. split; [apply deposit_pays; eassumption |].
  pose proof (Hids _ _ Hu) as Hid.
  destruct (payAncestor_spec now u d 1 s (users s) Hids (same_graph_refl _))
    as (U1 & T1 & N1 & P1 & R1 & I1 & G1).
  destruct (payAncestor_spec now u d 2 _ (users s) I1 G1)
    as (U2 & T2 & N2 & P2 & R2 & I2 & G2).
  destruct (payAncestor_spec now u d 3 _ (users s) I2 G2)
    as (U3 & T3 & N3 & P3 & R3 & I3 & G3).
  rewrite Hid in T1, T2, T3.
  split; [rewrite U3, U2, U1; reflexivity |].
  split; [rewrite T3, T2, T1, <- !app_assoc; reflexivity |].
  split; [rewrite N3, N2, N1, <- !app_assoc; reflexivity |].
  split; [congruence |]. split; [congruence |]. split; assumption.
Qed.

Lemma bonusAt_nearest level d :
  100 * bonusAt level d - 50 <= levelPercent level * d
  < 100 * bonusAt level d + 50.
Proof.
  unfold bonusAt, round_percent.
  pose proof (Z.div_mod (levelPercent level * d + 50) 100 ltac:(lia)).
  pose proof (Z.mod_pos_bound (levelPercent level * d + 50) 100 ltac:(lia)).
  lia.
Qed.

Lemma bonusAt_le_level1 level d :
  (1 <= level <= 3)%nat -> bonusAt 1 d <= 0 -> bonusAt level d <= 0.
Proof.
  intros Hl H1.
  pose proof (bonusAt_nearest 1 d) as B1.
  pose proof (bonusAt_nearest level d) as Bl.
  destruct level as [| [| [| [| n]]]]; simpl in *; lia.
Qed.

Lemma gtb_false_le x : x <= 0 -> (x >? 0) = false.
Proof. intros H. rewrite Z.gtb_ltb. apply Z.ltb_ge. exact H. Qed.

Lemma gtb_true_lt x : 0 < x -> (x >? 0) = true.
Proof. intros H. rewrite Z.gtb_ltb. apply Z.ltb_lt. exact H. Qed.

(** A level whose rounded bonus is not positive changes nothing, whatever
    the store calls do. *)
Lemma processLevel1_skip client fails now user d s :
  bonusAt 1 d <= 0 ->
  processLevel1ReferralBonus client fails now user d s = Ok tt s.
Proof.
  intros Hb. apply gtb_false_le in Hb.
  unfold processLevel1ReferralBonus, bind, getUserById.
  unfold bonusAt in Hb. cbn [levelPercent] in Hb.
  destruct (fails _); [reflexivity |].
  destruct (users s !! _); [| reflexivity].
  rewrite Hb. reflexivity.
Qed.

Lemma processLevel2_skip client fails now user d s :
  bonusAt 2 d <= 0 ->
  processLevel2ReferralBonus client fails now user d s = Ok tt s.
Proof.
  intros Hb. apply gtb_false_le in Hb.
  unfold processLevel2ReferralBonus, bind, getUserById.
  unfold bonusAt in Hb. cbn [levelPercent] in Hb.
  destruct (fails _); [reflexivity |].
  destruct (users s !! _) as [a1 |]; [| reflexivity].
  destruct (negb (truthy (referredBy a1))); [reflexivity |].
  destruct (fails _); [reflexivity |].
  destruct (users s !! _); [| reflexivity].
  rewrite Hb. reflexivity.
Qed.

Lemma processLevel3_skip client fails now user d s :
  bonusAt 3 d <= 0 ->
  processLevel3ReferralBonus client fails now user d s = Ok tt s.
Proof.
  intros Hb. apply gtb_false_le in Hb.
  unfold processLevel3ReferralBonus, bind, getUserById.
  unfold bonusAt in Hb. cbn [levelPercent] in Hb.
  destruct (fails _); [reflexivity |].
  destruct (users s !! _) as [a1 |]; [| reflexivity].
  destruct (negb (truthy (referredBy a1))); [reflexivity |].
  destruct (fails _); [reflexivity |].
  destruct (users s !! _) as [a2 |]; [| reflexivity].
  destruct (negb (truthy (referredBy a2))); [reflexivity |].
  destruct (fails _); [reflexivity |].
  destruct (users s !! _); [| reflexivity].
  rewrite Hb. reflexivity.
Qed.

Lemma deposit_skip client fails now userId d s :
  bonusAt 1 d <= 0 ->
  processDepositReferralBonus client fails now userId d s = Ok tt s.
Proof.
  intros Hb.
  unfold processDepositReferralBonus, try_catch.
  unfold bind at 1. unfold getUserById at 1.
  destruct (fails (GetUser userId)); [reflexivity |].
  destruct (users s !! userId) as [u |]; [| reflexivity].
  destruct (negb (truthy (referredBy u))); [reflexivity |].
  unfold bind at 1.
  assert (Hq : exists l, getTransactionsByUser client fails
                           (default "" (referredBy u)) s = Ok l s).
  { unfold getTransactionsByUser.
    destruct (negb client); [eauto |]. destruct (fails _); eauto. }
  destruct Hq as [l ->].
  destruct (existsb _ l); [reflexivity |].
  unfold bind.
  rewrite processLevel1_skip by exact Hb.
  rewrite processLevel2_skip by (apply bonusAt_le_level1; [lia | exact Hb]).
  rewrite processLevel3_skip by (apply bonusAt_le_level1; [lia | exact Hb]).
  reflexivity.
Qed.

Lemma countBonuses_app r userId (l l' : list Transaction) :
  countBonuses r userId (l ++ l') =
  (countBonuses r userId l + countBonuses r userId l')%nat.
Proof. unfold countBonuses. rewrite filter_app, length_app. reflexivity. Qed.

Lemma ancestorAt_1_None m u level :
  ancestorAt 1 m u = None -> (1 <= level)%nat -> ancestorAt level m u = None.
Proof.
  simpl. intros H Hl.
  destruct level as [| [| [| [| n]]]]; simpl; try reflexivity;
    try lia; rewrite ?H; reflexivity.
Qed.

(** When the level-1 payout does not happen, no level pays. *)
Lemma nothing_paid now userId d m u level (mm : gmap string AppUser) :
  (1 <= level <= 3)%nat ->
  ancestorAt 1 m u = None \/ bonusAt 1 d <= 0 ->
  creditOf level d (ancestorAt level m u) mm = mm /\
  transactionsOf now level d userId (ancestorAt level m u) = [] /\
  notificationsOf now level d (ancestorAt level m u) = [].
Proof.
  intros Hl [Hn | Hb].
  - rewrite (ancestorAt_1_None m u level Hn) by lia. repeat split.
  - unfold creditOf, transactionsOf, notificationsOf.
    destruct (ancestorAt level m u); [| repeat split].
    rewrite (gtb_false_le (bonusAt level d))
      by (apply bonusAt_le_level1; assumption).
    repeat split.
Qed.

Lemma countBonuses_level1 now d userId a :
  0 < bonusAt 1 d ->
  countBonuses (user_id a) userId
    (transactionsOf now 1 d userId (Some a)) = 1%nat.
Proof.
  intros Hb. unfold transactionsOf. rewrite (gtb_true_lt _ Hb).
  unfold countBonuses. rewrite filter_cons, decide_True; [reflexivity |].
  repeat split.
Qed.

Lemma countBonuses_other now level d userId r (a : option AppUser) :
  (forall x, a = Some x -> user_id x <> r) ->
  countBonuses r userId (transactionsOf now level d userId a) = 0%nat.
Proof.
  intros Hne. unfold transactionsOf. destruct a as [x |]; [| reflexivity].
  destruct (bonusAt level d >? 0); [| reflexivity].
  unfold countBonuses. rewrite filter_cons, decide_False; [reflexivity |].
  intros (Hr & _). simpl in Hr. exact (Hne x eq_refl Hr).
Qed.

Lemma deposit_twice now1 now2 userId d s :
  ids_consistent (users s) ->
  exists s1,
    processDepositReferralBonus true nofail now1 userId d s = Ok tt s1 /\
    processDepositReferralBonus true nofail now2 userId d s1 = Ok tt s1 /\
    ids_consistent (users s1).
Proof.
  intros Hids.
  destruct (users s !! userId) as [u |] eqn:Hu.
  2:{ exists s. rewrite !deposit_no_user by exact Hu. auto. }
  destruct (truthy (referredBy u)) eqn:Ht.
  2:{ exists s. rewrite !(deposit_no_referrer _ _ _ _ _ _ u) by assumption.
      auto. }
  set (r1 := default "" (referredBy u)).
  destruct (decide (countBonuses r1 userId (transactions s) = 0%nat))
    as [Hc | Hc].
  2:{ exists s. rewrite !(deposit_already_paid _ _ _ _ u) by assumption.
      auto. }
  destruct (deposit_effect now1 userId d s u Hids Hu Ht Hc)
    as (s1 & E1 & U1 & T1 & N1 & P1 & R1 & I1 & G1).
  exists s1. split; [exact E1 |]. split; [| exact I1].
  pose proof (G1 userId) as Gu. rewrite Hu in Gu.
  destruct (users s1 !! userId) as [u' |] eqn:Hu'; [| contradiction].
  destruct Gu as (_ & _ & Hr).
  destruct (decide (countBonuses r1 userId (transactions s1) = 0%nat))
    as [Hc1 | Hc1].
  - (* nothing was paid by the first call: the store is the same *)
    assert (Hnone : ancestorAt 1 (users s) u = None \/ bonusAt 1 d <= 0).
    { destruct (ancestorAt 1 (users s) u) as [a1 |] eqn:Ha1; [| auto].
      right. destruct (Z_lt_le_dec 0 (bonusAt 1 d)) as [Hpos | Hle];
        [| exact Hle].
      exfalso. rewrite T1, !countBonuses_app in Hc1.
      assert (Hid1 : user_id a1 = r1).
      { simpl in Ha1. unfold referrerOf in Ha1. rewrite Ht in Ha1.
        apply (Hids _ _ Ha1). }
      rewrite <- Hid1 in Hc1.
      rewrite (countBonuses_level1 now1 d userId a1 Hpos) in Hc1. lia. }
    assert (Hs1 : s1 = s).
    { destruct (nothing_paid now1 userId d (users s) u 1 (users s)
                  ltac:(lia) Hnone) as (C1 & X1 & Y1).
      destruct (nothing_paid now1 userId d (users s) u 2 (users s)
                  ltac:(lia) Hnone) as (C2 & X2 & Y2).
      destruct (nothing_paid now1 userId d (users s) u 3 (users s)
                  ltac:(lia) Hnone) as (C3 & X3 & Y3).
      apply store_eq; try assumption.
      - rewrite U1, C1, C2, C3. reflexivity.
      - rewrite T1, X1, X2, X3, !app_nil_r. reflexivity.
      - rewrite N1, Y1, Y2, Y3, !app_nil_r. reflexivity. }
    rewrite Hs1.
    destruct (deposit_effect now2 userId d s u Hids Hu Ht Hc)
      as (s2 & E2 & U2 & T2 & N2 & P2 & R2 & _ & _).
    rewrite E2. f_equal.
    destruct (nothing_paid now2 userId d (users s) u 1 (users s)
                ltac:(lia) Hnone) as (C1 & X1 & Y1).
    destruct (nothing_paid now2 userId d (users s) u 2 (users s)
                ltac:(lia) Hnone) as (C2 & X2 & Y2).
    destruct (nothing_paid now2 userId d (users s) u 3 (users s)
                ltac:(lia) Hnone) as (C3 & X3 & Y3).
    apply store_eq; try assumption.
    + rewrite U2, C1, C2, C3. reflexivity.
    + rewrite T2, X1, X2, X3, !app_nil_r. reflexivity.
    + rewrite N2, Y1, Y2, Y3, !app_nil_r. reflexivity.
  - apply (deposit_already_paid now2 userId d s1 u' Hu').
    + rewrite <- Hr. exact Ht.
    + rewrite <- Hr. exact Hc1.
Qed.

Lemma ids_consistent_chainStore : ids_consistent (users chainStore).
Proof.
  apply (bool_decide_unpack (map_Forall (fun k u => user_id u = k) _)).
  vm_compute. exact I.
Qed.

Lemma ids_consistent_cycleStore : ids_consistent (users cycleStore).
Proof.
  apply (bool_decide_unpack (map_Forall (fun k u => user_id u = k) _)).
  vm_compute. exact I.
Qed.

(** C7 (amended). For a whole deposit amount from 0 to 10^12, a call of
    processDepositReferralBonus that passes its guards (in the browser, no
    store call failing, the user found with a referrer set and no bonus for
    this user in the referrer's log yet) pays every present ancestor whose
    rounded bonus is positive: level 1 gets round(0.19 x depositAmount),
    level 2 round(0.02 x depositAmount), level 3
    round(0.01 x depositAmount), each the nearest whole unit, each by one
    credit, one Referral_Bonus transaction and one notification of its own.
    A level whose ancestor is missing, or whose rounded bonus is not
    positive, is skipped without error and gets no transaction. A deposit
    of 10,000 gives 1,900, 200 and 100. *)
Theorem C7_bonus_amounts (now : Z) (userId : string) (d : Z) (s : Store)
    (u : AppUser)
    (Hd : 0 <= d <= 1000000000000)
    (Hids : ids_consistent (users s))
    (Hu : users s !! userId = Some u)
    (Href : truthy (referredBy u) = true)
    (Hnew : countBonuses (default "" (referredBy u)) userId
              (transactions s) = 0%nat) :
  let A level := ancestorAt level (users s) u in
  (exists s',
    processDepositReferralBonus true nofail now userId d s = Ok tt s' /\
    users s' =
      creditOf 3 d (A 3%nat) (creditOf 2 d (A 2%nat)
                                (creditOf 1 d (A 1%nat) (users s))) /\
    transactions s' =
      transactions s ++ transactionsOf now 1 d userId (A 1%nat)
                     ++ transactionsOf now 2 d userId (A 2%nat)
                     ++ transactionsOf now 3 d userId (A 3%nat) /\
    notifications s' =
      notifications s ++ notificationsOf now 1 d (A 1%nat)
                      ++ notificationsOf now 2 d (A 2%nat)
                      ++ notificationsOf now 3 d (A 3%nat) /\
    purchased_products s' = purchased_products s /\
    referral_rewards s' = referral_rewards s) /\
  (forall level,
      100 * bonusAt level d - 50 <= levelPercent level * d
      < 100 * bonusAt level d + 50) /\
  (levelPercent 1 = 19 /\ levelPercent 2 = 2 /\ levelPercent 3 = 1) /\
  (bonusAt 1 10000 = 1900 /\ bonusAt 2 10000 = 200 /\ bonusAt 3 10000 = 100).
Proof.
  intros A. split; [| split; [| split]].
  - destruct (deposit_effect now userId d s u Hids Hu Href Hnew)
      as (s' & E & U & T & N & P & R & _ & _).
    exists s'. repeat split; assumption.
  - intros level. apply bonusAt_nearest.
  - repeat split.
  - repeat split.
Qed.

Lemma C7_bonus_amounts_witness :
  exists s',
    processDepositReferralBonus true nofail 7 "dave" 10000 chainStore
    = Ok tt s' /\
    transactions s' =
      [ bonusTransaction 7 1 "carol" "carol@example.com" 1900 "dave";
        bonusTransaction 7 2 "bob" "bob@example.com" 200 "dave";
        bonusTransaction 7 3 "alice" "alice@example.com" 100 "dave" ] /\
    balance <$> users s' !! "carol" = Some (Some 1900) /\
    balance <$> users s' !! "bob" = Some (Some 200) /\
    balance <$> users s' !! "alice" = Some (Some 100).
Proof.
  destruct (C7_bonus_amounts 7 "dave" 10000 chainStore
              (plainUser "dave" (Some "carol")) ltac:(lia)
              ids_consistent_chainStore eq_refl eq_refl eq_refl)
    as ((s' & E & U & T & _) & _).
  exists s'. split; [exact E |].
  split; [rewrite T; vm_compute; reflexivity |].
  rewrite U. vm_compute. repeat split.
Defined.

(** C7, as stated, fails for a deposit of 30 with three ancestors present:
    the level-3 bonus rounds to 0, and the level-3 ancestor gets no
    transaction, no notification and no write. *)
Lemma C7_zero_bonus_counterexample :
  ancestorAt 3 (users chainStore) (plainUser "dave" (Some "carol"))
  = Some (plainUser "alice" None) /\
  exists s',
    processDepositReferralBonus true nofail 7 "dave" 30 chainStore
    = Ok tt s' /\
    transactions s' =
      [ bonusTransaction 7 1 "carol" "carol@example.com" 6 "dave";
        bonusTransaction 7 2 "bob" "bob@example.com" 1 "dave" ] /\
    length (notifications s') = 2%nat /\
    users s' !! "alice" = users chainStore !! "alice".
Proof.
  split; [vm_compute; reflexivity |].
  eexists. split; [vm_compute; reflexivity |].
  vm_compute. repeat split.
Qed.

(** C2 (amended). In the browser and with no store call failing, a second
    call of processDepositReferralBonus with the same user and deposit
    amount changes nothing: no balance update, no transaction and no
    notification at any level. When the direct referrer exists, its log has
    no bonus for this user before the first call, the level-1 bonus rounds
    to a positive amount and the ancestors of level 2 and 3 are other users
    than the direct referrer, the referrer's log holds exactly one
    Referral_Bonus transaction for this user after the two calls. *)
Theorem C2_no_double_pay (now1 now2 : Z) (userId : string) (d : Z)
    (s : Store) (Hids : ids_consistent (users s)) :
  exists s1,
    processDepositReferralBonus true nofail now1 userId d s = Ok tt s1 /\
    processDepositReferralBonus true nofail now2 userId d s1 = Ok tt s1 /\
    (forall u a1,
        users s !! userId = Some u -> truthy (referredBy u) = true ->
        ancestorAt 1 (users s) u = Some a1 ->
        countBonuses (user_id a1) userId (transactions s) = 0%nat ->
        0 < bonusAt 1 d ->
        (forall a, ancestorAt 2 (users s) u = Some a ->
                   user_id a <> user_id a1) ->
        (forall a, ancestorAt 3 (users s) u = Some a ->
                   user_id a <> user_id a1) ->
        countBonuses (user_id a1) userId (transactions s1) = 1%nat).
Proof.
  destruct (deposit_twice now1 now2 userId d s Hids) as (s1 & E1 & E2 & _).
  exists s1. split; [exact E1 |]. split; [exact E2 |].
  intros u a1 Hu Ht Ha1 Hc Hpos H2 H3.
  assert (Hid1 : user_id a1 = default "" (referredBy u)).
  { simpl in Ha1. unfold referrerOf in Ha1. rewrite Ht in Ha1.
    apply (Hids _ _ Ha1). }
  pose proof Hc as Hc'. rewrite Hid1 in Hc'.
  destruct (deposit_effect now1 userId d s u Hids Hu Ht Hc')
    as (s1' & E1' & _ & T & _).
  rewrite E1 in E1'. injection E1' as <-.
  rewrite T, !countBonuses_app, Ha1, Hc.
  rewrite (countBonuses_level1 now1 d userId a1 Hpos).
  rewrite (countBonuses_other now1 2 d userId (user_id a1) _ H2).
  rewrite (countBonuses_other now1 3 d userId (user_id a1) _ H3).
  reflexivity.
Qed.

Lemma C2_no_double_pay_witness :
  exists s1,
    processDepositReferralBonus true nofail 7 "dave" 10000 chainStore
    = Ok tt s1 /\
    processDepositReferralBonus true nofail 8 "dave" 10000 s1 = Ok tt s1 /\
    countBonuses "carol" "dave" (transactions s1) = 1%nat.
Proof.
  destruct (C2_no_double_pay 7 8 "dave" 10000 chainStore
              ids_consistent_chainStore) as (s1 & E1 & E2 & Hcount).
  exists s1. split; [exact E1 |]. split; [exact E2 |].
  apply (Hcount (plainUser "dave" (Some "carol"))
                (plainUser "carol" (Some "bob")));
    try reflexivity; try (vm_compute; reflexivity).
  - intros a [= <-]. vm_compute. discriminate.
  - intros a [= <-]. vm_compute. discriminate.
Defined.

(** C2, as stated, fails in two ways. A deposit of 2 rounds to a bonus of
    0 at level 1: after two calls the referrer's log holds no bonus
    transaction for the user. And when two users referred each other, the
    direct referrer is the level-3 ancestor too: one call already leaves two
    bonus transactions for the user in the referrer's log. *)
Lemma C2_exactly_one_counterexample :
  (exists s1 s2,
      processDepositReferralBonus true nofail 7 "dave" 2 chainStore
      = Ok tt s1 /\
      processDepositReferralBonus true nofail 8 "dave" 2 s1 = Ok tt s2 /\
      countBonuses "carol" "dave" (transactions s2) = 0%nat) /\
  (exists s1 s2,
      processDepositReferralBonus true nofail 7 "xavier" 10000 cycleStore
      = Ok tt s1 /\
      processDepositReferralBonus true nofail 8 "xavier" 10000 s1
      = Ok tt s2 /\
      countBonuses "yann" "xavier" (transactions s2) = 2%nat).
Proof.
  split.
  - eexists. eexists. split; [vm_compute; reflexivity |].
    split; [vm_compute; reflexivity |]. vm_compute. reflexivity.
  - eexists. eexists. split; [vm_compute; reflexivity |].
    split; [vm_compute; reflexivity |]. vm_compute. reflexivity.
Qed.

(** C10. A level whose rounded bonus is 0 is skipped: the level function
    returns without error and leaves the store as it was (no balance
    update, no transaction, no notification), whether or not the ancestor
    of that level exists and whatever the store calls do. A deposit amount
    from 0 to 2 rounds to 0 at level 1, and the whole call then changes
    nothing. *)
Theorem C10_zero_bonus_skipped (client : bool) (fails : StoreCall -> bool)
    (now : Z) (user : AppUser) (userId : string) (d : Z) (s : Store) :
  (bonusAt 1 d = 0 ->
   processLevel1ReferralBonus client fails now user d s = Ok tt s) /\
  (bonusAt 2 d = 0 ->
   processLevel2ReferralBonus client fails now user d s = Ok tt s) /\
  (bonusAt 3 d = 0 ->
   processLevel3ReferralBonus client fails now user d s = Ok tt s) /\
  (0 <= d <= 2 ->
   bonusAt 1 d = 0 /\
   processDepositReferralBonus client fails now userId d s = Ok tt s).
Proof.
  split; [| split; [| split]].
  - intros H. apply processLevel1_skip. lia.
  - intros H. apply processLevel2_skip. lia.
  - intros H. apply processLevel3_skip. lia.
  - intros H.
    assert (Hb : bonusAt 1 d = 0).
    { pose proof (bonusAt_nearest 1 d) as B. simpl in B. lia. }
    split; [exact Hb |]. apply deposit_skip. lia.
Qed.

Lemma C10_zero_bonus_skipped_witness :
  processLevel3ReferralBonus true nofail 7
    (plainUser "dave" (Some "carol")) 30 chainStore = Ok tt chainStore /\
  processDepositReferralBonus true nofail 7 "dave" 2 chainStore
  = Ok tt chainStore.
Proof.
  split.
  - apply (proj1 (proj2 (proj2
             (C10_zero_bonus_skipped true nofail 7
                (plainUser "dave" (Some "carol")) "dave" 30 chainStore)))).
    reflexivity.
  - apply (proj2 (proj2 (proj2
             (C10_zero_bonus_skipped true nofail 7
                (plainUser "dave" (Some "carol")) "dave" 2 chainStore)))).
    lia.
Defined.

(** C8 (amended). Within one call of processDepositReferralBonus that
    passes its guards, the three levels run one after the other inside one
    try block whose handler rethrows: an error thrown at level 1 ends the
    call with that error before levels 2 and 3 are attempted; an error
    thrown at level 2 ends it before level 3, with the level-1 payout
    kept; when levels 1 and 2 return, the call ends as level 3 does. *)
Theorem C8_failure_propagates (client : bool) (fails : StoreCall -> bool)
    (now : Z) (userId : string) (d : Z) (s : Store) (u : AppUser)
    (Hread : fails (GetUser userId) = false)
    (Hu : users s !! userId = Some u)
    (Href : truthy (referredBy u) = true)
    (Hnew : countBonuses (default "" (referredBy u)) userId
              (transactions s) = 0%nat) :
  (forall e s1,
      processLevel1ReferralBonus client fails now u d s = Throw e s1 ->
      processDepositReferralBonus client fails now userId d s = Throw e s1) /\
  (forall s1 e s2,
      processLevel1ReferralBonus client fails now u d s = Ok tt s1 ->
      processLevel2ReferralBonus client fails now u d s1 = Throw e s2 ->
      processDepositReferralBonus client fails now userId d s = Throw e s2) /\
  (forall s1 s2,
      processLevel1ReferralBonus client fails now u d s = Ok tt s1 ->
      processLevel2ReferralBonus client fails now u d s1 = Ok tt s2 ->
      processDepositReferralBonus client fails now userId d s =
      processLevel3ReferralBonus client fails now u d s2).
Proof.
  apply alreadyPaid_count in Hnew.
  assert (Hguard :
    processDepositReferralBonus client fails now userId d s =
    try_catch
      (processLevel1ReferralBonus client fails now u d ;;;
       processLevel2ReferralBonus client fails now u d ;;;
       processLevel3ReferralBonus client fails now u d)
      (fun error => throw error) s).
  { unfold processDepositReferralBonus, try_catch.
    unfold bind at 1. unfold getUserById at 1. rewrite Hread, Hu, Href.
    cbn [negb]. unfold bind at 1. unfold getTransactionsByUser.
    destruct (negb client); [reflexivity |].
    destruct (fails GetTransactions); [reflexivity |].
    rewrite Hnew. reflexivity. }
  rewrite Hguard. unfold try_catch, bind, throw.
  split; [| split].
  - intros e s1 ->. reflexivity.
  - intros s1 e s2 -> ->. reflexivity.
  - intros s1 s2 -> ->.
    destruct (processLevel3ReferralBonus client fails now u d s2);
      reflexivity.
Qed.

Lemma C8_failure_propagates_witness :
  processDepositReferralBonus true failCarol 7 "dave" 10000 chainStore
  = Throw (StoreError (SaveUser "carol")) chainStore.
Proof.
  apply (proj1 (C8_failure_propagates true failCarol 7 "dave" 10000
                  chainStore (plainUser "dave" (Some "carol"))
                  eq_refl eq_refl eq_refl eq_refl)).
  vm_compute. reflexivity.
Defined.

(** C8, as stated, fails: when the write of the level-1 referrer's
    document fails, the call ends with that error and the store unchanged,
    although levels 2 and 3, run on their own under the same failures,
    pay 200 and 100. *)
Lemma C8_isolation_counterexample :
  let dave := plainUser "dave" (Some "carol") in
  processDepositReferralBonus true failCarol 7 "dave" 10000 chainStore
  = Throw (StoreError (SaveUser "carol")) chainStore /\
  exists s2 s3,
    processLevel2ReferralBonus true failCarol 7 dave 10000 chainStore
    = Ok tt s2 /\
    processLevel3ReferralBonus true failCarol 7 dave 10000 s2 = Ok tt s3 /\
    tx_amount <$> transactions s3 = [200; 100].
Proof.
  split; [vm_compute; reflexivity |].
  eexists. eexists. split; [vm_compute; reflexivity |].
  split; [vm_compute; reflexivity |]. vm_compute. reflexivity.
Qed.

(** *** Milestone status *)

Lemma loop_spec C V cfg : forall lower st,
  ls_allPreviousClaimed st =
    forallb (fun m' => bool_decide (target m' ∈ C)) lower ->
  ls_milestones (foldl (milestoneStep C V) st cfg) =
  ls_milestones st ++ entries C V lower cfg.
Proof.
  induction cfg as [| m cfg IH]; intros lower st Hall; simpl.
  - rewrite app_nil_r. reflexivity.
  - rewrite (IH (lower ++ [m])).
    + unfold milestoneStep at 1. cbn [ls_milestones].
      rewrite <- app_assoc. do 3 f_equal.
      unfold tierStatus. rewrite Hall. reflexivity.
    + unfold milestoneStep. cbn [ls_allPreviousClaimed].
      rewrite forallb_app. simpl. rewrite andb_true_r, <- Hall.
      destruct (bool_decide (target m ∈ C)), (ls_allPreviousClaimed st);
        reflexivity.
Qed.

Lemma entries_elem C V e : forall cfg lower,
  e ∈ entries C V lower cfg ->
  exists pre m post,
    cfg = pre ++ m :: post /\
    e = mkEntry (m_id m) (target m) (reward m)
                (tierStatus C V (lower ++ pre) m).
Proof.
  induction cfg as [| m cfg IH]; intros lower He; simpl in He.
  - inversion He.
  - apply elem_of_cons in He as [-> | He].
    + exists [], m, cfg. rewrite app_nil_r. split; reflexivity.
    + destruct (IH _ He) as (pre & m' & post & -> & ->).
      exists (m :: pre), m', post. rewrite <- app_assoc. split; reflexivity.
Qed.

Lemma entries_targets C V : forall cfg lower,
  ms_target <$> entries C V lower cfg = target <$> cfg.
Proof.
  induction cfg as [| m cfg IH]; intros lower; simpl; [reflexivity |].
  rewrite IH. reflexivity.
Qed.

Lemma config_sorted :
  StronglySorted (fun a b => target a < target b) getMilestoneConfig.
Proof.
  unfold getMilestoneConfig.
  repeat (apply SSorted_cons;
          [| repeat (apply Forall_cons; split; [simpl; lia |]);
             apply Forall_nil; exact I]).
  apply SSorted_nil.
Qed.

(** In the ladder, the tiers before a tier are the tiers with a strictly
    lower target. *)
Lemma config_lower pre m post m' :
  getMilestoneConfig = pre ++ m :: post ->
  (m' ∈ pre <-> m' ∈ getMilestoneConfig /\ target m' < target m).
Proof.
  intros Hcfg. pose proof config_sorted as Hs. rewrite Hcfg in Hs.
  split.
  - intros Hin. split.
    + rewrite Hcfg. apply elem_of_app. left. exact Hin.
    + apply (StronglySorted_app_1_elem_of _ _ _ _ _ Hs Hin).
      apply elem_of_cons. left. reflexivity.
  - intros [Hin Hlt]. rewrite Hcfg in Hin.
    apply elem_of_app in Hin as [Hin | Hin]; [exact Hin |].
    exfalso. apply StronglySorted_app_1_r in Hs.
    apply elem_of_cons in Hin as [-> | Hin]; [lia |].
    apply StronglySorted_cons in Hs as [Hall _].
    rewrite Forall_forall in Hall. specialize (Hall _ Hin). simpl in Hall.
    lia.
Qed.

Lemma elem_of_claimedTargetsOf s userId t :
  t ∈ claimedTargetsOf (filter (fun r => rw_userId r = userId)
                               (referral_rewards s))
  <-> claimedFor s userId t.
Proof.
  unfold claimedTargetsOf, claimedFor.
  rewrite elem_of_list_to_set, list_elem_of_fmap.
  split.
  - intros (r & -> & Hr). apply list_elem_of_filter in Hr as [Hst Hr].
    apply list_elem_of_filter in Hr as [Hu Hr]. exists r. auto.
  - intros (r & Hr & Hu & Ht & Hst). exists r. split; [auto |].
    apply list_elem_of_filter. split; [exact Hst |].
    apply list_elem_of_filter. split; assumption.
Qed.

Lemma getUserProducts_ok client fails userId s :
  exists l, getUserProducts client fails userId s = Ok l s.
Proof.
  unfold getUserProducts. destruct (negb client); [eauto |].
  destruct (fails GetProducts); eauto.
Qed.

Lemma countValidReferrals_ok client fails s l : forall acc,
  exists v, countValidReferrals client fails l acc s = Ok v s.
Proof.
  induction l as [| u l IH]; intros acc; simpl; [unfold ret; eauto |].
  destruct (negb (hasDeposited u)); [apply IH |].
  unfold bind. destruct (getUserProducts_ok client fails (user_id u) s)
    as [ps ->].
  destruct (0 <? length ps)%nat; apply IH.
Qed.

Lemma getValidReferralCount_cases client fails userId s :
  (exists v, getValidReferralCount client fails userId s = Ok v s) \/
  (exists e, getValidReferralCount client fails userId s = Throw e s).
Proof.
  unfold getValidReferralCount, bind, getDirectReferrals.
  destruct (negb client); [left; unfold ret; simpl; eauto |].
  destruct (fails GetUsers); [right; eauto |]. left.
  destruct (length _ =? 0)%nat; [unfold ret; eauto |].
  apply countValidReferrals_ok.
Qed.

Lemma filter_length_pos {A} (P : A -> Prop) `{!forall x, Decision (P x)}
    (l : list A) :
  (0 < length (filter P l))%nat <-> Exists P l.
Proof.
  induction l as [| x l IH]; simpl.
  - split; [lia | inversion 1].
  - rewrite filter_cons. destruct (decide (P x)) as [Hx | Hx].
    + simpl. split; [intros _; apply Exists_cons_hd, Hx | lia].
    + rewrite IH. split; [apply Exists_cons_tl |].
      intros Hex.
      apply Exists_cons in Hex as [Hex | Hex]; [contradiction | exact Hex].
Qed.

Lemma countValidReferrals_nofail s l : forall acc,
  countValidReferrals true nofail l acc s =
  Ok (acc + Z.of_nat (length (filter (validReferral s) l))) s.
Proof.
  induction l as [| u l IH]; intros acc; simpl.
  - unfold ret. f_equal. lia.
  - rewrite filter_cons.
    destruct (decide (validReferral s u)) as [[Hd Hex] | Hn].
    + rewrite Hd. cbn [negb]. unfold bind, getUserProducts, nofail.
      cbn [negb].
      apply (proj2 (filter_length_pos _ _)) in Hex.
      apply Nat.ltb_lt in Hex.
      rewrite Hex, IH. f_equal. simpl. lia.
    + destruct (hasDeposited u) eqn:Hd; cbn [negb]; [| apply IH].
      unfold bind, getUserProducts, nofail. cbn [negb].
      destruct (0 <? length _)%nat eqn:Hlen; [| apply IH].
      exfalso. apply Hn. split; [exact Hd |].
      apply Nat.ltb_lt in Hlen.
      apply (proj1 (filter_length_pos _ _)) in Hlen. exact Hlen.
Qed.

Lemma getValidReferralCount_nofail userId s :
  getValidReferralCount true nofail userId s =
  Ok (validReferralCount s userId) s.
Proof.
  unfold getValidReferralCount, bind, getDirectReferrals, nofail,
    validReferralCount, directReferrals. simpl.
  destruct (filter _ _) as [| u l] eqn:Hl; [reflexivity |].
  cbn [length Nat.eqb]. rewrite countValidReferrals_nofail. reflexivity.
Qed.

(** The result of [getReferralMilestoneStatus]: the store is left as it
    is; either the empty answer, or the ladder with the status of each
    tier. *)
Lemma status_cases client fails userId s :
  getReferralMilestoneStatus client fails userId s
  = Ok (mkStatus 0 [] None) s \/
  exists V nt,
    getReferralMilestoneStatus client fails userId s =
    Ok (mkStatus V
          (entries
             (claimedTargetsOf (filter (fun r => rw_userId r = userId)
                                       (referral_rewards s)))
             V [] getMilestoneConfig) nt) s /\
    getValidReferralCount client fails userId s = Ok V s /\
    client = true.
Proof.
  unfold getReferralMilestoneStatus.
  destruct client; cbn [negb]; [| left; reflexivity].
  unfold try_catch, bind.
  destruct (getValidReferralCount_cases true fails userId s)
    as [[V HV] | [e He]].
  2:{ rewrite He. left. reflexivity. }
  rewrite HV. unfold getRewardsOf.
  destruct (fails GetRewards); [left; reflexivity |].
  right. eexists V, _. split; [| split; reflexivity].
  unfold ret. do 2 f_equal.
  rewrite (loop_spec _ V getMilestoneConfig [] (mkLoop [] None true) eq_refl).
  reflexivity.
Qed.

Lemma forallb_claimed s userId (l : list Milestone) :
  forallb (fun m' => bool_decide
             (target m' ∈ claimedTargetsOf
                (filter (fun r => rw_userId r = userId)
                        (referral_rewards s)))) l = true
  <-> forall m', m' ∈ l -> claimedFor s userId (target m').
Proof.
  rewrite forallb_forall. split.
  - intros H m' Hin. apply elem_of_claimedTargetsOf.
    apply (bool_decide_unpack _). rewrite (H m'); [exact I |].
    apply list_elem_of_In. exact Hin.
  - intros H m' Hin. apply bool_decide_eq_true_2.
    apply elem_of_claimedTargetsOf. apply H. apply list_elem_of_In. exact Hin.
Qed.

(** The status of a tier of the ladder, in the words of the rule. *)
Lemma tierStatus_rule s userId V pre m post :
  getMilestoneConfig = pre ++ m :: post ->
  let st := tierStatus
              (claimedTargetsOf (filter (fun r => rw_userId r = userId)
                                        (referral_rewards s))) V pre m in
  (st = claimed <-> claimedFor s userId (target m)) /\
  (st = claimable <->
   ~ claimedFor s userId (target m) /\ target m <= V /\
   lowerTiersClaimed s userId (target m)) /\
  (st = locked <->
   ~ claimedFor s userId (target m) /\
   ~ (target m <= V /\ lowerTiersClaimed s userId (target m))).
Proof.
  intros Hcfg. cbv zeta. unfold tierStatus.
  assert (Hlow :
    forallb (fun m' => bool_decide
               (target m' ∈ claimedTargetsOf
                  (filter (fun r => rw_userId r = userId)
                          (referral_rewards s)))) pre = true
    <-> lowerTiersClaimed s userId (target m)).
  { rewrite forallb_claimed. unfold lowerTiersClaimed. split.
    - intros H m' Hin Hlt. apply H. apply (config_lower pre m post m' Hcfg).
      split; assumption.
    - intros H m' Hin.
      apply (config_lower pre m post m' Hcfg) in Hin as [Hin Hlt].
      apply H; assumption. }
  destruct (bool_decide _) eqn:Hc.
  - apply bool_decide_eq_true in Hc. apply elem_of_claimedTargetsOf in Hc.
    split; [tauto |]. split; (split; [discriminate | tauto]).
  - apply bool_decide_eq_false in Hc.
    rewrite elem_of_claimedTargetsOf in Hc.
    destruct (V >=? target m) eqn:Hv.
    + rewrite Z.geb_leb in Hv. apply Z.leb_le in Hv.
      destruct (forallb _ pre) eqn:Hf; simpl.
      * split; [split; [discriminate | tauto] |].
        split; [split; [tauto | reflexivity] |].
        split; [discriminate | tauto].
      * assert (~ lowerTiersClaimed s userId (target m))
          by (rewrite <- Hlow; discriminate).
        split; [split; [discriminate | tauto] |].
        split; [split; [discriminate | tauto] |].
        split; [tauto | reflexivity].
    + rewrite Z.geb_leb in Hv. apply Z.leb_gt in Hv. simpl.
      split; [split; [discriminate | tauto] |].
      split; [split; [discriminate | intros (_ & ? & _); lia] |].
      split; [intros _; split; [exact Hc | intros [? _]; lia] | reflexivity].
Qed.

Lemma status_rule client fails userId s :
  exists r,
    getReferralMilestoneStatus client fails userId s = Ok r s /\
    forall e, e ∈ milestones r ->
      (exists m, m ∈ getMilestoneConfig /\ ms_id e = m_id m /\
                 ms_target e = target m /\ ms_reward e = reward m) /\
      (ms_status e = claimed <-> claimedFor s userId (ms_target e)) /\
      (ms_status e = claimable <->
       ~ claimedFor s userId (ms_target e) /\
       ms_target e <= validReferrals r /\
       lowerTiersClaimed s userId (ms_target e)) /\
      (ms_status e = locked <->
       ~ claimedFor s userId (ms_target e) /\
       ~ (ms_target e <= validReferrals r /\
          lowerTiersClaimed s userId (ms_target e))).
Proof.
  destruct (status_cases client fails userId s) as [E | (V & nt & E & _ & _)].
  - eexists. split; [exact E |]. intros e He. inversion He.
  - eexists. split; [exact E |]. cbn [milestones validReferrals].
    intros e He. apply entries_elem in He as (pre & m & post & Hcfg & ->).
    cbn [ms_id ms_target ms_reward ms_status].
    split.
    + exists m. split; [| auto]. rewrite Hcfg.
      apply elem_of_app. right. apply elem_of_cons. left. reflexivity.
    + apply (tierStatus_rule s userId V pre m post Hcfg).
Qed.

(** C3. getReferralMilestoneStatus leaves the store as it is, and every
    tier it reports is a tier of the ladder with this status: 'claimed'
    exactly when a claimed record for its target exists; otherwise
    'claimable' exactly when the valid referral count reported is at least
    the target and every tier with a strictly lower target is claimed;
    otherwise 'locked'. In the browser and with no store call failing, all
    thirteen tiers are reported, in the order of the ladder, and the count
    reported is the number of direct referrals that have deposited and own
    a purchased product. With 40 valid referrals and the target-5 tier
    unclaimed, the (unclaimed) target-15 tier is 'locked'. *)
Theorem C3_milestone_status (client : bool) (fails : StoreCall -> bool)
    (userId : string) (s : Store) :
  (exists r,
    getReferralMilestoneStatus client fails userId s = Ok r s /\
    (forall e, e ∈ milestones r ->
      (exists m, m ∈ getMilestoneConfig /\ ms_id e = m_id m /\
                 ms_target e = target m /\ ms_reward e = reward m) /\
      (ms_status e = claimed <-> claimedFor s userId (ms_target e)) /\
      (ms_status e = claimable <->
       ~ claimedFor s userId (ms_target e) /\
       ms_target e <= validReferrals r /\
       lowerTiersClaimed s userId (ms_target e)) /\
      (ms_status e = locked <->
       ~ claimedFor s userId (ms_target e) /\
       ~ (ms_target e <= validReferrals r /\
          lowerTiersClaimed s userId (ms_target e)))) /\
    (validReferrals r = 40 ->
     ~ claimedFor s userId 5 -> ~ claimedFor s userId 15 ->
     forall e, e ∈ milestones r -> ms_target e = 15 ->
               ms_status e = locked)) /\
  (exists r0,
    getReferralMilestoneStatus true nofail userId s = Ok r0 s /\
    ms_target <$> milestones r0 = target <$> getMilestoneConfig /\
    validReferrals r0 = validReferralCount s userId).
Proof.
  split.
  - destruct (status_rule client fails userId s) as (r & E & Hrule).
    exists r. split; [exact E |]. split; [exact Hrule |].
    intros HV H5 H15 e He Ht.
    destruct (Hrule e He) as (_ & _ & _ & Hlocked).
    apply Hlocked. rewrite Ht. split; [exact H15 |].
    intros [_ Hlow]. apply H5.
    apply (Hlow (mkMilestone "VIP1" 5 1000)); [| simpl; lia].
    apply elem_of_cons. left. reflexivity.
  - destruct (status_cases true nofail userId s)
      as [E | (V & nt & E & HV & _)].
    + exfalso. unfold getReferralMilestoneStatus, try_catch, bind in E.
      cbn [negb] in E. rewrite getValidReferralCount_nofail in E.
      unfold getRewardsOf, nofail, ret in E. discriminate E.
    + eexists. split; [exact E |]. cbn [milestones validReferrals].
      split; [apply entries_targets |].
      rewrite getValidReferralCount_nofail in HV. congruence.
Qed.

Lemma C3_milestone_status_witness :
  exists r,
    getReferralMilestoneStatus true nofail "root" referralsStore
    = Ok r referralsStore /\
    validReferrals r = 40 /\
    forall e, e ∈ milestones r -> ms_target e = 15 -> ms_status e = locked.
Proof.
  destruct (proj1 (C3_milestone_status true nofail "root" referralsStore))
    as (r & E & _ & Hex).
  assert (HV : validReferrals r = 40).
  { pose proof E as E'. vm_compute in E'. injection E' as <-. reflexivity. }
  exists r. split; [exact E |]. split; [exact HV |].
  apply Hex.
  - exact HV.
  - intros (x & Hx & _). inversion Hx.
  - intros (x & Hx & _). inversion Hx.
Defined.

(** *** Claiming a milestone *)

Lemma find_config_target t milestone :
  find (fun m => bool_decide (target m = t)) getMilestoneConfig
  = Some milestone ->
  milestone ∈ getMilestoneConfig /\ target milestone = t.
Proof.
  intros H. apply find_some in H as [Hin Ht].
  split; [apply list_elem_of_In, Hin | apply bool_decide_eq_true in Ht; exact Ht].
Qed.

(** Every outcome of [claimReferralMilestone]: it never throws; either a
    precondition message with the store unchanged, or the message of the
    handler, or the success message with the three writes done. *)
Lemma claim_outcome client fails now tls userId t s :
  exists r s',
    claimReferralMilestone client fails now tls userId t s = Ok r s' /\
    ((success r = false /\ s' = s /\
      (message r = "Not on client side" \/
       message r = "Invalid milestone" \/
       message r = "Milestone is not claimable yet" \/
       message r = "User not found")) \/
     (success r = false /\
      message r = "Failed to claim reward. Please try again.") \/
     (success r = true /\ client = true /\
      exists milestone u,
        milestone ∈ getMilestoneConfig /\ target milestone = t /\
        users s !! userId = Some u /\
        ~ claimedFor s userId t /\ lowerTiersClaimed s userId t /\
        message r = "Successfully claimed ₦" +:+ tls (reward milestone)
                    +:+ " reward!" /\
        s' = claimedStore now userId u milestone s)).
Proof.
  unfold claimReferralMilestone.
  destruct client; cbn [negb].
  2:{ eexists _, _. split; [reflexivity |]. left. simpl. auto 10. }
  unfold try_catch.
  destruct (find _ getMilestoneConfig) as [milestone |] eqn:Hfind.
  2:{ eexists _, _. split; [reflexivity |]. left. simpl. auto 10. }
  apply find_config_target in Hfind as [Hmin Hmt].
  unfold bind at 1.
  destruct (status_cases true fails userId s)
    as [E | (V & nt & E & HV & _)]; rewrite E; cbn [milestones validReferrals].
  { eexists _, _. split; [reflexivity |]. left. simpl. auto 10. }
  destruct (find _ (entries _ V [] getMilestoneConfig)) as [e |] eqn:He.
  2:{ eexists _, _. split; [reflexivity |]. left. simpl. auto 10. }
  apply find_some in He as [Hein Het].
  apply bool_decide_eq_true in Het. apply list_elem_of_In in Hein.
  pose proof Hein as Hein'.
  apply entries_elem in Hein' as (pre & m & post & Hcfg & Hedef).
  pose proof (tierStatus_rule s userId V pre m post Hcfg) as Hrule.
  cbv zeta in Hrule. destruct Hrule as (_ & Hclaimable & _).
  assert (Hst : ms_status e = tierStatus
                  (claimedTargetsOf (filter (fun r => rw_userId r = userId)
                                            (referral_rewards s))) V pre m)
    by (rewrite Hedef; reflexivity).
  assert (Htm : target m = t) by (rewrite <- Het, Hedef; reflexivity).
  rewrite <- Hst, Htm in Hclaimable.
  destruct (bool_decide (ms_status e = claimable)) eqn:Hc; cbn [negb].
  2:{ eexists _, _. split; [reflexivity |]. left. simpl. auto 10. }
  apply bool_decide_eq_true in Hc.
  apply Hclaimable in Hc as (Hnot & HtV & Hlow).
  replace (V <? t) with false by (symmetry; apply Z.ltb_ge; exact HtV).
  (* no lower tier is reported unclaimed *)
  assert (Hprev :
    existsb (fun m0 => (ms_target m0 <? t) &&
                       negb (bool_decide (ms_status m0 = claimed)))
            (entries (claimedTargetsOf
                        (filter (fun r => rw_userId r = userId)
                                (referral_rewards s)))
                     V [] getMilestoneConfig) = false).
  { apply not_true_is_false. intros Hex.
    apply existsb_exists in Hex as (e' & Hin' & Hcond).
    apply andb_true_iff in Hcond as [Hlt Hncl].
    apply Z.ltb_lt in Hlt. apply negb_true_iff in Hncl.
    apply bool_decide_eq_false in Hncl. apply Hncl.
    apply list_elem_of_In in Hin'.
    apply entries_elem in Hin' as (pre' & m' & post' & Hcfg' & ->).
    cbn [ms_status ms_target] in *.
    apply (tierStatus_rule s userId V pre' m' post' Hcfg').
    apply Hlow; [| exact Hlt].
    rewrite Hcfg'. apply elem_of_app. right. apply elem_of_cons. left.
    reflexivity. }
  rewrite Hprev.
  (* the double check finds no record *)
  unfold bind at 1. unfold getClaimedRecords.
  destruct (fails GetRewards).
  { eexists _, _. split; [reflexivity |]. right. left. simpl. auto 10. }
  destruct (filter (fun r => rw_userId r = userId /\
                            milestoneTarget r = t /\
                            rw_status r = RwClaimed)
                   (referral_rewards s)) as [| r0 l0] eqn:Hchk.
  2:{ exfalso. apply Hnot.
      assert (Hr0 : r0 ∈ filter (fun r => rw_userId r = userId /\
                                           milestoneTarget r = t /\
                                           rw_status r = RwClaimed)
                                (referral_rewards s))
        by (rewrite Hchk; apply elem_of_cons; left; reflexivity).
      apply list_elem_of_filter in Hr0 as [(H1 & H2 & H3) Hin].
      exists r0. auto. }
  cbn [length Nat.eqb negb].
  unfold bind at 1. unfold getUserById.
  destruct (fails (GetUser userId)).
  { eexists _, _. split; [reflexivity |]. left. simpl. auto 10. }
  destruct (users s !! userId) as [u |] eqn:Hu.
  2:{ eexists _, _. split; [reflexivity |]. left. simpl. auto 10. }
  unfold bind at 1. unfold saveUser. cbn [user_id with_balance].
  destruct (fails (SaveUser (user_id u))).
  { eexists _, _. split; [reflexivity |]. right. left. simpl. auto 10. }
  unfold bind at 1. unfold addReward. cbn [rw_userId].
  destruct (fails (AddReward userId)).
  { eexists _, _. split; [reflexivity |]. right. left. simpl. auto 10. }
  unfold bind at 1. unfold createTransaction. cbn [tx_userId].
  destruct (fails (CreateTransaction userId)).
  { eexists _, _. split; [reflexivity |]. right. left. simpl. auto 10. }
  eexists _, _. split; [reflexivity |]. right. right.
  split; [reflexivity |]. split; [reflexivity |].
  exists milestone, u. repeat split; try assumption.
  unfold claimedStore. rewrite Hmt. reflexivity.
Qed.

(** A claim of a tier of the ladder that is claimed already, or that has
    an unclaimed lower tier, is refused with one and the same message. *)
Lemma claim_blocked fails now tls userId t s milestone :
  milestone ∈ getMilestoneConfig -> target milestone = t ->
  claimedFor s userId t \/ ~ lowerTiersClaimed s userId t ->
  claimReferralMilestone true fails now tls userId t s =
  Ok (mkResult false "Milestone is not claimable yet") s.
Proof.
  intros Hmin Hmt Hblocked.
  unfold claimReferralMilestone. cbn [negb]. unfold try_catch.
  destruct (find _ getMilestoneConfig) as [milestone' |] eqn:Hfind.
  2:{ exfalso.
      pose proof (find_none _ _ Hfind milestone
                    (proj1 (list_elem_of_In _ _) Hmin)) as Hno.
      simpl in Hno. rewrite bool_decide_eq_true_2 in Hno by exact Hmt.
      discriminate Hno. }
  unfold bind at 1.
  destruct (status_cases true fails userId s)
    as [E | (V & nt & E & HV & _)]; rewrite E; cbn [milestones validReferrals];
    [reflexivity |].
  destruct (find _ (entries _ V [] getMilestoneConfig)) as [e |] eqn:He;
    [| reflexivity].
  apply find_some in He as [Hein Het].
  apply bool_decide_eq_true in Het. apply list_elem_of_In in Hein.
  apply entries_elem in Hein as (pre & m & post & Hcfg & ->).
  cbn [ms_target ms_status] in *.
  pose proof (tierStatus_rule s userId V pre m post Hcfg) as Hrule.
  cbv zeta in Hrule. destruct Hrule as (_ & Hclaimable & _).
  rewrite Het in Hclaimable.
  destruct (bool_decide _) eqn:Hc; [| reflexivity].
  apply bool_decide_eq_true in Hc. apply Hclaimable in Hc. tauto.
Qed.

Lemma claimedFor_claimedStore now userId u milestone s :
  claimedFor (claimedStore now userId u milestone s) userId
             (target milestone).
Proof.
  exists (mkReward userId (target milestone) (reward milestone) RwClaimed now).
  split; [| repeat split].
  unfold claimedStore. cbn [referral_rewards].
  apply elem_of_app. right. apply elem_of_cons. left. reflexivity.
Qed.

(** C4, on the code. After a successful claim the store holds the credit,
    the claim record and the transaction, once each; a second call with
    the same arguments changes nothing, and its message is "Milestone is
    not claimable yet". A claim of a tier with an unclaimed lower tier is
    refused with the same message. The messages "Milestone already
    claimed" and "Please claim previous milestones first" are never
    returned: the status check before them has refused those calls. *)
Theorem C4_claim_messages (client : bool) (fails : StoreCall -> bool)
    (now1 now2 : Z) (tls : Z -> string) (userId : string) (t : Z)
    (s : Store) :
  (forall msg s1,
      claimReferralMilestone client fails now1 tls userId t s
      = Ok (mkResult true msg) s1 ->
      (exists milestone u,
          milestone ∈ getMilestoneConfig /\ target milestone = t /\
          users s !! userId = Some u /\
          s1 = claimedStore now1 userId u milestone s) /\
      claimReferralMilestone client fails now2 tls userId t s1
      = Ok (mkResult false "Milestone is not claimable yet") s1) /\
  (forall milestone,
      milestone ∈ getMilestoneConfig -> target milestone = t ->
      ~ lowerTiersClaimed s userId t ->
      claimReferralMilestone true fails now1 tls userId t s
      = Ok (mkResult false "Milestone is not claimable yet") s) /\
  (exists r s',
      claimReferralMilestone client fails now1 tls userId t s = Ok r s' /\
      message r <> "Milestone already claimed" /\
      message r <> "Please claim previous milestones first").
Proof.
  destruct (claim_outcome client fails now1 tls userId t s)
    as (r & s' & E & Hcases).
  split; [| split].
  - intros msg s1 E1. rewrite E in E1. injection E1 as -> ->.
    destruct Hcases as [(Hf & _) | [(Hf & _) | (_ & Hcl & Hsucc)]];
      try discriminate Hf.
    destruct Hsucc as (milestone & u & Hmin & Hmt & Hu & _ & _ & _ & ->).
    split; [exists milestone, u; auto |].
    subst client.
    apply (claim_blocked fails now2 tls userId t _ milestone Hmin Hmt).
    left. rewrite <- Hmt. apply claimedFor_claimedStore.
  - intros milestone Hmin Hmt Hlow.
    apply (claim_blocked fails now1 tls userId t s milestone Hmin Hmt).
    right. exact Hlow.
  - exists r, s'. split; [exact E |].
    destruct Hcases as [(_ & _ & Hm) | [(_ & Hm) | (_ & _ & Hsucc)]].
    + destruct Hm as [-> | [-> | [-> | ->]]]; split; discriminate.
    + rewrite Hm. split; discriminate.
    + destruct Hsucc as (milestone & u & _ & _ & _ & _ & _ & -> & _).
      split; discriminate.
Qed.

Lemma C4_claim_messages_witness :
  exists s1,
    claimReferralMilestone true nofail 1 pretty "root" 5 referralsStore
    = Ok (mkResult true "Successfully claimed ₦1000 reward!") s1 /\
    claimReferralMilestone true nofail 2 pretty "root" 5 s1
    = Ok (mkResult false "Milestone is not claimable yet") s1 /\
    claimReferralMilestone true nofail 1 pretty "root" 15 referralsStore
    = Ok (mkResult false "Milestone is not claimable yet") referralsStore /\
    balance <$> users s1 !! "root" = Some (Some 1000).
Proof.
  set (s1 := outcome_store
               (claimReferralMilestone true nofail 1 pretty "root" 5
                  referralsStore)).
  assert (E1 : claimReferralMilestone true nofail 1 pretty "root" 5
                 referralsStore
               = Ok (mkResult true "Successfully claimed ₦1000 reward!") s1)
    by (vm_compute; reflexivity).
  exists s1. split; [exact E1 |]. split; [| split].
  - exact (proj2 (proj1 (C4_claim_messages true nofail 1 2 pretty "root" 5
                           referralsStore) _ _ E1)).
  - apply (proj1 (proj2 (C4_claim_messages true nofail 1 2 pretty "root" 15
                           referralsStore))
             (mkMilestone "VIP2" 15 5000)).
    + apply elem_of_cons. right. apply elem_of_cons. left. reflexivity.
    + reflexivity.
    + intros Hlow.
      destruct (Hlow (mkMilestone "VIP1" 5 1000)) as (x & Hx & _).
      * apply elem_of_cons. left. reflexivity.
      * simpl. lia.
      * inversion Hx.
  - vm_compute. reflexivity.
Defined.

(** *** The payout sweep without store failures, in the browser *)

Lemma addToUserBalance_nofail userId amount s :
  addToUserBalance true nofail userId amount s =
  Ok tt (set_users (creditBalance userId amount) s).
Proof.
  unfold addToUserBalance, try_catch, bind, getUserById, nofail,
    creditBalance. cbn [negb].
  destruct (users s !! userId) as [u |] eqn:Hu.
  - unfold saveUser, set_users. cbn [user_id with_balance]. rewrite Hu.
    reflexivity.
  - unfold ret, set_users. rewrite Hu. destruct s; reflexivity.
Qed.

Lemma hasProduct_elem p s :
  p ∈ purchased_products s -> hasProduct (pp_id p) s = true.
Proof.
  intros Hin. unfold hasProduct. apply existsb_exists. exists p.
  split; [apply list_elem_of_In, Hin | apply String.eqb_refl].
Qed.

Lemma updateProduct_nofail productId patch s :
  hasProduct productId s = true ->
  updateProduct true nofail productId patch s =
  Ok tt (set_purchased_products (patchProducts productId patch) s).
Proof.
  intros H. unfold updateProduct, nofail. cbn [negb orb]. rewrite H.
  reflexivity.
Qed.

Lemma completePlan_nofail now p s :
  hasProduct (pp_id p) s = true ->
  completePlan true nofail now p s = Ok tt (completedStore now p s).
Proof.
  intros H. unfold completePlan. cbn [negb].
  unfold bind. rewrite addToUserBalance_nofail.
  unfold createTransaction, nofail. cbn [tx_userId].
  unfold updateProductStatus. rewrite updateProduct_nofail by exact H.
  unfold completedStore, finalPayout, payoutTransaction.
  destruct (planType p); reflexivity.
Qed.

Lemma processDailyPayout_nofail now p s :
  hasProduct (pp_id p) s = true ->
  processDailyPayout true nofail now p s =
  Ok tt
    (if (now - default (startDate p) (lastPayoutDate p)) / msPerDay >=? 1
     then match planType p with
          | Special => dailyPaidStore now p s
          | _ => dateMarkedStore now p s
          end
     else s).
Proof.
  intros H. unfold processDailyPayout. cbn [negb].
  replace (match lastPayoutDate p with Some d => d | None => startDate p end)
    with (default (startDate p) (lastPayoutDate p))
    by (destruct (lastPayoutDate p); reflexivity).
  destruct (_ >=? 1); [| reflexivity].
  unfold updateProductPayoutDate.
  destruct (planType p); unfold bind.
  - unfold ret. rewrite updateProduct_nofail by exact H. reflexivity.
  - rewrite addToUserBalance_nofail.
    unfold createTransaction, nofail. cbn [tx_userId].
    rewrite updateProduct_nofail by exact H. reflexivity.
  - unfold ret. rewrite updateProduct_nofail by exact H. reflexivity.
Qed.



Lemma patchProducts_elem productId patch p l :
  p ∈ l -> pp_id p = productId -> patch p ∈ patchProducts productId patch l.
Proof.
  intros Hin Hid. unfold patchProducts.
  apply list_elem_of_fmap. exists p. split; [| exact Hin].
  rewrite Hid, String.eqb_refl. reflexivity.
Qed.

Lemma sweepProduct_nofail now p s :
  hasProduct (pp_id p) s = true ->
  sweepProduct true nofail now p s = Ok tt (sweptStore now p s).
Proof.
  intros H. unfold sweepProduct, sweptStore.
  destruct (_ || _); [reflexivity |].
  destruct (now >=? endDate p); [apply completePlan_nofail, H |].
  rewrite processDailyPayout_nofail by exact H. reflexivity.
Qed.

Lemma patchProducts_ids productId patch l :
  (forall q, pp_id (patch q) = pp_id q) ->
  pp_id <$> patchProducts productId patch l = pp_id <$> l.
Proof.
  intros Hp. unfold patchProducts. induction l as [| q l IH]; [reflexivity |].
  cbn [map]. rewrite !fmap_cons. f_equal; [| exact IH].
  destruct (String.eqb (pp_id q) productId); [apply Hp | reflexivity].
Qed.

Lemma sweptStore_ids now p s :
  pp_id <$> purchased_products (sweptStore now p s) =
  pp_id <$> purchased_products s.
Proof.
  unfold sweptStore, completedStore, dailyPaidStore, dateMarkedStore.
  destruct (_ || _); [reflexivity |].
  destruct (now >=? endDate p);
    [apply patchProducts_ids; reflexivity |].
  destruct (_ >=? 1); [| reflexivity].
  destruct (planType p); apply patchProducts_ids; reflexivity.
Qed.

Lemma hasProduct_ids productId s s' :
  pp_id <$> purchased_products s' = pp_id <$> purchased_products s ->
  hasProduct productId s' = hasProduct productId s.
Proof.
  unfold hasProduct. intros H.
  assert (Hg : forall l : list PurchasedProduct,
             existsb (fun p => String.eqb (pp_id p) productId) l =
             existsb (fun i => String.eqb i productId) (pp_id <$> l)).
  { induction l as [| q l IH]; [reflexivity |].
    rewrite fmap_cons. cbn [existsb]. rewrite IH. reflexivity. }
  rewrite !Hg, H. reflexivity.
Qed.

Lemma for_of_sweep now l : forall s,
  (forall p, p ∈ l -> hasProduct (pp_id p) s = true) ->
  for_of l (sweepProduct true nofail now) s =
  Ok tt (foldl (fun s p => sweptStore now p s) s l).
Proof.
  induction l as [| p l IH]; intros s Hall; [reflexivity |].
  simpl. unfold bind.
  rewrite sweepProduct_nofail
    by (apply Hall, elem_of_cons; left; reflexivity).
  apply IH. intros q Hq.
  rewrite (hasProduct_ids _ s) by apply sweptStore_ids.
  apply Hall, elem_of_cons. right. exact Hq.
Qed.

Lemma processDailyPayouts_nofail now s :
  processDailyPayouts true nofail now s =
  Ok tt (foldl (fun s p => sweptStore now p s) s
               (filter (fun p => pp_status p = Active)
                       (purchased_products s))).
Proof.
  unfold processDailyPayouts, try_catch, bind, getAllActiveProducts, nofail.
  cbn [negb]. rewrite for_of_sweep; [reflexivity |].
  intros p Hp. apply list_elem_of_filter in Hp as [_ Hp].
  apply hasProduct_elem, Hp.
Qed.

Lemma sweptStore_transactions now p s :
  transactions (sweptStore now p s) =
  transactions s ++ option_list (sweepTransaction now p).
Proof.
  unfold sweptStore, sweepTransaction, sweepPayout.
  destruct (_ || _); [simpl; rewrite app_nil_r; reflexivity |].
  destruct (now >=? endDate p); [reflexivity |].
  destruct (_ >=? 1); [| simpl; rewrite app_nil_r; reflexivity].
  destruct (planType p); simpl; rewrite ?app_nil_r; reflexivity.
Qed.

Lemma sweptStore_users now p s :
  users (sweptStore now p s) = sweepCredit now (users s) p.
Proof.
  unfold sweptStore, sweepCredit, sweepPayout.
  destruct (_ || _); [reflexivity |].
  destruct (now >=? endDate p); [reflexivity |].
  destruct (_ >=? 1); [| reflexivity].
  destruct (planType p); reflexivity.
Qed.

Lemma sweep_transactions now l : forall s,
  transactions (foldl (fun s p => sweptStore now p s) s l) =
  transactions s ++ omap (sweepTransaction now) l.
Proof.
  induction l as [| p l IH]; intros s; simpl.
  - rewrite app_nil_r. reflexivity.
  - rewrite IH, sweptStore_transactions, <- app_assoc. f_equal.
    destruct (sweepTransaction now p); reflexivity.
Qed.

Lemma sweep_users now l : forall s,
  users (foldl (fun s p => sweptStore now p s) s l) =
  foldl (sweepCredit now) (users s) l.
Proof.
  induction l as [| p l IH]; intros s; simpl; [reflexivity |].
  rewrite IH, sweptStore_users. reflexivity.
Qed.

Lemma patchProducts_inv productId patch l q' :
  q' ∈ patchProducts productId patch l ->
  exists q, q ∈ l /\
    ((q' = q /\ pp_id q <> productId) \/
     (pp_id q = productId /\ q' = patch q)).
Proof.
  unfold patchProducts. intros H.
  apply list_elem_of_In, in_map_iff in H as (q & <- & Hq). exists q.
  split; [apply list_elem_of_In, Hq |].
  destruct (String.eqb (pp_id q) productId) eqn:He.
  - right. apply String.eqb_eq in He. auto.
  - left. apply String.eqb_neq in He. auto.
Qed.

Lemma allCompleted_sweptStore now p productId s :
  allCompleted productId s -> allCompleted productId (sweptStore now p s).
Proof.
  intros Hdone. unfold sweptStore, completedStore, dailyPaidStore,
    dateMarkedStore.
  destruct (_ || _); [exact Hdone |].
  assert (Hpatch : forall patch,
    (forall q, pp_id (patch q) = pp_id q) ->
    (forall q, pp_status q = Completed -> pp_status (patch q) = Completed) ->
    forall q', q' ∈ patchProducts (pp_id p) patch (purchased_products s) ->
               pp_id q' = productId -> pp_status q' = Completed).
  { intros patch Hid Hst q' Hq' Hpid.
    apply patchProducts_inv in Hq' as (q & Hq & [[-> _] | [_ ->]]).
    - apply Hdone; assumption.
    - apply Hst, Hdone; [exact Hq |]. rewrite <- Hid. exact Hpid. }
  destruct (now >=? endDate p).
  { intros q'. apply Hpatch; reflexivity. }
  destruct (_ >=? 1); [| exact Hdone].
  destruct (planType p); intros q'; apply Hpatch; auto.
Qed.

Lemma allCompleted_completedStore now p s :
  allCompleted (pp_id p) (completedStore now p s).
Proof.
  intros q' Hq' Hid. unfold completedStore in Hq'.
  cbn [purchased_products] in Hq'.
  apply patchProducts_inv in Hq' as (q & Hq & [[-> Hne] | [_ ->]]).
  - contradiction.
  - reflexivity.
Qed.

Lemma sweep_completes now p l : forall s,
  p ∈ l -> pp_status p = Active -> startDate p <= now -> endDate p <= now ->
  allCompleted (pp_id p) (foldl (fun s p => sweptStore now p s) s l).
Proof.
  induction l as [| p0 l IH]; intros s Hin Hact Hstart Hend.
  - inversion Hin.
  - simpl. apply elem_of_cons in Hin as [<- | Hin].
    + assert (Hdone : allCompleted (pp_id p) (sweptStore now p s)).
      { unfold sweptStore. rewrite Hact.
        rewrite bool_decide_eq_false_2 by discriminate.
        replace (now <? startDate p) with false
          by (symmetry; apply Z.ltb_ge; exact Hstart).
        replace (now >=? endDate p) with true
          by (symmetry; rewrite Z.geb_leb; apply Z.leb_le; exact Hend).
        apply allCompleted_completedStore. }
      clear IH. revert Hdone. generalize (sweptStore now p s).
      induction l as [| p1 l IHl]; intros s1 Hdone; [exact Hdone |].
      simpl. apply IHl, allCompleted_sweptStore, Hdone.
    + apply IH; assumption.
Qed.

Lemma sweepPayout_expired now p :
  pp_status p = Active -> startDate p <= now -> endDate p <= now ->
  sweepPayout now p = Some (finalPayout p, "Plan completion payout from ").
Proof.
  intros Hact Hs He. unfold sweepPayout. rewrite Hact.
  rewrite bool_decide_eq_false_2 by discriminate.
  replace (now <? startDate p) with false
    by (symmetry; apply Z.ltb_ge; exact Hs).
  replace (now >=? endDate p) with true
    by (symmetry; rewrite Z.geb_leb; apply Z.leb_le; exact He).
  reflexivity.
Qed.

(** C5. For an Active product whose end date has been reached (the start
    date is not after the end date, and the owner's user document
    exists), the product's turn in the sweep credits the owner's balance
    once, appends one transaction and sets the status to Completed; the
    amount of both is totalEarning for a Basic or Premium plan and price
    for a Special plan. After the whole sweep every such product is
    Completed, so no later sweep reads it as Active; the transactions
    added by the sweep are one per product paid, and the credits likewise. *)
Theorem C5_final_payout (now : Z) (s : Store) (p : PurchasedProduct)
    (u : AppUser)
    (Hin : p ∈ purchased_products s)
    (Hact : pp_status p = Active)
    (Hdates : startDate p <= endDate p)
    (Hexp : endDate p <= now)
    (Hu : users s !! pp_userId p = Some u)
    (Hid : user_id u = pp_userId p) :
  (finalPayout p =
   match planType p with
   | Basic => totalEarning p
   | Premium => totalEarning p
   | Special => price p
   end) /\
  (exists s1,
    sweepProduct true nofail now p s = Ok tt s1 /\
    users s1 = <[pp_userId p :=
                   with_balance (or0 (balance u) + finalPayout p) u]>
                 (users s) /\
    transactions s1 =
      transactions s ++
        [mkTx (pp_userId p) "" Investment (finalPayout p) TxCompleted now
              ("Plan completion payout from " +:+ pp_name p) None] /\
    with_status Completed p ∈ purchased_products s1 /\
    allCompleted (pp_id p) s1 /\
    notifications s1 = notifications s /\
    referral_rewards s1 = referral_rewards s) /\
  (exists s',
    processDailyPayouts true nofail now s = Ok tt s' /\
    allCompleted (pp_id p) s' /\
    (forall q, q ∈ filter (fun q => pp_status q = Active)
                          (purchased_products s') ->
               pp_id q <> pp_id p) /\
    transactions s' =
      transactions s ++
        omap (sweepTransaction now)
             (filter (fun q => pp_status q = Active) (purchased_products s)) /\
    users s' =
      foldl (sweepCredit now) (users s)
            (filter (fun q => pp_status q = Active) (purchased_products s)) /\
    sweepPayout now p
    = Some (finalPayout p, "Plan completion payout from ")).
Proof.
  assert (Hstart : startDate p <= now) by lia.
  split; [unfold finalPayout; destruct (planType p); reflexivity |].
  split.
  - exists (sweptStore now p s).
    split; [apply sweepProduct_nofail, hasProduct_elem, Hin |].
    assert (Hsw : sweptStore now p s = completedStore now p s).
    { unfold sweptStore. rewrite Hact.
      rewrite bool_decide_eq_false_2 by discriminate.
      replace (now <? startDate p) with false
        by (symmetry; apply Z.ltb_ge; exact Hstart).
      replace (now >=? endDate p) with true
        by (symmetry; rewrite Z.geb_leb; apply Z.leb_le; exact Hexp).
      reflexivity. }
    rewrite Hsw. unfold completedStore.
    cbn [users transactions purchased_products notifications referral_rewards].
    split; [unfold creditBalance; rewrite Hu, Hid; reflexivity |].
    split; [reflexivity |].
    split; [apply patchProducts_elem; [exact Hin | reflexivity] |].
    split; [apply allCompleted_completedStore |].
    split; reflexivity.
  - eexists. split; [apply processDailyPayouts_nofail |].
    assert (Hdone : allCompleted (pp_id p)
              (foldl (fun s p => sweptStore now p s) s
                     (filter (fun q => pp_status q = Active)
                             (purchased_products s)))).
    { apply sweep_completes; try assumption.
      apply list_elem_of_filter. split; assumption. }
    split; [exact Hdone |].
    split.
    { intros q Hq Heq. apply list_elem_of_filter in Hq as [Hqa Hq].
      rewrite (Hdone q Hq Heq) in Hqa. discriminate Hqa. }
    split; [apply sweep_transactions |].
    split; [apply sweep_users |].
    apply sweepPayout_expired; assumption.
Qed.

Lemma C5_final_payout_witness :
  exists s',
    processDailyPayouts true nofail (365 * msPerDay) productStore
    = Ok tt s' /\
    tx_amount <$> transactions s' = [3000] /\
    balance <$> users s' !! "dave" = Some (Some 3000) /\
    pp_status <$> purchased_products s' = [Completed].
Proof.
  destruct (C5_final_payout (365 * msPerDay) productStore special1
              (plainUser "dave" (Some "carol")))
    as (_ & _ & (s' & E & _ & _ & T & U & _)).
  - apply elem_of_cons. left. reflexivity.
  - reflexivity.
  - vm_compute. discriminate.
  - vm_compute. discriminate.
  - reflexivity.
  - reflexivity.
  - exists s'. split; [exact E |].
    split; [rewrite T; vm_compute; reflexivity |].
    split; [rewrite U; vm_compute; reflexivity |].
    pose proof E as E'. vm_compute in E'. injection E' as <-.
    vm_compute. reflexivity.
Defined.




(** *** The sweep keeps the payout dates well formed *)

Lemma NoDup_ids_eq (l : list PurchasedProduct) p q :
  NoDup (pp_id <$> l) -> p ∈ l -> q ∈ l -> pp_id p = pp_id q -> p = q.
Proof.
  induction l as [| x l IH]; intros Hnd Hp Hq Heq; [inversion Hp |].
  rewrite fmap_cons in Hnd. apply NoDup_cons in Hnd as [Hx Hnd].
  apply elem_of_cons in Hp as [-> | Hp];
    apply elem_of_cons in Hq as [-> | Hq]; try reflexivity.
  - exfalso. apply Hx. rewrite Heq. apply list_elem_of_fmap_2. exact Hq.
  - exfalso. apply Hx. rewrite <- Heq. apply list_elem_of_fmap_2. exact Hp.
  - apply IH; assumption.
Qed.






End LedgerFacts.

(** ** Facts about ProductService: claimed returns and expired products *)

Module ProductFacts.
Import Ledger LedgerFacts.

Lemma find_patchProducts productId patch (l : list PurchasedProduct) :
  (forall q, pp_id (patch q) = pp_id q) ->
  find (fun p => String.eqb (pp_id p) productId)
       (patchProducts productId patch l) =
  patch <$> find (fun p => String.eqb (pp_id p) productId) l.
Proof.
  intros Hid. induction l as [| p l IH]; [reflexivity |].
  cbn [patchProducts map find].
  destruct (String.eqb (pp_id p) productId) eqn:E.
  - rewrite Hid, E. reflexivity.
  - rewrite E. exact IH.
Qed.

Lemma productById_Some productId s p :
  productById productId s = Some p ->
  p ∈ purchased_products s /\ pp_id p = productId.
Proof.
  intros H. apply find_some in H as [Hin Heq].
  split; [apply list_elem_of_In, Hin | apply String.eqb_eq, Heq].
Qed.

Lemma productById_hasProduct productId s p :
  productById productId s = Some p -> hasProduct productId s = true.
Proof.
  intros H. apply productById_Some in H as [Hin <-].
  apply hasProduct_elem, Hin.
Qed.

Lemma productById_NoDup s p :
  NoDup (pp_id <$> purchased_products s) -> p ∈ purchased_products s ->
  productById (pp_id p) s = Some p.
Proof.
  intros Hnd Hin. unfold productById.
  destruct (find _ (purchased_products s)) as [q |] eqn:E.
  - apply (productById_Some (pp_id p) s q) in E as [Hq Hid].
    f_equal. apply (NoDup_ids_eq _ q p Hnd Hq Hin Hid).
  - exfalso. apply list_elem_of_In in Hin.
    pose proof (find_none _ _ E p Hin) as Hno. simpl in Hno.
    rewrite String.eqb_refl in Hno. discriminate.
Qed.

(** Every outcome of [claimReturns]. *)
Lemma claimReturns_outcome client fails now tls userId productId s :
  exists r s',
    claimReturns client fails now tls userId productId s = Ok r s' /\
    ((success r = false /\ s' = s /\
      (refusal (message r) \/ message r = failedMessage)) \/
     (success r = false /\ message r = failedMessage /\
      exists p, productById productId s = Some p /\
                claimableBy now userId p /\
                (s' = returnsMarkedStore now p s \/
                 s' = set_users (raiseBalance userId (totalEarning p))
                                (returnsMarkedStore now p s))) \/
     (success r = true /\ client = true /\
      exists p, productById productId s = Some p /\
                claimableBy now userId p /\
                message r = "Successfully claimed ₦" +:+ tls (totalEarning p)
                            +:+ " returns for " +:+ pp_name p +:+ "!" /\
                s' = returnsClaimedStore now userId p s)).
Proof.
  unfold claimReturns, refusal, failedMessage.
  destruct client; cbn [negb];
    [| do 2 eexists; split; [reflexivity | left; auto 10]].
  unfold try_catch, bind, getProductDoc.
  destruct (fails GetProducts);
    [do 2 eexists; split; [reflexivity | left; auto 10] |].
  fold (productById productId s).
  destruct (productById productId s) as [p |] eqn:Ep;
    [| do 2 eexists; split; [reflexivity | left; auto 10]].
  pose proof (productById_hasProduct _ _ _ Ep) as Hhas.
  pose proof (productById_Some _ _ _ Ep) as [Hin Hid].
  destruct (String.eqb (pp_userId p) userId) eqn:Eown; cbn [negb];
    [| do 2 eexists; split; [reflexivity | left; auto 10]].
  apply String.eqb_eq in Eown.
  destruct (Z.ltb_spec now (endDate p)) as [Hearly | Hended];
    [do 2 eexists; split; [reflexivity | left; auto 10] |].
  destruct (bool_decide (pp_status p = Completed)) eqn:Est;
    [do 2 eexists; split; [reflexivity | left; auto 10] |].
  apply bool_decide_eq_false in Est.
  assert (Hclaim : claimableBy now userId p).
  { split; [exact Eown |]. split; [exact Hended |].
    destruct (pp_status p); [reflexivity | contradiction]. }
  unfold updateProduct. cbn [negb]. rewrite Hhas. cbn [negb].
  rewrite orb_false_r.
  destruct (fails (UpdateProduct productId));
    [do 2 eexists; split; [reflexivity | left; auto 10] |].
  unfold getUserDoc. cbn [users set_purchased_products].
  assert (Hmark : set_purchased_products
                    (map (fun q => if String.eqb (pp_id q) productId
                                   then with_status Completed
                                          (with_lastPayoutDate now q)
                                   else q)) s
                  = returnsMarkedStore now p s).
  { unfold returnsMarkedStore. rewrite Hid. reflexivity. }
  rewrite Hmark.
  destruct (fails (GetUser userId)).
  { do 2 eexists. split; [reflexivity |].
    right; left. split; [reflexivity |]. split; [reflexivity |].
    exists p. auto. }
  unfold updateUserBalance, createTransaction. cbv beta. cbn [tx_userId].
  change (users (returnsMarkedStore now p s)) with (users s).
  destruct (users s !! userId) as [u |] eqn:Eu.
  - destruct (fails (SaveUser userId)).
    { do 2 eexists. split; [reflexivity |].
      right; left. split; [reflexivity |]. split; [reflexivity |].
      exists p. auto. }
    assert (Hcred : set_users
                      (alter (with_balance (or0 (balance u) + totalEarning p))
                             userId) (returnsMarkedStore now p s)
                    = set_users (raiseBalance userId (totalEarning p))
                                (returnsMarkedStore now p s)).
    { unfold set_users, raiseBalance. cbn [users returnsMarkedStore
        set_purchased_products]. rewrite Eu. reflexivity. }
    assert (Hu' : users (returnsMarkedStore now p s) !! userId = Some u)
      by exact Eu.
    rewrite ?Hu'.
    destruct (fails (CreateTransaction userId)).
    { do 2 eexists. split; [reflexivity |].
      right; left. split; [reflexivity |]. split; [reflexivity |].
      exists p. rewrite Hcred. auto. }
    do 2 eexists. split; [reflexivity |].
    right; right. split; [reflexivity |]. split; [reflexivity |].
    exists p. split; [reflexivity |]. split; [exact Hclaim |].
    split; [reflexivity |].
    unfold returnsClaimedStore, raiseBalance. rewrite Eu. reflexivity.
  - destruct (fails (CreateTransaction userId)).
    { do 2 eexists. split; [reflexivity |].
      right; left. split; [reflexivity |]. split; [reflexivity |].
      exists p. auto. }
    do 2 eexists. split; [reflexivity |].
    right; right. split; [reflexivity |]. split; [reflexivity |].
    exists p. split; [reflexivity |]. split; [exact Hclaim |].
    split; [reflexivity |].
    unfold returnsClaimedStore, raiseBalance. rewrite Eu. reflexivity.
Qed.

Lemma not_refusal_failed : ~ refusal failedMessage.
Proof. unfold refusal, failedMessage. intros H. decompose [or] H; discriminate. Qed.

Lemma not_refusal_success tls p :
  ~ refusal ("Successfully claimed ₦" +:+ tls (totalEarning p)
             +:+ " returns for " +:+ pp_name p +:+ "!").
Proof. unfold refusal. intros H. decompose [or] H; discriminate. Qed.

Lemma claimReturns_claimable now tls userId productId s p :
  productById productId s = Some p -> claimableBy now userId p ->
  claimReturns true nofail now tls userId productId s =
  Ok (mkResult true ("Successfully claimed ₦" +:+ tls (totalEarning p)
                     +:+ " returns for " +:+ pp_name p +:+ "!"))
     (returnsClaimedStore now userId p s).
Proof.
  intros Ep (Hown & Hend & Hact).
  pose proof (productById_hasProduct _ _ _ Ep) as Hhas.
  pose proof (productById_Some _ _ _ Ep) as [_ Hid].
  unfold claimReturns, try_catch, bind, getProductDoc. cbn [negb nofail].
  fold (productById productId s). rewrite Ep.
  rewrite (proj2 (String.eqb_eq _ _) Hown). cbn [negb].
  destruct (Z.ltb_spec now (endDate p)); [lia |].
  rewrite bool_decide_eq_false_2 by (rewrite Hact; discriminate).
  rewrite (updateProduct_nofail productId _ s Hhas).
  unfold getUserDoc, updateUserBalance, createTransaction, nofail, ret.
  cbv beta. cbn [users set_purchased_products].
  unfold returnsClaimedStore, raiseBalance. rewrite Hid.
  destruct (users s !! userId) as [u |] eqn:Eu.
  - cbn [users set_purchased_products]. rewrite Eu. reflexivity.
  - reflexivity.
Qed.

Lemma claimReturns_completed now tls userId productId s p :
  productById productId s = Some p -> pp_userId p = userId ->
  endDate p <= now -> pp_status p = Completed ->
  claimReturns true nofail now tls userId productId s =
  Ok (mkResult false "Returns have already been claimed") s.
Proof.
  intros Ep Hown Hend Hdone.
  unfold claimReturns, try_catch, bind, getProductDoc. cbn [negb nofail].
  fold (productById productId s). rewrite Ep.
  rewrite (proj2 (String.eqb_eq _ _) Hown). cbn [negb].
  destruct (Z.ltb_spec now (endDate p)); [lia |].
  rewrite bool_decide_eq_true_2 by exact Hdone. reflexivity.
Qed.

(** No claim succeeds, and none changes the store, when the document with
    that id is Completed. *)
Lemma claimReturns_none client fails now tls userId productId s :
  (forall p, productById productId s = Some p -> pp_status p = Completed) ->
  exists r,
    claimReturns client fails now tls userId productId s = Ok r s /\
    success r = false.
Proof.
  intros Hdone.
  destruct (claimReturns_outcome client fails now tls userId productId s)
    as (r & s' & Hrun & [(Hf & -> & _) | [H | H]]).
  - exists r. auto.
  - destruct H as (_ & _ & p & Ep & (_ & _ & Hact) & _).
    rewrite (Hdone p Ep) in Hact. discriminate.
  - destruct H as (_ & _ & p & Ep & (_ & _ & Hact) & _).
    rewrite (Hdone p Ep) in Hact. discriminate.
Qed.

(** X10. [claimReturns] never throws. A call that answers with one of the
    refusals ("Not on client side", "Product not found", "Unauthorized
    access", "Cycle has not ended yet", "Returns have already been
    claimed") leaves the store exactly as it was, whatever store call may
    fail. A call that reports success found a product document of the
    caller that was Active with its end date reached, and leaves the store
    with that document Completed, the caller's balance raised by the
    product's totalEarning (whatever its plan type) and one Investment
    transaction of that amount. With no store call failing, in the browser,
    every such product is claimed. *)
Theorem X10_claim_returns_outcomes (client : bool)
    (fails : StoreCall -> bool) (now : Z) (tls : Z -> string)
    (userId productId : string) (s : Store) :
  (exists r s',
      claimReturns client fails now tls userId productId s = Ok r s' /\
      (refusal (message r) -> success r = false /\ s' = s) /\
      (success r = true ->
       exists p, productById productId s = Some p /\
                 claimableBy now userId p /\
                 s' = returnsClaimedStore now userId p s)) /\
  (forall p,
      productById productId s = Some p -> claimableBy now userId p ->
      claimReturns true nofail now tls userId productId s =
      Ok (mkResult true ("Successfully claimed ₦" +:+ tls (totalEarning p)
                         +:+ " returns for " +:+ pp_name p +:+ "!"))
         (returnsClaimedStore now userId p s)).
Proof.
  split; [| intros p; apply claimReturns_claimable].
  destruct (claimReturns_outcome client fails now tls userId productId s)
    as (r & s' & Hrun & H).
  exists r, s'. split; [exact Hrun |].
  destruct H as [(Hf & -> & _) | [(Hf & Hmsg & _) | (Ht & _ & p & Ep & Hc & Hmsg & ->)]].
  - split; [auto |]. rewrite Hf. discriminate.
  - split.
    + rewrite Hmsg. intros Hr. destruct (not_refusal_failed Hr).
    + rewrite Hf. discriminate.
  - split.
    + rewrite Hmsg. intros Hr. destruct (not_refusal_success tls p Hr).
    + intros _. exists p. auto.
Qed.

Lemma X10_claim_returns_outcomes_witness :
  claimReturns true nofail (30 * msPerDay) pretty "dave" "b2" basicStore =
  Ok (mkResult true "Successfully claimed ₦35250 returns for Basic 2!")
     (returnsClaimedStore (30 * msPerDay) "dave" basic2 basicStore) /\
  claimReturns true nofail (30 * msPerDay - 1) pretty "dave" "b2" basicStore =
  Ok (mkResult false "Cycle has not ended yet") basicStore.
Proof.
  split.
  - rewrite (proj2 (X10_claim_returns_outcomes true nofail (30 * msPerDay)
                      pretty "dave" "b2" basicStore) basic2).
    + vm_compute. reflexivity.
    + reflexivity.
    + repeat split. vm_compute. discriminate.
  - vm_compute. reflexivity.
Defined.

(** X11. Returns are claimed at most once. After a call of [claimReturns]
    that reported success, every later call for the same product, by any
    user, at any time, in the browser or not, whatever store call may
    fail, reports no success and leaves the store as it is. *)
Theorem X11_returns_claimed_once (client : bool) (fails : StoreCall -> bool)
    (now : Z) (tls : Z -> string) (userId productId : string)
    (s s1 : Store) (msg : string)
    (Hok : claimReturns client fails now tls userId productId s
           = Ok (mkResult true msg) s1) :
  forall client' fails' now' tls' userId',
  exists r,
    claimReturns client' fails' now' tls' userId' productId s1 = Ok r s1 /\
    success r = false.
Proof.
  intros client' fails' now' tls' userId'.
  apply claimReturns_none. intros q Eq.
  destruct (claimReturns_outcome client fails now tls userId productId s)
    as (r & s' & Hrun & H).
  rewrite Hok in Hrun. injection Hrun as <- <-.
  destruct H as [(Hf & _) | [(Hf & _) | (_ & _ & p & Ep & _ & _ & ->)]];
    [discriminate Hf | discriminate Hf |].
  pose proof (productById_Some _ _ _ Ep) as [_ Hid].
  unfold productById, returnsClaimedStore in Eq. cbn [purchased_products] in Eq.
  rewrite Hid, find_patchProducts in Eq by reflexivity.
  fold (productById productId s) in Eq. rewrite Ep in Eq.
  injection Eq as <-. reflexivity.
Qed.

Lemma X11_returns_claimed_once_witness :
  let s1 := returnsClaimedStore (30 * msPerDay) "dave" basic2 basicStore in
  claimReturns true nofail (30 * msPerDay) pretty "dave" "b2" basicStore
  = Ok (mkResult true "Successfully claimed ₦35250 returns for Basic 2!") s1 /\
  (exists r,
      claimReturns true nofail (31 * msPerDay) pretty "dave" "b2" s1
      = Ok r s1 /\ success r = false) /\
  balanceField (users s1) "dave" = 35250.
Proof.
  assert (Hok : claimReturns true nofail (30 * msPerDay) pretty "dave" "b2"
                  basicStore
                = Ok (mkResult true
                        "Successfully claimed ₦35250 returns for Basic 2!")
                     (returnsClaimedStore (30 * msPerDay) "dave" basic2
                                          basicStore))
    by (vm_compute; reflexivity).
  split; [exact Hok |]. split; [| vm_compute; reflexivity].
  apply (X11_returns_claimed_once true nofail (30 * msPerDay) pretty "dave"
           "b2" basicStore _ _ Hok true nofail (31 * msPerDay) pretty "dave").
Defined.

(** X12. [claimReturns] marks the product before it pays. When the write
    of the caller's balance fails (the user document exists, the product
    is claimable, every other store call works), the call answers
    "Failed to claim returns. Please try again." and leaves the product
    Completed, with no balance change and no transaction; every later
    claim, with no failure at all, is then refused with "Returns have
    already been claimed". *)
Theorem X12_failed_balance_write_forfeits_returns (now : Z)
    (tls : Z -> string) (userId productId : string) (s : Store)
    (p : PurchasedProduct) (u : AppUser)
    (Ep : productById productId s = Some p)
    (Hc : claimableBy now userId p)
    (Hu : users s !! userId = Some u) :
  let s1 := returnsMarkedStore now p s in
  claimReturns true (failSaveUser userId) now tls userId productId s =
    Ok (mkResult false failedMessage) s1 /\
  users s1 = users s /\ transactions s1 = transactions s /\
  productById productId s1 = Some (with_claimed now p) /\
  forall now' tls',
    now <= now' ->
    claimReturns true nofail now' tls' userId productId s1 =
    Ok (mkResult false "Returns have already been claimed") s1.
Proof.
  destruct Hc as (Hown & Hend & Hact).
  pose proof (productById_hasProduct _ _ _ Ep) as Hhas.
  pose proof (productById_Some _ _ _ Ep) as [_ Hid].
  assert (E1 : productById productId (returnsMarkedStore now p s)
               = Some (with_claimed now p)).
  { unfold productById, returnsMarkedStore. cbn [purchased_products
      set_purchased_products].
    rewrite Hid, find_patchProducts by reflexivity.
    fold (productById productId s). rewrite Ep. reflexivity. }
  cbv zeta. split; [| split; [reflexivity | split; [reflexivity | split]]].
  - unfold claimReturns, try_catch, bind, getProductDoc.
    cbn [negb failSaveUser].
    fold (productById productId s). rewrite Ep.
    rewrite (proj2 (String.eqb_eq _ _) Hown). cbn [negb].
    destruct (Z.ltb_spec now (endDate p)); [lia |].
    rewrite bool_decide_eq_false_2 by (rewrite Hact; discriminate).
    unfold updateProduct. cbn [negb failSaveUser orb]. rewrite Hhas.
    cbn [negb]. unfold getUserDoc, updateUserBalance. cbv beta.
    cbn [failSaveUser users set_purchased_products].
    rewrite Hu, String.eqb_refl. unfold returnsMarkedStore, failedMessage.
    rewrite Hid. reflexivity.
  - exact E1.
  - intros now' tls' Hlater.
    apply (claimReturns_completed now' tls' userId productId _ _ E1);
      [exact Hown | simpl; lia | reflexivity].
Qed.

Lemma X12_failed_balance_write_forfeits_returns_witness :
  let s1 := returnsMarkedStore (30 * msPerDay) basic2 basicStore in
  claimReturns true (failSaveUser "dave") (30 * msPerDay) pretty "dave" "b2"
    basicStore = Ok (mkResult false failedMessage) s1 /\
  balance <$> users s1 !! "dave" = Some None /\
  claimReturns true nofail (31 * msPerDay) pretty "dave" "b2" s1 =
    Ok (mkResult false "Returns have already been claimed") s1.
Proof.
  pose proof (X12_failed_balance_write_forfeits_returns (30 * msPerDay)
                pretty "dave" "b2" basicStore basic2
                (plainUser "dave" (Some "carol"))) as H.
  cbv zeta in *.
  destruct H as (Hrun & _ & _ & _ & Hlater).
  - reflexivity.
  - repeat split. vm_compute. discriminate.
  - vm_compute. reflexivity.
  - split; [exact Hrun |]. split; [vm_compute; reflexivity |].
    apply Hlater. vm_compute. discriminate.
Defined.

Lemma allCompleted_sweep now productId l : forall s,
  allCompleted productId s ->
  allCompleted productId (foldl (fun s p => sweptStore now p s) s l).
Proof.
  induction l as [| p l IH]; intros s Hs; [exact Hs |].
  simpl. apply IH, allCompleted_sweptStore, Hs.
Qed.

Lemma allCompleted_productById productId s :
  allCompleted productId s ->
  forall p, productById productId s = Some p -> pp_status p = Completed.
Proof.
  intros Hall p Ep. apply productById_Some in Ep as [Hin Hid].
  apply (Hall p Hin Hid).
Qed.

Lemma allCompleted_returnsClaimedStore now userId p s :
  allCompleted (pp_id p) (returnsClaimedStore now userId p s).
Proof.
  intros q Hq Hid. cbn [returnsClaimedStore purchased_products] in Hq.
  apply patchProducts_inv in Hq as (q0 & _ & [[-> Hne] | [_ ->]]).
  - contradiction.
  - reflexivity.
Qed.

(** X13. The payout sweep and [claimReturns] never both pay a product.
    Once the sweep has made the final payout of a product (Active, started
    and ended), every claim for it reports no success and changes nothing;
    and once [claimReturns] has reported success for a product, no later
    sweep reads a document with its id as Active, so the sweep pays
    nothing for it, and the product stays Completed. *)
Theorem X13_sweep_and_claim_exclusive (now : Z) (s : Store) :
  (forall p,
      p ∈ purchased_products s -> pp_status p = Active ->
      startDate p <= now -> endDate p <= now ->
      exists s1,
        sweepProduct true nofail now p s = Ok tt s1 /\
        forall client fails now' tls userId,
        exists r,
          claimReturns client fails now' tls userId (pp_id p) s1 = Ok r s1 /\
          success r = false) /\
  (forall client fails tls userId productId msg s1,
      claimReturns client fails now tls userId productId s
      = Ok (mkResult true msg) s1 ->
      forall now',
      exists s2,
        processDailyPayouts true nofail now' s1 = Ok tt s2 /\
        (forall q, q ∈ filter (fun q => pp_status q = Active)
                              (purchased_products s1) ->
                   pp_id q <> productId) /\
        transactions s2 =
          transactions s1 ++
            omap (sweepTransaction now')
                 (filter (fun q => pp_status q = Active)
                         (purchased_products s1)) /\
        allCompleted productId s2).
Proof.
  split.
  - intros p Hin Hact Hstart Hend.
    exists (completedStore now p s). split.
    + rewrite (sweepProduct_nofail now p s (hasProduct_elem p s Hin)).
      unfold sweptStore.
      rewrite bool_decide_eq_false_2 by (rewrite Hact; discriminate).
      destruct (Z.ltb_spec now (startDate p)); [lia |].
      destruct (Z.geb_spec now (endDate p)); [reflexivity | lia].
    + intros client fails now' tls userId.
      apply claimReturns_none, allCompleted_productById,
        allCompleted_completedStore.
  - intros client fails tls userId productId msg s1 Hok now'.
    destruct (claimReturns_outcome client fails now tls userId productId s)
      as (r & s' & Hrun & H).
    rewrite Hok in Hrun. injection Hrun as <- <-.
    destruct H as [(Hf & _) | [(Hf & _) | (_ & _ & p & Ep & _ & _ & ->)]];
      [discriminate Hf | discriminate Hf |].
    pose proof (productById_Some _ _ _ Ep) as [_ <-].
    pose proof (allCompleted_returnsClaimedStore now userId p s) as Hall.
    eexists. split; [apply processDailyPayouts_nofail |].
    split; [| split].
    + intros q Hq Hid. apply list_elem_of_filter in Hq as [Hact Hq].
      rewrite (Hall q Hq Hid) in Hact. discriminate.
    + apply sweep_transactions.
    + apply allCompleted_sweep, Hall.
Qed.

Lemma X13_sweep_and_claim_exclusive_witness :
  exists s1,
    sweepProduct true nofail (30 * msPerDay) basic2 basicStore = Ok tt s1 /\
    tx_amount <$> transactions s1 = [35250] /\
    exists r,
      claimReturns true nofail (31 * msPerDay) pretty "dave" "b2" s1
      = Ok r s1 /\ success r = false.
Proof.
  destruct (proj1 (X13_sweep_and_claim_exclusive (30 * msPerDay) basicStore)
              basic2) as (s1 & Hrun & Hclaim).
  - apply elem_of_cons. left. reflexivity.
  - reflexivity.
  - vm_compute. discriminate.
  - vm_compute. discriminate.
  - exists s1. split; [exact Hrun |]. split.
    + assert (Hs1 : Ok tt s1 = Ok tt (completedStore (30 * msPerDay) basic2
                                        basicStore)).
      { rewrite <- Hrun. vm_compute. reflexivity. }
      injection Hs1 as ->. vm_compute. reflexivity.
    + apply (Hclaim true nofail (31 * msPerDay) pretty "dave").
Defined.

Lemma resetExpired_nofail now p s :
  hasProduct (pp_id p) s = true ->
  resetExpired true nofail now p s = Ok tt (expiredReset now p s).
Proof.
  intros Hhas. unfold resetExpired, expiredReset.
  destruct ((now >=? endDate p) && bool_decide (pp_status p = Active));
    [| reflexivity].
  apply updateProduct_nofail, Hhas.
Qed.

Lemma expiredReset_ids now p s :
  pp_id <$> purchased_products (expiredReset now p s) =
  pp_id <$> purchased_products s.
Proof.
  unfold expiredReset.
  destruct ((now >=? endDate p) && bool_decide (pp_status p = Active));
    [| reflexivity].
  apply patchProducts_ids. reflexivity.
Qed.

Lemma for_of_reset now l : forall s,
  (forall p, p ∈ l -> hasProduct (pp_id p) s = true) ->
  for_of l (resetExpired true nofail now) s =
  Ok tt (foldl (fun s p => expiredReset now p s) s l).
Proof.
  induction l as [| p l IH]; intros s Hl; [reflexivity |].
  cbn [for_of foldl]. unfold bind.
  rewrite resetExpired_nofail by (apply Hl, elem_of_cons; auto).
  apply IH. intros q Hq.
  rewrite (hasProduct_ids _ _ _ (expiredReset_ids now p s)).
  apply Hl, elem_of_cons. auto.
Qed.

Lemma checkAndReset_nofail now s :
  checkAndResetExpiredProducts true nofail now s =
  Ok tt (foldl (fun s p => expiredReset now p s) s
               (filter (fun p => pp_status p = Active)
                       (purchased_products s))).
Proof.
  unfold checkAndResetExpiredProducts, try_catch, bind, getAllActiveProducts.
  cbn [negb nofail]. rewrite for_of_reset; [reflexivity |].
  intros p Hp. apply list_elem_of_filter in Hp as [_ Hp].
  apply hasProduct_elem, Hp.
Qed.

Lemma same_money_refl s : same_money s s.
Proof. repeat split. Qed.

Lemma same_money_trans s1 s2 s3 :
  same_money s1 s2 -> same_money s2 s3 -> same_money s1 s3.
Proof.
  intros (H1 & H2 & H3 & H4) (H1' & H2' & H3' & H4').
  repeat split; congruence.
Qed.

Lemma resetExpired_money client fails now p s :
  same_money s (outcome_store (resetExpired client fails now p s)).
Proof.
  unfold resetExpired, updateProductStatus, updateProduct.
  destruct ((now >=? endDate p) && bool_decide (pp_status p = Active));
    [| apply same_money_refl].
  destruct (negb client); [apply same_money_refl |].
  destruct (fails (UpdateProduct (pp_id p)) || negb (hasProduct (pp_id p) s));
    [apply same_money_refl | repeat split].
Qed.

Lemma for_of_reset_money client fails now l : forall s,
  same_money s (outcome_store (for_of l (resetExpired client fails now) s)).
Proof.
  induction l as [| p l IH]; intros s; [apply same_money_refl |].
  cbn [for_of]. unfold bind.
  pose proof (resetExpired_money client fails now p s) as H1.
  destruct (resetExpired client fails now p s) as [[] s1 | e s1];
    cbn [outcome_store] in *; [| exact H1].
  eapply same_money_trans; [exact H1 | apply IH].
Qed.

Lemma patchProducts_other productId patch (l : list PurchasedProduct) p :
  p ∈ l -> pp_id p <> productId -> p ∈ patchProducts productId patch l.
Proof.
  intros Hin Hne. unfold patchProducts. apply list_elem_of_fmap.
  exists p. split; [| exact Hin].
  destruct (String.eqb_spec (pp_id p) productId); [contradiction | reflexivity].
Qed.

Lemma expiredReset_provenance now p s q :
  q ∈ purchased_products (expiredReset now p s) ->
  q ∈ purchased_products s \/ pp_status q = Completed.
Proof.
  unfold expiredReset.
  destruct ((now >=? endDate p) && bool_decide (pp_status p = Active));
    [| auto].
  cbn [purchased_products set_purchased_products]. intros Hq.
  apply patchProducts_inv in Hq as (q0 & Hq0 & [[-> _] | [_ ->]]); auto.
Qed.

Lemma reset_provenance now l q : forall s,
  q ∈ purchased_products (foldl (fun s p => expiredReset now p s) s l) ->
  q ∈ purchased_products s \/ pp_status q = Completed.
Proof.
  induction l as [| p l IH]; intros s Hq; [auto |].
  cbn [foldl] in Hq. apply IH in Hq as [Hq | Hq]; [| auto].
  apply (expiredReset_provenance now p s q Hq).
Qed.

Lemma allCompleted_expiredReset now p productId s :
  allCompleted productId s -> allCompleted productId (expiredReset now p s).
Proof.
  intros Hall q Hq Hid.
  apply expiredReset_provenance in Hq as [Hq | Hq]; [| exact Hq].
  apply (Hall q Hq Hid).
Qed.

Lemma allCompleted_reset now productId l : forall s,
  allCompleted productId s ->
  allCompleted productId (foldl (fun s p => expiredReset now p s) s l).
Proof.
  induction l as [| p l IH]; intros s Hs; [exact Hs |].
  cbn [foldl]. apply IH, allCompleted_expiredReset, Hs.
Qed.

Lemma reset_completes now p l : forall s,
  p ∈ l -> pp_status p = Active -> endDate p <= now ->
  allCompleted (pp_id p) (foldl (fun s p => expiredReset now p s) s l).
Proof.
  induction l as [| p' l IH]; intros s Hin Hact Hend.
  - apply elem_of_nil in Hin. contradiction.
  - cbn [foldl]. apply elem_of_cons in Hin as [<- | Hin].
    + apply allCompleted_reset. unfold expiredReset.
      destruct (Z.geb_spec now (endDate p)); [| lia].
      rewrite bool_decide_eq_true_2 by exact Hact. cbn [andb].
      intros q Hq Hid. cbn [purchased_products set_purchased_products] in Hq.
      apply patchProducts_inv in Hq as (q0 & _ & [[-> Hne] | [_ ->]]);
        [contradiction | reflexivity].
    + apply IH; assumption.
Qed.

Lemma reset_keeps now (s0 : Store) p l : forall s,
  NoDup (pp_id <$> purchased_products s0) ->
  p ∈ purchased_products s0 -> now < endDate p ->
  (forall q, q ∈ l -> q ∈ purchased_products s0) ->
  p ∈ purchased_products s ->
  p ∈ purchased_products (foldl (fun s p => expiredReset now p s) s l).
Proof.
  induction l as [| p' l IH]; intros s Hnd Hp0 Hlive Hl Hp; [exact Hp |].
  cbn [foldl]. apply IH; try assumption.
  - intros q Hq. apply Hl, elem_of_cons. auto.
  - unfold expiredReset.
    destruct (Z.geb_spec now (endDate p')); cbn [andb]; [| exact Hp].
    destruct (bool_decide (pp_status p' = Active)); [| exact Hp].
    cbn [purchased_products set_purchased_products].
    apply patchProducts_other; [exact Hp |].
    intros Hid.
    assert (Hp' : p' ∈ purchased_products s0)
      by (apply Hl, elem_of_cons; auto).
    pose proof (NoDup_ids_eq _ p p' Hnd Hp0 Hp' Hid) as ->. lia.
Qed.

Lemma reset_done now s p :
  p ∈ purchased_products s -> pp_status p = Active -> endDate p <= now ->
  allCompleted (pp_id p)
    (foldl (fun s p => expiredReset now p s) s
           (filter (fun p => pp_status p = Active) (purchased_products s))).
Proof.
  intros Hp Hact Hend. apply reset_completes; [| exact Hact | exact Hend].
  apply list_elem_of_filter. auto.
Qed.

Lemma reset_live now s q :
  q ∈ purchased_products
        (foldl (fun s p => expiredReset now p s) s
               (filter (fun p => pp_status p = Active)
                       (purchased_products s))) ->
  pp_status q = Active ->
  now < endDate q /\ q ∈ purchased_products s.
Proof.
  intros Hq Hact.
  destruct (reset_provenance now _ q s Hq) as [Hq0 | Hq0];
    [| rewrite Hq0 in Hact; discriminate].
  split; [| exact Hq0].
  destruct (Z.lt_ge_cases now (endDate q)) as [Hlt | Hge]; [exact Hlt |].
  exfalso.
  assert (Hq' : pp_status q = Completed); [| congruence].
  apply (reset_done now s q Hq0 Hact); [lia | exact Hq | reflexivity].
Qed.

(** X14. [checkAndResetExpiredProducts] forfeits final payouts. Whatever
    store call fails, in the browser or not, it returns without error and
    leaves every user document, the transaction log, the notifications and
    the reward records untouched: it pays nothing. With no call failing,
    every product left Active has its end date ahead, and for each product
    that was Active with its end date reached every document with its id
    is now Completed, so that no later [claimReturns] for it succeeds or
    changes anything, and the payout sweep no longer reads it as Active. *)
Theorem X14_expiry_check_pays_nothing (client : bool)
    (fails : StoreCall -> bool) (now : Z) (s : Store) :
  (exists s',
      checkAndResetExpiredProducts client fails now s = Ok tt s' /\
      same_money s s') /\
  (exists s',
      checkAndResetExpiredProducts true nofail now s = Ok tt s' /\
      (forall q, q ∈ purchased_products s' -> pp_status q = Active ->
                 now < endDate q /\ q ∈ purchased_products s) /\
      (forall p, p ∈ purchased_products s -> pp_status p = Active ->
                 endDate p <= now ->
         allCompleted (pp_id p) s' /\
         (forall q, q ∈ filter (fun q => pp_status q = Active)
                               (purchased_products s') ->
                    pp_id q <> pp_id p) /\
         forall client' fails' now' tls userId,
         exists r,
           claimReturns client' fails' now' tls userId (pp_id p) s' = Ok r s' /\
           success r = false)).
Proof.
  split.
  - unfold checkAndResetExpiredProducts.
    destruct client; cbn [negb];
      [| exists s; split; [reflexivity | apply same_money_refl]].
    unfold try_catch, bind, getAllActiveProducts. cbn [negb].
    set (l := if fails GetProducts then []
              else filter (fun p => pp_status p = Active)
                          (purchased_products s)).
    assert (Hrun : (if fails GetProducts then Ok [] s
                    else Ok (filter (fun p => pp_status p = Active)
                                    (purchased_products s)) s)
                   = Ok l s) by (unfold l; destruct (fails GetProducts);
                                 reflexivity).
    rewrite Hrun.
    pose proof (for_of_reset_money true fails now l s) as Hm.
    destruct (for_of l (resetExpired true fails now) s) as [[] s1 | e s1];
      cbn [outcome_store] in Hm; exists s1; split; auto.
  - eexists. split; [apply checkAndReset_nofail |].
    split; [apply reset_live |].
    + intros p Hp Hact Hend. pose proof (reset_done now s p Hp Hact Hend) as Hall.
      split; [exact Hall |]. split.
      * intros q Hq Hid. apply list_elem_of_filter in Hq as [Hqa Hq].
        rewrite (Hall q Hq Hid) in Hqa. discriminate.
      * intros client' fails' now' tls userId.
        apply claimReturns_none, allCompleted_productById, Hall.
Qed.

Lemma X14_expiry_check_pays_nothing_witness :
  exists s',
    checkAndResetExpiredProducts true nofail (30 * msPerDay) basicStore
    = Ok tt s' /\
    pp_status <$> purchased_products s' = [Completed] /\
    users s' = users basicStore /\ transactions s' = [] /\
    exists r,
      claimReturns true nofail (30 * msPerDay) pretty "dave" "b2" s'
      = Ok r s' /\ success r = false.
Proof.
  destruct (proj2 (X14_expiry_check_pays_nothing true nofail (30 * msPerDay)
                     basicStore)) as (s' & Hrun & _ & Hexp).
  destruct (proj1 (X14_expiry_check_pays_nothing true nofail (30 * msPerDay)
                     basicStore)) as (s'' & Hrun' & Hmoney).
  rewrite Hrun in Hrun'. injection Hrun' as <-.
  destruct (Hexp basic2) as (_ & _ & Hclaim).
  - apply elem_of_cons. left. reflexivity.
  - reflexivity.
  - vm_compute. discriminate.
  - exists s'. split; [exact Hrun |].
    destruct Hmoney as (Hu & Ht & _).
    split; [| split; [exact Hu | split; [exact Ht |]]].
    + assert (Hs : Ok tt s' = checkAndResetExpiredProducts true nofail
                                (30 * msPerDay) basicStore)
        by (symmetry; exact Hrun).
      vm_compute in Hs. injection Hs as ->. reflexivity.
    + apply (Hclaim true nofail (30 * msPerDay) pretty "dave").
Defined.

(** X15. The products listed by [getUserActiveProducts] are not yet
    payable. The call never throws and never changes the store; every
    product it lists is a document of the store that belongs to the user,
    is Active and has its end date ahead, the expiry check leaves it alone,
    and (product ids being distinct) a claim of its returns by its owner at
    that instant is refused with "Cycle has not ended yet". In the browser,
    when the products can be read, the list is exactly the user's Active
    products whose end date is ahead. *)
Theorem X15_active_products_not_yet_payable (client : bool)
    (fails : StoreCall -> bool) (now : Z) (userId : string) (s : Store) :
  exists l,
    getUserActiveProducts client fails now userId s = Ok l s /\
    (forall p, p ∈ l ->
       p ∈ purchased_products s /\ pp_userId p = userId /\
       pp_status p = Active /\ now < endDate p /\
       resetExpired client fails now p s = Ok tt s /\
       (NoDup (pp_id <$> purchased_products s) ->
        forall tls,
          claimReturns true nofail now tls userId (pp_id p) s =
          Ok (mkResult false "Cycle has not ended yet") s)) /\
    (client = true -> fails GetProducts = false ->
     l = filter (fun p => pp_status p = Active /\ now < endDate p)
                (filter (fun p => pp_userId p = userId)
                        (purchased_products s))).
Proof.
  assert (Hlisted : forall p,
            p ∈ filter (fun p => pp_status p = Active /\ now < endDate p)
                       (filter (fun p => pp_userId p = userId)
                               (purchased_products s)) ->
            p ∈ purchased_products s /\ pp_userId p = userId /\
            pp_status p = Active /\ now < endDate p /\
            resetExpired client fails now p s = Ok tt s /\
            (NoDup (pp_id <$> purchased_products s) ->
             forall tls,
               claimReturns true nofail now tls userId (pp_id p) s =
               Ok (mkResult false "Cycle has not ended yet") s)).
  { intros p Hp.
    apply list_elem_of_filter in Hp as [[Hact Hlive] Hp].
    apply list_elem_of_filter in Hp as [Hown Hp].
    repeat (split; [assumption |]). split.
    - unfold resetExpired.
      destruct (Z.geb_spec now (endDate p)); [lia | reflexivity].
    - intros Hnd tls.
      unfold claimReturns, try_catch, bind, getProductDoc. cbn [negb nofail].
      fold (productById (pp_id p) s). rewrite (productById_NoDup s p Hnd Hp).
      rewrite (proj2 (String.eqb_eq _ _) Hown). cbn [negb].
      destruct (Z.ltb_spec now (endDate p)); [reflexivity | lia]. }
  unfold getUserActiveProducts, try_catch, bind, getUserProducts, ret.
  destruct client; cbn [negb].
  - destruct (fails GetProducts).
    + exists []. split; [reflexivity |]. split; [| discriminate].
      intros p Hp. apply elem_of_nil in Hp. contradiction.
    + eexists. split; [reflexivity |]. split; [exact Hlisted | reflexivity].
  - exists []. split; [reflexivity |]. split; [| discriminate].
    intros p Hp. apply elem_of_nil in Hp. contradiction.
Qed.

Lemma X15_active_products_not_yet_payable_witness :
  getUserActiveProducts true nofail (30 * msPerDay - 1) "dave" basicStore
  = Ok [basic2] basicStore /\
  getUserActiveProducts true nofail (30 * msPerDay) "dave" basicStore
  = Ok [] basicStore /\
  claimReturns true nofail (30 * msPerDay - 1) pretty "dave" "b2" basicStore
  = Ok (mkResult false "Cycle has not ended yet") basicStore.
Proof.
  destruct (X15_active_products_not_yet_payable true nofail
              (30 * msPerDay - 1) "dave" basicStore) as (l & Hrun & Hl & Heq).
  assert (Hlist : l = [basic2]).
  { rewrite Heq by reflexivity. vm_compute. reflexivity. }
  subst l. split; [exact Hrun |]. split; [vm_compute; reflexivity |].
  destruct (Hl basic2) as (_ & _ & _ & _ & _ & Hclaim).
  - apply elem_of_cons. left. reflexivity.
  - apply (Hclaim ltac:(vm_compute; repeat constructor; set_solver) pretty).
Defined.

Lemma canAccess_nofail userId s :
  canAccessSpecialPlans true nofail userId s =
  Ok (bool_decide
        (Exists (fun p => pp_userId p = userId /\ planType p = Basic /\
                          pp_status p = Active) (purchased_products s))) s.
Proof.
  unfold canAccessSpecialPlans, try_catch, bind, getUserProducts, ret.
  cbn [negb nofail]. f_equal. apply eq_true_iff_eq.
  rewrite bool_decide_eq_true, existsb_exists, Exists_exists. split.
  - intros (p & Hp & Hb). apply list_elem_of_In in Hp.
    apply list_elem_of_filter in Hp as [Hown Hp].
    apply andb_true_iff in Hb as [Hbasic Hact].
    apply bool_decide_eq_true in Hbasic, Hact. exists p. auto.
  - intros (p & Hp & Hown & Hbasic & Hact).
    exists p. split.
    + apply list_elem_of_In, list_elem_of_filter. auto.
    + rewrite !bool_decide_eq_true_2 by assumption. reflexivity.
Qed.

(** X16. Access to the Special and Premium plans lapses with the Basic
    plan. [canAccessSpecialPlans] never throws, never changes the store,
    and answers true only if the user owns a product document that is
    Basic and Active (never on the server, never when the products cannot
    be read). Called after the expiry check, as the dashboard does when it
    loads the products, with no store call failing and product ids
    distinct, it answers true exactly when the user owns an Active Basic
    product whose end date is ahead. *)
Theorem X16_access_lapses_with_basic_plan (client : bool)
    (fails : StoreCall -> bool) (now : Z) (userId : string) (s : Store) :
  (exists b,
      canAccessSpecialPlans client fails userId s = Ok b s /\
      (b = true ->
       client = true /\ fails GetProducts = false /\
       exists p, p ∈ purchased_products s /\ pp_userId p = userId /\
                 planType p = Basic /\ pp_status p = Active)) /\
  (NoDup (pp_id <$> purchased_products s) ->
   exists s',
     checkAndResetExpiredProducts true nofail now s = Ok tt s' /\
     canAccessSpecialPlans true nofail userId s' =
     Ok (bool_decide (Exists (liveBasic now userId) (purchased_products s)))
        s').
Proof.
  split.
  - unfold canAccessSpecialPlans, try_catch, bind, getUserProducts, ret.
    destruct client; cbn [negb];
      [| exists false; split; [reflexivity | discriminate]].
    destruct (fails GetProducts);
      [exists false; split; [reflexivity | discriminate] |].
    eexists. split; [reflexivity |].
    intros Hb. split; [reflexivity |]. split; [reflexivity |].
    apply existsb_exists in Hb as (p & Hp & Hb).
    apply list_elem_of_In, list_elem_of_filter in Hp as [Hown Hp].
    apply andb_true_iff in Hb as [Hbasic Hact].
    apply bool_decide_eq_true in Hbasic, Hact. exists p. auto.
  - intros Hnd.
    eexists. split; [apply checkAndReset_nofail |].
    rewrite canAccess_nofail. f_equal. apply eq_true_iff_eq.
    rewrite !bool_decide_eq_true, !Exists_exists. split.
    + intros (p & Hp & Hown & Hbasic & Hact).
      destruct (reset_live now s p Hp Hact) as [Hahead Hp0].
      exists p. unfold liveBasic. auto.
    + intros (p & Hp & Hown & Hbasic & Hact & Hahead).
      exists p. split; [| auto].
      apply (reset_keeps now s p); try assumption.
      intros q Hq. apply list_elem_of_filter in Hq as [_ Hq]. exact Hq.
Qed.

Lemma X16_access_lapses_with_basic_plan_witness :
  canAccessSpecialPlans true nofail "dave" basicStore = Ok true basicStore /\
  (exists s',
      checkAndResetExpiredProducts true nofail (30 * msPerDay - 1) basicStore
      = Ok tt s' /\
      canAccessSpecialPlans true nofail "dave" s' = Ok true s') /\
  (exists s',
      checkAndResetExpiredProducts true nofail (30 * msPerDay) basicStore
      = Ok tt s' /\
      canAccessSpecialPlans true nofail "dave" s' = Ok false s').
Proof.
  assert (Hnd : NoDup (pp_id <$> purchased_products basicStore))
    by (vm_compute; repeat constructor; set_solver).
  split; [vm_compute; reflexivity |]. split.
  - destruct (proj2 (X16_access_lapses_with_basic_plan true nofail
                       (30 * msPerDay - 1) "dave" basicStore) Hnd)
      as (s' & Hrun & Hacc).
    exists s'. split; [exact Hrun |]. rewrite Hacc. f_equal.
  - destruct (proj2 (X16_access_lapses_with_basic_plan true nofail
                       (30 * msPerDay) "dave" basicStore) Hnd)
      as (s' & Hrun & Hacc).
    exists s'. split; [exact Hrun |]. rewrite Hacc. f_equal.
Defined.

Lemma loggedFor_app r (l l' : list Transaction) :
  loggedFor r (l ++ l') = loggedFor r l + loggedFor r l'.
Proof.
  unfold loggedFor. rewrite filter_app, foldr_app.
  induction (filter (fun t => tx_userId t = r) l) as [| t k IH];
    [cbn; lia |].
  cbn [foldr]. rewrite IH. lia.
Qed.

Lemma loggedFor_sweep now p r :
  loggedFor r (option_list (sweepTransaction now p)) = sweepPaidTo now p r.
Proof.
  unfold sweepTransaction, sweepPaidTo, loggedFor.
  destruct (sweepPayout now p) as [aw |]; [| reflexivity].
  change (option_list ((fun aw => payoutTransaction now p aw.1 aw.2)
                         <$> Some aw))
    with [payoutTransaction now p aw.1 aw.2].
  destruct (decide (pp_userId p = r)) as [E | E].
  - rewrite filter_cons_True, filter_nil, bool_decide_eq_true_2 by exact E.
    cbn. lia.
  - rewrite filter_cons_False, filter_nil, bool_decide_eq_false_2 by exact E.
    reflexivity.
Qed.

Lemma sweepCredit_step now (m : gmap string AppUser) p :
  ids_consistent m ->
  ids_consistent (sweepCredit now m p) /\
  forall r,
    (is_Some (sweepCredit now m p !! r) <-> is_Some (m !! r)) /\
    (is_Some (m !! r) ->
     balanceField (sweepCredit now m p) r =
     balanceField m r + sweepPaidTo now p r).
Proof.
  intros Hids. unfold sweepCredit, sweepPaidTo, creditBalance.
  destruct (sweepPayout now p) as [aw |];
    [| split; [exact Hids | intros r; split; [reflexivity | lia]]].
  destruct (m !! pp_userId p) as [u |] eqn:Hu.
  - pose proof (Hids _ _ Hu) as Hid. rewrite Hid. split.
    + intros k x Hk. destruct (decide (k = pp_userId p)) as [-> | Hne].
      * rewrite lookup_insert_eq in Hk. injection Hk as <-. exact Hid.
      * rewrite lookup_insert_ne in Hk by congruence. apply (Hids _ _ Hk).
    + intros r. unfold balanceField.
      destruct (decide (pp_userId p = r)) as [<- | Hne].
      * rewrite lookup_insert_eq, Hu, bool_decide_eq_true_2 by reflexivity.
        split; [split; intros _; eexists; reflexivity |].
        intros _. reflexivity.
      * rewrite lookup_insert_ne, bool_decide_eq_false_2 by congruence.
        split; [reflexivity | intros _; lia].
  - split; [exact Hids |]. intros r. split; [reflexivity |].
    intros [x Hx].
    rewrite bool_decide_eq_false_2 by (intros <-; congruence). lia.
Qed.

Lemma sweepCredit_fold now l : forall m : gmap string AppUser,
  ids_consistent m ->
  ids_consistent (foldl (sweepCredit now) m l) /\
  forall r,
    (is_Some (foldl (sweepCredit now) m l !! r) <-> is_Some (m !! r)) /\
    (is_Some (m !! r) ->
     balanceField (foldl (sweepCredit now) m l) r =
     balanceField m r + loggedFor r (omap (sweepTransaction now) l)).
Proof.
  induction l as [| p l IH]; intros m Hids.
  - split; [exact Hids |]. intros r. split; [reflexivity |].
    intros _. cbn. unfold loggedFor. cbn. lia.
  - cbn [foldl].
    destruct (sweepCredit_step now m p Hids) as [Hids1 Hstep].
    destruct (IH _ Hids1) as [Hids2 Hrest].
    split; [exact Hids2 |]. intros r.
    destruct (Hstep r) as [Hk1 Hb1]. destruct (Hrest r) as [Hk2 Hb2].
    split; [rewrite Hk2; exact Hk1 |].
    intros Hr. rewrite Hb2 by (apply Hk1; exact Hr). rewrite Hb1 by exact Hr.
    replace (omap (sweepTransaction now) (p :: l))
      with (option_list (sweepTransaction now p)
              ++ omap (sweepTransaction now) l)
      by (cbn; destruct (sweepTransaction now p); reflexivity).
    rewrite loggedFor_app, loggedFor_sweep. lia.
Qed.

(** X25. The payout sweep logs what it credits. With no store call
    failing and user documents carrying their key as id,
    [processDailyPayouts] leaves the user documents with their ids, creates
    and deletes none, and raises the balance of every stored user by
    exactly the sum of the amounts of the transactions it adds for that
    user. For an owner without user document the transaction is logged all
    the same and no balance is credited. *)
Theorem X25_sweep_credits_are_logged (now : Z) (s : Store)
    (Hids : ids_consistent (users s)) :
  exists s',
    processDailyPayouts true nofail now s = Ok tt s' /\
    ids_consistent (users s') /\
    transactions s' =
      transactions s ++
        omap (sweepTransaction now)
             (filter (fun q => pp_status q = Active) (purchased_products s)) /\
    forall r,
      (is_Some (users s' !! r) <-> is_Some (users s !! r)) /\
      (is_Some (users s !! r) ->
       balanceField (users s') r =
       balanceField (users s) r +
       (loggedFor r (transactions s') - loggedFor r (transactions s))).
Proof.
  eexists. split; [apply processDailyPayouts_nofail |].
  rewrite sweep_users, sweep_transactions.
  destruct (sweepCredit_fold now
              (filter (fun q => pp_status q = Active) (purchased_products s))
              (users s) Hids) as [Hids' Hr].
  split; [exact Hids' |]. split; [reflexivity |].
  intros r. destruct (Hr r) as [Hk Hb]. split; [exact Hk |].
  intros Hsome. rewrite (Hb Hsome), loggedFor_app. lia.
Qed.

Lemma X25_sweep_credits_are_logged_witness :
  (exists s',
      processDailyPayouts true nofail (365 * msPerDay) productStore
      = Ok tt s' /\
      balanceField (users s') "dave" = 3000 /\
      loggedFor "dave" (transactions s') = 3000) /\
  (exists s',
      processDailyPayouts true nofail (365 * msPerDay) orphanStore
      = Ok tt s' /\
      users s' !! "dave" = None /\
      loggedFor "dave" (transactions s') = 3000).
Proof.
  split.
  - destruct (X25_sweep_credits_are_logged (365 * msPerDay) productStore
                ids_consistent_chainStore) as (s' & Hrun & _ & Htx & Hr).
    exists s'. split; [exact Hrun |].
    destruct (Hr "dave") as [_ Hb].
    assert (Hlog : loggedFor "dave" (transactions s') = 3000)
      by (rewrite Htx; vm_compute; reflexivity).
    split; [| exact Hlog].
    rewrite Hb by (eexists; reflexivity). rewrite Hlog. reflexivity.
  - eexists. split; [vm_compute; reflexivity |]. split; reflexivity.
Defined.

Lemma patchProducts_id productId (l : list PurchasedProduct) :
  patchProducts productId (fun q => q) l = l.
Proof.
  unfold patchProducts. induction l as [| q l IH]; [reflexivity |].
  cbn [map]. rewrite IH. destruct (String.eqb (pp_id q) productId); reflexivity.
Qed.

Lemma sweptStore_products now p s :
  purchased_products (sweptStore now p s) =
  patchProducts (pp_id p) (sweepPatch now p) (purchased_products s).
Proof.
  unfold sweptStore, sweepPatch.
  destruct (bool_decide (pp_status p = Completed) || (now <? startDate p));
    [rewrite patchProducts_id; reflexivity |].
  destruct (now >=? endDate p); [reflexivity |].
  destruct ((now - default (startDate p) (lastPayoutDate p)) / msPerDay >=? 1);
    [| rewrite patchProducts_id; reflexivity].
  destruct (planType p); reflexivity.
Qed.

Lemma sweepPatch_idem now p q :
  sweepPatch now p (sweepPatch now p q) = sweepPatch now p q.
Proof.
  unfold sweepPatch.
  destruct (bool_decide (pp_status p = Completed) || (now <? startDate p));
    [reflexivity |].
  destruct (now >=? endDate p); [reflexivity |].
  destruct ((now - default (startDate p) (lastPayoutDate p)) / msPerDay >=? 1);
    reflexivity.
Qed.

Lemma sweepPatch_id now p q : pp_id (sweepPatch now p q) = pp_id q.
Proof.
  unfold sweepPatch.
  destruct (bool_decide (pp_status p = Completed) || (now <? startDate p));
    [reflexivity |].
  destruct (now >=? endDate p); [reflexivity |].
  destruct ((now - default (startDate p) (lastPayoutDate p)) / msPerDay >=? 1);
    reflexivity.
Qed.

(** A document that one sweep has treated is left alone by a sweep at the
    same instant. *)
Lemma sweptStore_sweptDoc now p s : sweptStore now (sweptDoc now p) s = s.
Proof.
  unfold sweptDoc, sweepPatch, sweptStore.
  destruct (bool_decide (pp_status p = Completed)) eqn:Hst; cbn [orb].
  { rewrite Hst. reflexivity. }
  destruct (Z.ltb_spec now (startDate p)) as [Hearly | Hstarted].
  { rewrite Hst. cbn [orb].
    destruct (Z.ltb_spec now (startDate p)); [reflexivity | lia]. }
  destruct (Z.geb_spec now (endDate p)) as [Hended | Hlive].
  { reflexivity. }
  destruct (Z.geb_spec ((now - default (startDate p) (lastPayoutDate p))
                        / msPerDay) 1) as [Hdue | Hnot].
  - cbn [with_lastPayoutDate pp_status startDate endDate lastPayoutDate].
    rewrite Hst. cbn [orb].
    destruct (Z.ltb_spec now (startDate p)); [lia |].
    destruct (Z.geb_spec now (endDate p)); [lia |].
    change (default (startDate p) (Some now)) with now.
    rewrite Z.sub_diag. reflexivity.
  - rewrite Hst. cbn [orb].
    destruct (Z.ltb_spec now (startDate p)); [lia |].
    destruct (Z.geb_spec now (endDate p)); [lia |].
    destruct (Z.geb_spec ((now - default (startDate p) (lastPayoutDate p))
                          / msPerDay) 1); [lia | reflexivity].
Qed.

Lemma sweeping_step now s0 p todo s :
  NoDup (pp_id <$> purchased_products s0) ->
  p ∈ purchased_products s0 ->
  sweeping now s0 (p :: todo) s -> sweeping now s0 todo (sweptStore now p s).
Proof.
  intros Hnd Hp Hinv q' Hq'. rewrite sweptStore_products in Hq'.
  apply patchProducts_inv in Hq' as (q & Hq & Hcase).
  destruct (Hinv q Hq) as (q0 & Hq0 & Hid & Hq0case).
  destruct Hcase as [[-> Hne] | [Hsame ->]].
  - exists q0. split; [exact Hq0 |]. split; [exact Hid |].
    destruct Hq0case as [[-> Htodo] | ->]; [| auto].
    left. split; [reflexivity |]. intros Hact.
    apply Htodo, elem_of_cons in Hact as [-> | Hin]; [contradiction | exact Hin].
  - assert (q0 = p) as ->
      by (apply (NoDup_ids_eq _ q0 p Hnd Hq0 Hp); congruence).
    exists p. split; [exact Hp |].
    split; [rewrite sweepPatch_id; exact Hid |]. right.
    destruct Hq0case as [[-> _] | ->]; [reflexivity |].
    apply sweepPatch_idem.
Qed.

Lemma sweeping_fold now s0 todo : forall s,
  NoDup (pp_id <$> purchased_products s0) ->
  (forall p, p ∈ todo -> p ∈ purchased_products s0) ->
  sweeping now s0 todo s ->
  sweeping now s0 [] (foldl (fun s p => sweptStore now p s) s todo).
Proof.
  induction todo as [| p todo IH]; intros s Hnd Htodo Hinv; [exact Hinv |].
  cbn [foldl]. apply IH; [exact Hnd | |].
  - intros q Hq. apply Htodo, elem_of_cons. auto.
  - apply sweeping_step; [exact Hnd | | exact Hinv].
    apply Htodo, elem_of_cons. auto.
Qed.

Lemma sweep_noop now l : forall s,
  (forall q, q ∈ l -> exists q0, q = sweptDoc now q0) ->
  foldl (fun s p => sweptStore now p s) s l = s.
Proof.
  induction l as [| q l IH]; intros s Hl; [reflexivity |].
  cbn [foldl]. destruct (Hl q) as (q0 & ->); [apply elem_of_cons; auto |].
  rewrite sweptStore_sweptDoc. apply IH.
  intros q' Hq'. apply Hl, elem_of_cons. auto.
Qed.

(** X26. A second payout sweep at the same instant does nothing. With no
    store call failing and product ids distinct, after
    [processDailyPayouts] every product document is the document of the
    store before, treated once by the sweep (completed, or payout date
    set, or left as it was), and a second [processDailyPayouts] at the same
    instant leaves the whole store (balances, transactions, products) as
    the first one left it. *)
Theorem X26_sweep_twice_same_instant (now : Z) (s : Store)
    (Hnd : NoDup (pp_id <$> purchased_products s)) :
  exists s1,
    processDailyPayouts true nofail now s = Ok tt s1 /\
    (forall q, q ∈ purchased_products s1 ->
       exists q0, q0 ∈ purchased_products s /\ q = sweptDoc now q0) /\
    processDailyPayouts true nofail now s1 = Ok tt s1.
Proof.
  eexists. split; [apply processDailyPayouts_nofail |].
  set (l := filter (fun p => pp_status p = Active) (purchased_products s)).
  assert (Hdocs : forall q,
            q ∈ purchased_products (foldl (fun s p => sweptStore now p s) s l)
            -> exists q0, q0 ∈ purchased_products s /\ q = sweptDoc now q0).
  { intros q Hq.
    destruct (sweeping_fold now s l s Hnd) with (q := q)
      as (q0 & Hq0 & _ & [[-> Hdone] | ->]); try assumption.
    - intros p Hp. apply list_elem_of_filter in Hp as [_ Hp]. exact Hp.
    - intros q1 Hq1. exists q1. split; [exact Hq1 |]. split; [reflexivity |].
      left. split; [reflexivity |]. intros Hact.
      apply list_elem_of_filter. auto.
    - exists q0. split; [exact Hq0 |].
      unfold sweptDoc, sweepPatch.
      destruct (pp_status q0) eqn:Hst.
      + exfalso. specialize (Hdone eq_refl).
        apply elem_of_nil in Hdone. contradiction.
      + reflexivity.
    - eauto. }
  split; [exact Hdocs |].
  rewrite processDailyPayouts_nofail. f_equal. apply sweep_noop.
  intros q Hq. apply list_elem_of_filter in Hq as [_ Hq].
  destruct (Hdocs q Hq) as (q0 & _ & ->). eauto.
Qed.

Lemma X26_sweep_twice_same_instant_witness :
  exists s1,
    processDailyPayouts true nofail msPerDay productStore = Ok tt s1 /\
    tx_amount <$> transactions s1 = [117] /\
    processDailyPayouts true nofail msPerDay s1 = Ok tt s1.
Proof.
  destruct (X26_sweep_twice_same_instant msPerDay productStore)
    as (s1 & Hrun & _ & Hagain).
  - vm_compute. repeat constructor. set_solver.
  - exists s1. split; [exact Hrun |]. split; [| exact Hagain].
    assert (Hs : Ok tt s1 = processDailyPayouts true nofail msPerDay
                              productStore) by (symmetry; exact Hrun).
    vm_compute in Hs. injection Hs as ->. reflexivity.
Defined.

End ProductFacts.

(** ** Facts about ReferralService: the flat bonus, the referral tree and
       the referral details *)

Module ReferralFacts.
Import Ledger LedgerFacts.

Lemma processReferralBonus_found fails now newUserId referrerId s referrer :
  fails (GetUser referrerId) = false ->
  users s !! referrerId = Some referrer ->
  processReferralBonus true fails now newUserId referrerId s =
  Ok tt
    (mkStore
       (if fails (SaveUser (user_id referrer)) then users s
        else <[user_id referrer := with_referral flatBonus referrer]> (users s))
       (if fails (CreateTransaction referrerId) then transactions s
        else transactions s ++
             [flatBonusTransaction now newUserId referrerId referrer])
       (if fails (CreateNotification referrerId) then notifications s
        else notifications s ++ [flatBonusNotification now referrerId])
       (purchased_products s) (referral_rewards s)).
Proof.
  intros Hread Hu.
  unfold processReferralBonus, try_catch, bind, getUserById, saveUser,
    createTransaction, createNotification, createAdminNotification, ret.
  cbn [negb]. rewrite Hread, Hu.
  cbn [user_id with_referral tx_userId nt_userId].
  destruct (fails (SaveUser (user_id referrer)));
    destruct (fails (CreateTransaction referrerId));
    destruct (fails (CreateNotification referrerId));
    destruct s; reflexivity.
Qed.

(** X17. The flat referral bonus is paid step by step, each step on its
    own. [processReferralBonus] never throws, in the browser or not,
    whatever store call fails, and does nothing on the server or when the
    referrer cannot be read. When the referrer is read, the bonus is
    round(24% of 300) = 72, and the balance update, the transaction and the
    notification each happen exactly when their own store call works: a
    failed balance write does not stop the transaction from being logged.
    The update adds the bonus to balance and referralEarnings and 1 to
    totalReferrals. *)
Theorem X17_flat_bonus_steps_independent (client : bool)
    (fails : StoreCall -> bool) (now : Z) (newUserId referrerId : string)
    (s : Store) :
  (exists s', processReferralBonus client fails now newUserId referrerId s
              = Ok tt s') /\
  (client = false \/ fails (GetUser referrerId) = true \/
   users s !! referrerId = None ->
   processReferralBonus client fails now newUserId referrerId s = Ok tt s) /\
  (forall referrer,
      fails (GetUser referrerId) = false ->
      users s !! referrerId = Some referrer ->
      processReferralBonus true fails now newUserId referrerId s =
      Ok tt
        (mkStore
           (if fails (SaveUser (user_id referrer)) then users s
            else <[user_id referrer := with_referral flatBonus referrer]>
                   (users s))
           (if fails (CreateTransaction referrerId) then transactions s
            else transactions s ++
                 [flatBonusTransaction now newUserId referrerId referrer])
           (if fails (CreateNotification referrerId) then notifications s
            else notifications s ++ [flatBonusNotification now referrerId])
           (purchased_products s) (referral_rewards s))) /\
  flatBonus = 72 /\
  (forall u,
      balance (with_referral flatBonus u) = Some (or0 (balance u) + 72) /\
      referralEarnings (with_referral flatBonus u)
      = Some (or0 (referralEarnings u) + 72) /\
      totalReferrals (with_referral flatBonus u)
      = Some (or0 (totalReferrals u) + 1)).
Proof.
  assert (Hskip : client = false \/ fails (GetUser referrerId) = true \/
                  users s !! referrerId = None ->
                  processReferralBonus client fails now newUserId referrerId s
                  = Ok tt s).
  { unfold processReferralBonus, try_catch, bind, getUserById, ret.
    intros [-> | [Hf | Hnone]]; [reflexivity | |];
      destruct client; cbn [negb]; try reflexivity.
    - rewrite Hf. reflexivity.
    - destruct (fails (GetUser referrerId)); [reflexivity |].
      rewrite Hnone. reflexivity. }
  split; [| split; [exact Hskip | split; [| split; [reflexivity |]]]].
  - destruct client; [| exists s; apply Hskip; auto].
    destruct (fails (GetUser referrerId)) eqn:Hread;
      [exists s; apply Hskip; auto |].
    destruct (users s !! referrerId) as [referrer |] eqn:Hu;
      [| exists s; apply Hskip; auto].
    eexists. apply (processReferralBonus_found _ _ _ _ _ _ Hread Hu).
  - intros referrer. apply processReferralBonus_found.
  - intros u. repeat split.
Qed.

Lemma X17_flat_bonus_steps_independent_witness :
  exists s',
    processReferralBonus true failSaves 7 "dave" "carol" chainStore
    = Ok tt s' /\
    users s' = users chainStore /\
    tx_amount <$> transactions s' = [72] /\
    length (notifications s') = 1%nat.
Proof.
  eexists. split.
  - apply (proj1 (proj2 (proj2 (X17_flat_bonus_steps_independent true
                                  failSaves 7 "dave" "carol" chainStore)))
             (plainUser "carol" (Some "bob"))); reflexivity.
  - repeat split.
Defined.

(** X18. The flat bonus suppresses the multi-level deposit bonus. After
    [processReferralBonus] for a new user and the referrer named in the
    user's document (no store call failing, user documents carrying their
    key as id), the referrer's log holds a Referral_Bonus transaction for
    that user, so [processDepositReferralBonus] for the same user finds
    its guard satisfied and pays nothing at any level, whatever the
    deposit. A second [processReferralBonus], which has no such guard, pays
    the flat bonus again. *)
Theorem X18_flat_bonus_blocks_deposit_bonus (now now' : Z)
    (newUserId referrerId : string) (d : Z) (s : Store) (u referrer : AppUser)
    (Hids : ids_consistent (users s))
    (Hu : users s !! newUserId = Some u)
    (Hby : referredBy u = Some referrerId)
    (Hne : referrerId <> "")
    (Href : users s !! referrerId = Some referrer) :
  exists s1,
    processReferralBonus true nofail now newUserId referrerId s = Ok tt s1 /\
    countBonuses referrerId newUserId (transactions s1) =
      S (countBonuses referrerId newUserId (transactions s)) /\
    processDepositReferralBonus true nofail now' newUserId d s1 = Ok tt s1 /\
    exists s2,
      processReferralBonus true nofail now' newUserId referrerId s1
      = Ok tt s2 /\
      countBonuses referrerId newUserId (transactions s2) =
        S (S (countBonuses referrerId newUserId (transactions s))) /\
      (balance <$> users s2 !! referrerId)
      = Some (Some (or0 (balance referrer) + 72 + 72)).
Proof.
  pose proof (Hids _ _ Href) as Hrid.
  eexists. split;
    [apply (processReferralBonus_found nofail now newUserId referrerId s
              referrer eq_refl Href) |].
  cbn [nofail]. rewrite Hrid.
  remember (mkStore
              (<[referrerId := with_referral flatBonus referrer]> (users s))
              (transactions s ++
                 [flatBonusTransaction now newUserId referrerId referrer])
              (notifications s ++ [flatBonusNotification now referrerId])
              (purchased_products s) (referral_rewards s)) as s1 eqn:Hs1.
  assert (Hcount : countBonuses referrerId newUserId (transactions s1) =
                   S (countBonuses referrerId newUserId (transactions s))).
  { rewrite Hs1. cbn [transactions]. rewrite countBonuses_app.
    unfold countBonuses at 2.
    rewrite filter_cons_True, filter_nil by (repeat split).
    simpl. lia. }
  split; [exact Hcount |].
  assert (Href1 : users s1 !! referrerId
                  = Some (with_referral flatBonus referrer)).
  { rewrite Hs1. cbn [users]. apply lookup_insert_eq. }
  split.
  - assert (Hu1 : exists u1, users s1 !! newUserId = Some u1 /\
                             referredBy u1 = Some referrerId).
    { destruct (decide (newUserId = referrerId)) as [-> | Hdiff].
      - exists (with_referral flatBonus referrer). split; [exact Href1 |].
        cbn [with_referral referredBy]. congruence.
      - exists u. split; [| exact Hby].
        rewrite Hs1. cbn [users]. rewrite lookup_insert_ne by congruence.
        exact Hu. }
    destruct Hu1 as (u1 & Hu1 & Hby1).
    apply (deposit_already_paid now' newUserId d s1 u1 Hu1).
    + rewrite Hby1. cbn [truthy].
      destruct (String.eqb_spec referrerId ""); [contradiction | reflexivity].
    + rewrite Hby1. change (default "" (Some referrerId)) with referrerId.
      rewrite Hcount. discriminate.
  - eexists. split;
      [apply (processReferralBonus_found nofail now' newUserId referrerId s1
                _ eq_refl Href1) |].
    cbn [nofail with_referral user_id]. rewrite Hrid. split.
    + cbn [transactions]. rewrite countBonuses_app, Hcount.
      unfold countBonuses at 2.
      rewrite filter_cons_True, filter_nil by (repeat split).
      simpl. lia.
    + cbn [users]. rewrite lookup_insert_eq.
      cbn [fmap option_fmap option_map with_referral balance or0].
      do 2 f_equal.
Qed.

Lemma X18_flat_bonus_blocks_deposit_bonus_witness :
  exists s1,
    processReferralBonus true nofail 7 "dave" "carol" chainStore = Ok tt s1 /\
    processDepositReferralBonus true nofail 8 "dave" 10000 s1 = Ok tt s1 /\
    tx_amount <$> transactions s1 = [72].
Proof.
  destruct (X18_flat_bonus_blocks_deposit_bonus 7 8 "dave" "carol" 10000
              chainStore (plainUser "dave" (Some "carol"))
              (plainUser "carol" (Some "bob")))
    as (s1 & Hrun & _ & Hdep & _).
  - apply ids_consistent_chainStore.
  - reflexivity.
  - reflexivity.
  - discriminate.
  - reflexivity.
  - exists s1. split; [exact Hrun |]. split; [exact Hdep |].
    assert (Hs : Ok tt s1 = processReferralBonus true nofail 7 "dave" "carol"
                              chainStore) by (symmetry; exact Hrun).
    vm_compute in Hs. injection Hs as ->. reflexivity.
Defined.

Lemma getDirectReferrals_nofail userId s :
  getDirectReferrals true nofail userId s = Ok (directReferrals s userId) s.
Proof. reflexivity. Qed.

Lemma collectReferrals_nofail s above : forall acc,
  collectReferrals true nofail above acc s =
  Ok (acc ++ flat_map (fun u => directReferrals s (user_id u)) above) s.
Proof.
  induction above as [| u above IH]; intros acc.
  - cbn [collectReferrals flat_map]. rewrite app_nil_r. reflexivity.
  - cbn [collectReferrals flat_map]. unfold bind.
    rewrite getDirectReferrals_nofail, IH, <- app_assoc. reflexivity.
Qed.

Lemma getReferralTree_nofail userId s :
  getReferralTree true nofail userId s =
  Ok (referralTreeOf s userId) s.
Proof.
  unfold getReferralTree, try_catch, bind, ret.
  rewrite getDirectReferrals_nofail, !collectReferrals_nofail.
  reflexivity.
Qed.

(** The direct referrals of the stored user [p] are the stored users
    whose referrer, as the bonus functions look it up, is [p]. *)
Lemma directReferrals_referrerOf s p u :
  ids_consistent (users s) -> users s !! "" = None ->
  users s !! user_id p = Some p ->
  u ∈ directReferrals s (user_id p) <->
  users s !! user_id u = Some u /\ referrerOf (users s) u = Some p.
Proof.
  intros Hids Hempty Hp. unfold directReferrals.
  rewrite list_elem_of_filter, list_elem_of_fmap. split.
  - intros (Hby & [k u'] & -> & Hin). cbn [snd] in *.
    apply elem_of_map_to_list in Hin.
    rewrite (Hids _ _ Hin). split; [exact Hin |].
    unfold referrerOf. rewrite Hby. cbn [truthy].
    destruct (String.eqb_spec (user_id p) "") as [E |]; [congruence |].
    exact Hp.
  - intros (Hu & Href). unfold referrerOf in Href.
    destruct (referredBy u) as [v |] eqn:Hby; [| discriminate Href].
    cbn [truthy] in Href.
    destruct (String.eqb v ""); [discriminate Href |].
    cbn [negb] in Href.
    change (default "" (Some v)) with v in Href.
    rewrite <- (Hids _ _ Href). split; [reflexivity |].
    exists (user_id u, u). split; [reflexivity |].
    apply elem_of_map_to_list, Hu.
Qed.

Lemma elem_of_flat_map {A B} (f : A -> list B) (l : list A) (y : B) :
  y ∈ flat_map f l <-> exists x, x ∈ l /\ y ∈ f x.
Proof.
  rewrite list_elem_of_In, in_flat_map.
  split; intros (x & Hx & Hy); exists x;
    [rewrite !list_elem_of_In | rewrite <- !list_elem_of_In]; auto.
Qed.

(** One level further down the tree. *)
Lemma referrals_below s (above : list AppUser) (P : AppUser -> Prop) u :
  ids_consistent (users s) -> users s !! "" = None ->
  (forall v, v ∈ above <-> users s !! user_id v = Some v /\ P v) ->
  u ∈ flat_map (fun v => directReferrals s (user_id v)) above <->
  users s !! user_id u = Some u /\
  exists v, referrerOf (users s) u = Some v /\ P v.
Proof.
  intros Hids Hempty Habove. rewrite elem_of_flat_map. split.
  - intros (v & Hv & Hu). apply Habove in Hv as [Hv HP].
    apply (directReferrals_referrerOf s v u Hids Hempty Hv) in Hu as [Hu Href].
    split; [exact Hu |]. exists v. auto.
  - intros (Hu & v & Href & HP).
    pose proof (referrerOf_lookup _ _ _ Hids Href) as Hv.
    exists v. split; [apply Habove; auto |].
    apply (directReferrals_referrerOf s v u Hids Hempty Hv). auto.
Qed.

(** X19. The referral tree and the bonus walk see the same levels. With
    no store call failing, user documents carrying their key as id and no
    document under the empty key, [getReferralTree] of a stored user
    returns, without changing the store, three lists such that a user is
    in the list of level 1, 2 or 3 exactly when it is a stored user whose
    ancestor at that level, as [processDepositReferralBonus] walks the
    referredBy links, is the root. *)
Theorem X19_tree_levels_are_bonus_levels (root : string) (s : Store)
    (r : AppUser)
    (Hids : ids_consistent (users s))
    (Hempty : users s !! "" = None)
    (Hroot : users s !! root = Some r) :
  exists t,
    getReferralTree true nofail root s = Ok t s /\
    forall u,
      (u ∈ level1 t <->
       users s !! user_id u = Some u /\ ancestorAt 1 (users s) u = Some r) /\
      (u ∈ level2 t <->
       users s !! user_id u = Some u /\ ancestorAt 2 (users s) u = Some r) /\
      (u ∈ level3 t <->
       users s !! user_id u = Some u /\ ancestorAt 3 (users s) u = Some r).
Proof.
  exists (referralTreeOf s root). split; [apply getReferralTree_nofail |].
  pose proof (Hids _ _ Hroot) as Hrid.
  assert (Hroot' : users s !! user_id r = Some r) by (rewrite Hrid; exact Hroot).
  assert (H1 : forall u,
             u ∈ level1 (referralTreeOf s root) <->
             users s !! user_id u = Some u /\
             referrerOf (users s) u = Some r).
  { intros u. cbn [referralTreeOf level1]. rewrite <- Hrid.
    apply directReferrals_referrerOf; assumption. }
  assert (H2 : forall u,
             u ∈ level2 (referralTreeOf s root) <->
             users s !! user_id u = Some u /\
             exists v, referrerOf (users s) u = Some v /\
                       referrerOf (users s) v = Some r).
  { intros u. cbn [referralTreeOf level2].
    apply (referrals_below s _ (fun v => referrerOf (users s) v = Some r));
      assumption. }
  assert (H3 : forall u,
             u ∈ level3 (referralTreeOf s root) <->
             users s !! user_id u = Some u /\
             exists v, referrerOf (users s) u = Some v /\
                       exists w, referrerOf (users s) v = Some w /\
                                 referrerOf (users s) w = Some r).
  { intros u. cbn [referralTreeOf level3].
    apply (referrals_below s _
             (fun v => exists w, referrerOf (users s) v = Some w /\
                                 referrerOf (users s) w = Some r));
      assumption. }
  intros u. split; [| split].
  - rewrite H1. reflexivity.
  - rewrite H2. cbn [ancestorAt]. split.
    + intros (Hu & v & -> & Hv). auto.
    + intros (Hu & Ha). split; [exact Hu |].
      destruct (referrerOf (users s) u) as [v |]; [| discriminate Ha].
      exists v. auto.
  - rewrite H3. cbn [ancestorAt]. split.
    + intros (Hu & v & -> & w & -> & Hw). auto.
    + intros (Hu & Ha). split; [exact Hu |].
      destruct (referrerOf (users s) u) as [v |]; [| discriminate Ha].
      exists v. split; [reflexivity |].
      destruct (referrerOf (users s) v) as [w |]; [| discriminate Ha].
      exists w. auto.
Qed.

Lemma X19_tree_levels_are_bonus_levels_witness :
  getReferralTree true nofail "alice" chainStore =
  Ok (mkTree [plainUser "bob" (Some "alice")]
             [plainUser "carol" (Some "bob")]
             [plainUser "dave" (Some "carol")]) chainStore /\
  ancestorAt 3 (users chainStore) (plainUser "dave" (Some "carol"))
  = Some (plainUser "alice" None).
Proof.
  destruct (X19_tree_levels_are_bonus_levels "alice" chainStore
              (plainUser "alice" None) ids_consistent_chainStore
              eq_refl eq_refl) as (t & Hrun & Hlevels).
  split; [vm_compute; reflexivity |].
  apply (proj1 (proj2 (proj2 (Hlevels (plainUser "dave" (Some "carol")))))).
  assert (Ht : Ok t chainStore = getReferralTree true nofail "alice" chainStore)
    by (symmetry; exact Hrun).
  vm_compute in Ht. injection Ht as ->.
  apply elem_of_cons. left. reflexivity.
Defined.

Lemma filter_partition_length {A} (P : A -> Prop)
    `{!forall x, Decision (P x)} (Q : A -> Prop) `{!forall x, Decision (Q x)}
    (l : list A) :
  (forall x, P x <-> ~ Q x) ->
  (length (filter P l) + length (filter Q l))%nat = length l.
Proof.
  intros HPQ. induction l as [| x l IH]; [reflexivity |].
  rewrite !filter_cons.
  destruct (decide (P x)) as [HP | HP], (decide (Q x)) as [HQ | HQ];
    cbn [length]; try lia.
  - apply HPQ in HP. contradiction.
  - exfalso. apply HP, HPQ, HQ.
Qed.

Lemma filter_length_impl {A} (P : A -> Prop)
    `{!forall x, Decision (P x)} (Q : A -> Prop) `{!forall x, Decision (Q x)}
    (l : list A) :
  (forall x, P x -> Q x) ->
  (length (filter P l) <= length (filter Q l))%nat.
Proof.
  intros HPQ. induction l as [| x l IH]; [reflexivity |].
  rewrite !filter_cons.
  destruct (decide (P x)) as [HP | HP], (decide (Q x)) as [HQ | HQ];
    cbn [length]; try lia.
  exfalso. apply HQ, HPQ, HP.
Qed.

Lemma getTotalReferralEarnings_nofail userId s :
  getTotalReferralEarnings true nofail userId s =
  Ok (loggedEarnings userId (transactions s)) s.
Proof. reflexivity. Qed.

Lemma getTotalReferralEarnings_ok client fails userId s :
  exists v, getTotalReferralEarnings client fails userId s = Ok v s.
Proof.
  unfold getTotalReferralEarnings, try_catch, bind, getTransactionsByUser, ret.
  destruct client; cbn [negb]; [| eauto].
  destruct (fails GetTransactions); eauto.
Qed.

(** X20. The figures of [getReferralDetails] add up. The call never
    changes the store; it throws only when the query for the direct
    referrals fails. In the result totalReferrals is the number of
    referrals listed, and referralsWithDeposits and
    referralsWithoutDeposits add up to it. With no store call failing the
    referrals are the direct referrals of the user, totalEarnings is the
    sum of the user's Completed Referral_Bonus transactions, and the
    number of valid referrals counted for the milestones is at most
    referralsWithDeposits. *)
Theorem X20_referral_details_add_up (client : bool)
    (fails : StoreCall -> bool) (userId : string) (s : Store) :
  ((exists d,
       getReferralDetails client fails userId s = Ok d s /\
       rd_totalReferrals d = length (rd_referrals d) /\
       (referralsWithDeposits d + referralsWithoutDeposits d)%nat
       = rd_totalReferrals d) \/
   (client = true /\ fails GetUsers = true /\
    getReferralDetails client fails userId s = Throw (StoreError GetUsers) s))
  /\
  (exists d,
      getReferralDetails true nofail userId s = Ok d s /\
      rd_referrals d = directReferrals s userId /\
      rd_totalEarnings d = loggedEarnings userId (transactions s) /\
      getValidReferralCount true nofail userId s
      = Ok (validReferralCount s userId) s /\
      validReferralCount s userId <= Z.of_nat (referralsWithDeposits d)).
Proof.
  split.
  - unfold getReferralDetails.
    destruct client; cbn [negb];
      [| left; eexists; split; [reflexivity | split; reflexivity]].
    unfold try_catch, bind, getDirectReferrals. cbn [negb].
    destruct (fails GetUsers); [right; auto |].
    destruct (getTotalReferralEarnings_ok true fails userId s) as (v & ->).
    left. eexists. split; [reflexivity |].
    cbn [rd_totalReferrals rd_referrals referralsWithDeposits
           referralsWithoutDeposits].
    split; [reflexivity |].
    apply filter_partition_length. intros u.
    destruct (hasDeposited u); split; congruence.
  - eexists. split; [reflexivity |].
    cbn [rd_referrals rd_totalEarnings referralsWithDeposits].
    split; [reflexivity |]. split; [reflexivity |].
    split; [apply getValidReferralCount_nofail |].
    unfold validReferralCount. apply inj_le.
    apply filter_length_impl. intros u [Hdep _]. exact Hdep.
Qed.

Lemma loggedEarnings_app userId (l l' : list Transaction) :
  loggedEarnings userId (l ++ l') =
  loggedEarnings userId l + loggedEarnings userId l'.
Proof.
  unfold loggedEarnings. rewrite !filter_app, foldl_app.
  generalize (filter (fun t => tx_type t = Referral_Bonus /\
                               tx_status t = TxCompleted)
                     (filter (fun t => tx_userId t = userId) l')).
  generalize (foldl (fun total t => total + tx_amount t) 0
                (filter (fun t => tx_type t = Referral_Bonus /\
                                  tx_status t = TxCompleted)
                        (filter (fun t => tx_userId t = userId) l))).
  intros a k. revert a. induction k as [| t k IH]; intros a.
  - simpl. lia.
  - cbn [foldl]. rewrite IH, (IH (0 + tx_amount t)). lia.
Qed.

Lemma loggedEarnings_level now level d userId a r :
  loggedEarnings r (transactionsOf now level d userId a) = paidTo level d a r.
Proof.
  unfold transactionsOf, paidTo. destruct a as [x |]; [| reflexivity].
  destruct (bonusAt level d >? 0); [| reflexivity]. cbn [andb].
  unfold loggedEarnings, bonusTransaction.
  destruct (decide (user_id x = r)) as [E | E].
  - rewrite bool_decide_eq_true_2, filter_cons_True, filter_nil by exact E.
    rewrite filter_cons_True, filter_nil by (split; reflexivity).
    reflexivity.
  - rewrite bool_decide_eq_false_2, filter_cons_False, filter_nil by exact E.
    reflexivity.
Qed.

Lemma fields_level level d a (m : gmap string AppUser) r :
  (forall x, a = Some x -> is_Some (m !! user_id x)) ->
  earningsField (creditOf level d a m) r =
    earningsField m r + paidTo level d a r /\
  balanceField (creditOf level d a m) r =
    balanceField m r + paidTo level d a r /\
  (forall k, is_Some (creditOf level d a m !! k) <-> is_Some (m !! k)).
Proof.
  intros Ha. unfold creditOf, paidTo. destruct a as [x |];
    [| split; [lia | split; [lia | reflexivity]]].
  destruct (bonusAt level d >? 0); cbn [andb];
    [| split; [lia | split; [lia | reflexivity]]].
  destruct (Ha x eq_refl) as [x0 Hx0].
  unfold earningsField, balanceField. split; [| split].
  - rewrite lookup_alter.
    destruct (decide (user_id x = r)) as [<- | E].
    + rewrite bool_decide_eq_true_2, Hx0 by reflexivity.
      reflexivity.
    + rewrite bool_decide_eq_false_2 by congruence. lia.
  - rewrite lookup_alter.
    destruct (decide (user_id x = r)) as [<- | E].
    + rewrite bool_decide_eq_true_2, Hx0 by reflexivity.
      reflexivity.
    + rewrite bool_decide_eq_false_2 by congruence. lia.
  - intros k. rewrite lookup_alter. case_decide; [| reflexivity].
    subst k. rewrite Hx0. split; intros _; eexists; reflexivity.
Qed.

Lemma paidTo_nonneg level d a r : 0 <= paidTo level d a r.
Proof.
  unfold paidTo. destruct a as [x |]; [| lia].
  destruct (Z.gtb_spec (bonusAt level d) 0); cbn [andb]; [| lia].
  destruct (bool_decide (user_id x = r)); lia.
Qed.

(** X21. Every unit the deposit bonus credits is logged. With no store
    call failing and user documents carrying their key as id, a call of
    [processDepositReferralBonus] raises, for every user, the balance and
    the referralEarnings field by the same amount, and that amount is the
    sum of the Completed Referral_Bonus transactions the call adds to the
    user's log, which is what [getTotalReferralEarnings] sums; no balance
    is ever lowered. *)
Theorem X21_deposit_bonus_credits_are_logged (now : Z) (userId : string)
    (d : Z) (s : Store) (Hids : ids_consistent (users s)) :
  exists s',
    processDepositReferralBonus true nofail now userId d s = Ok tt s' /\
    forall r,
      let logged := loggedEarnings r (transactions s')
                    - loggedEarnings r (transactions s) in
      getTotalReferralEarnings true nofail r s' =
        Ok (loggedEarnings r (transactions s')) s' /\
      earningsField (users s') r = earningsField (users s) r + logged /\
      balanceField (users s') r = balanceField (users s) r + logged /\
      0 <= logged.
Proof.
  assert (Hsame : processDepositReferralBonus true nofail now userId d s
                  = Ok tt s ->
                  exists s',
                    processDepositReferralBonus true nofail now userId d s
                    = Ok tt s' /\
                    forall r,
                      let logged := loggedEarnings r (transactions s')
                                    - loggedEarnings r (transactions s) in
                      getTotalReferralEarnings true nofail r s' =
                        Ok (loggedEarnings r (transactions s')) s' /\
                      earningsField (users s') r
                      = earningsField (users s) r + logged /\
                      balanceField (users s') r
                      = balanceField (users s) r + logged /\
                      0 <= logged).
  { intros Hrun. exists s. split; [exact Hrun |]. intros r. cbv zeta.
    split; [reflexivity |]. lia. }
  destruct (users s !! userId) as [u |] eqn:Hu;
    [| apply Hsame, deposit_no_user, Hu].
  destruct (truthy (referredBy u)) eqn:Href;
    [| apply Hsame, (deposit_no_referrer _ _ _ _ _ _ u Hu Href)].
  destruct (decide (countBonuses (default "" (referredBy u)) userId
                                 (transactions s) = 0%nat)) as [Hnew | Hpaid];
    [| apply Hsame, (deposit_already_paid _ _ _ _ u Hu Href Hpaid)].
  clear Hsame.
  destruct (deposit_effect now userId d s u Hids Hu Href Hnew)
    as (s' & Hrun & Husers & Htx & _).
  cbv beta zeta in Husers, Htx.
  exists s'. split; [exact Hrun |]. intros r. cbv zeta.
  split; [reflexivity |].
  assert (HA : forall level x,
             ancestorAt level (users s) u = Some x ->
             is_Some (users s !! user_id x)).
  { intros level x Hx. exists x. apply (ancestorAt_lookup level _ u x Hids Hx). }
  destruct (fields_level 1 d (ancestorAt 1 (users s) u) (users s) r
              (HA 1%nat)) as (He1 & Hb1 & Hk1).
  destruct (fields_level 2 d (ancestorAt 2 (users s) u)
              (creditOf 1 d (ancestorAt 1 (users s) u) (users s)) r)
    as (He2 & Hb2 & Hk2).
  { intros x Hx. apply Hk1, (HA 2%nat x Hx). }
  destruct (fields_level 3 d (ancestorAt 3 (users s) u)
              (creditOf 2 d (ancestorAt 2 (users s) u)
                 (creditOf 1 d (ancestorAt 1 (users s) u) (users s))) r)
    as (He3 & Hb3 & _).
  { intros x Hx. apply Hk2, Hk1, (HA 3%nat x Hx). }
  rewrite Husers, Htx, !loggedEarnings_app, !loggedEarnings_level.
  rewrite He3, He2, He1, Hb3, Hb2, Hb1.
  pose proof (paidTo_nonneg 1 d (ancestorAt 1 (users s) u) r).
  pose proof (paidTo_nonneg 2 d (ancestorAt 2 (users s) u) r).
  pose proof (paidTo_nonneg 3 d (ancestorAt 3 (users s) u) r).
  lia.
Qed.

Lemma X21_deposit_bonus_credits_are_logged_witness :
  exists s',
    processDepositReferralBonus true nofail 7 "dave" 10000 chainStore
    = Ok tt s' /\
    getTotalReferralEarnings true nofail "carol" s' = Ok 1900 s' /\
    earningsField (users s') "carol" = 1900 /\
    balanceField (users s') "bob" = 200.
Proof.
  destruct (X21_deposit_bonus_credits_are_logged 7 "dave" 10000 chainStore
              ids_consistent_chainStore) as (s' & Hrun & Hlog).
  exists s'. split; [exact Hrun |].
  assert (Hs : Ok tt s' = processDepositReferralBonus true nofail 7 "dave"
                            10000 chainStore) by (symmetry; exact Hrun).
  vm_compute in Hs. injection Hs as Hs.
  destruct (Hlog "carol") as (Hget & _).
  split; [| split].
  - rewrite Hget. rewrite Hs. vm_compute. reflexivity.
  - rewrite Hs. vm_compute. reflexivity.
  - rewrite Hs. vm_compute. reflexivity.
Defined.

End ReferralFacts.

(** ** Facts about the milestone rewards: next target and ladder order *)

Module MilestoneFacts.
Import Ledger LedgerFacts.

Lemma loop_next C V cfg : forall st,
  ls_nextTarget (foldl (milestoneStep C V) st cfg) =
  match ls_nextTarget st with
  | Some t => Some t
  | None => target <$> firstOpenTier C V cfg
  end.
Proof.
  induction cfg as [| m cfg IH]; intros st.
  - cbn [foldl firstOpenTier find]. destruct (ls_nextTarget st); reflexivity.
  - cbn [foldl]. rewrite IH. unfold firstOpenTier. cbn [find].
    unfold milestoneStep at 1. cbn [ls_nextTarget].
    destruct (ls_nextTarget st) as [t |] eqn:Hnt.
    + destruct (bool_decide (target m ∈ C)); [reflexivity |].
      destruct ((V >=? target m) && ls_allPreviousClaimed st); [reflexivity |].
      rewrite andb_false_r. reflexivity.
    + destruct (bool_decide (target m ∈ C)); cbn [negb andb]; [reflexivity |].
      destruct (Z.geb_spec V (target m)) as [Hge | Hlt];
        destruct (Z.ltb_spec V (target m)) as [Hlt' | Hge']; try lia.
      * destruct (ls_allPreviousClaimed st); reflexivity.
      * reflexivity.
Qed.

Lemma status_next client fails userId s :
  getReferralMilestoneStatus client fails userId s
  = Ok (mkStatus 0 [] None) s \/
  exists V,
    getValidReferralCount client fails userId s = Ok V s /\
    getReferralMilestoneStatus client fails userId s =
    Ok (mkStatus V
          (entries
             (claimedTargetsOf (filter (fun r => rw_userId r = userId)
                                       (referral_rewards s)))
             V [] getMilestoneConfig)
          (target <$>
             firstOpenTier
               (claimedTargetsOf (filter (fun r => rw_userId r = userId)
                                         (referral_rewards s)))
               V getMilestoneConfig)) s.
Proof.
  unfold getReferralMilestoneStatus.
  destruct client; cbn [negb]; [| left; reflexivity].
  unfold try_catch, bind.
  destruct (getValidReferralCount_cases true fails userId s)
    as [[V HV] | [e He]].
  2:{ rewrite He. left. reflexivity. }
  rewrite HV. unfold getRewardsOf.
  destruct (fails GetRewards); [left; reflexivity |].
  right. exists V. split; [reflexivity |].
  unfold ret. do 2 f_equal.
  - apply (loop_spec _ V getMilestoneConfig [] (mkLoop [] None true) eq_refl).
  - apply (loop_next _ V getMilestoneConfig (mkLoop [] None true)).
Qed.

Lemma find_first {A} (f : A -> bool) (l : list A) x :
  find f l = Some x ->
  exists pre post, l = pre ++ x :: post /\ f x = true /\
                   forall y, y ∈ pre -> f y = false.
Proof.
  induction l as [| a l IH]; [discriminate |]. cbn [find].
  destruct (f a) eqn:Ea.
  - intros [= ->]. exists [], l. split; [reflexivity |]. split; [exact Ea |].
    intros y Hy. apply elem_of_nil in Hy. contradiction.
  - intros Hx. destruct (IH Hx) as (pre & post & -> & Hfx & Hpre).
    exists (a :: pre), post. split; [reflexivity |]. split; [exact Hfx |].
    intros y Hy. apply elem_of_cons in Hy as [-> | Hy]; auto.
Qed.

(** X22. The next target reported by [getReferralMilestoneStatus] is the
    lowest tier still ahead. Whatever store call fails, the call returns
    without changing the store; a next target it reports is a target of
    the configuration that is above the valid referral count reported and
    not claimed, and every lower tier of the configuration is claimed or
    already reached. With no store call failing, no next target is
    reported exactly when every tier is claimed or reached. *)
Theorem X22_next_target_is_lowest_open_tier (client : bool)
    (fails : StoreCall -> bool) (userId : string) (s : Store) :
  (exists r,
      getReferralMilestoneStatus client fails userId s = Ok r s /\
      forall t, nextTarget r = Some t ->
        (exists m, m ∈ getMilestoneConfig /\ target m = t) /\
        validReferrals r < t /\ ~ claimedFor s userId t /\
        forall m, m ∈ getMilestoneConfig -> target m < t ->
                  claimedFor s userId (target m) \/
                  target m <= validReferrals r) /\
  (exists r,
      getReferralMilestoneStatus true nofail userId s = Ok r s /\
      validReferrals r = validReferralCount s userId /\
      (nextTarget r = None <->
       forall m, m ∈ getMilestoneConfig ->
                 claimedFor s userId (target m) \/
                 target m <= validReferralCount s userId)).
Proof.
  set (C := claimedTargetsOf (filter (fun r => rw_userId r = userId)
                                     (referral_rewards s))).
  assert (Hopen : forall V m,
            negb (bool_decide (target m ∈ C)) && (V <? target m) = false <->
            claimedFor s userId (target m) \/ target m <= V).
  { intros V m. rewrite andb_false_iff, negb_false_iff, bool_decide_eq_true.
    unfold C. rewrite elem_of_claimedTargetsOf, Z.ltb_ge. reflexivity. }
  split.
  - destruct (status_next client fails userId s) as [E | (V & _ & E)];
      rewrite E; eexists; (split; [reflexivity |]);
      cbn [nextTarget validReferrals]; [discriminate |].
    fold C. intros t Ht.
    destruct (firstOpenTier C V getMilestoneConfig) as [m |] eqn:Hm;
      [| discriminate Ht].
    injection Ht as <-.
    apply find_first in Hm as (pre & post & Hcfg & Hfm & Hpre).
    apply andb_true_iff in Hfm as [Hnc Hlt].
    apply negb_true_iff, bool_decide_eq_false in Hnc.
    apply Z.ltb_lt in Hlt.
    split; [| split; [exact Hlt | split]].
    + exists m. split; [| reflexivity].
      rewrite Hcfg. apply elem_of_app. right. apply elem_of_cons. auto.
    + intros Hcl. apply Hnc. unfold C.
      apply elem_of_claimedTargetsOf, Hcl.
    + intros m' Hin Hlow. apply Hopen, Hpre.
      apply (config_lower pre m post m' Hcfg). auto.
  - destruct (status_next true nofail userId s) as [E | (V & HV & E)].
    + exfalso. unfold getReferralMilestoneStatus, try_catch, bind in E.
      cbn [negb] in E. rewrite getValidReferralCount_nofail in E.
      discriminate E.
    + rewrite getValidReferralCount_nofail in HV. injection HV as <-.
      rewrite E. eexists. split; [reflexivity |].
      cbn [nextTarget validReferrals]. split; [reflexivity |]. fold C.
      split.
      * intros Hnone m Hin.
        destruct (firstOpenTier C _ getMilestoneConfig) eqn:Hm;
          [discriminate Hnone |].
        apply Hopen. apply list_elem_of_In in Hin.
        apply (find_none _ _ Hm m Hin).
      * intros Hall.
        destruct (firstOpenTier C _ getMilestoneConfig) as [m |] eqn:Hm;
          [| reflexivity].
        exfalso. apply find_some in Hm as [Hin Hfm].
        apply list_elem_of_In in Hin.
        apply (proj2 (Hopen _ m)) in Hall; [| exact Hin]. congruence.
Qed.

Lemma X22_next_target_is_lowest_open_tier_witness :
  exists r,
    getReferralMilestoneStatus true nofail "root" referralsStore
    = Ok r referralsStore /\
    validReferrals r = 40 /\ nextTarget r = Some 50.
Proof.
  destruct (proj2 (X22_next_target_is_lowest_open_tier true nofail "root"
                     referralsStore)) as (r & Hrun & HV & _).
  exists r. split; [exact Hrun |].
  assert (Hr : Ok r referralsStore
               = getReferralMilestoneStatus true nofail "root" referralsStore)
    by (symmetry; exact Hrun).
  vm_compute in Hr. injection Hr as ->. split; reflexivity.
Defined.

(** Every effect of [claimReferralMilestone] on the store. *)
Local Tactic Notation "because" integer(k) :=
  eexists _, _; split; [reflexivity |]; left;
  split; [reflexivity |]; split; [reflexivity |];
  do k right; first [left; solve [auto] | solve [auto]].

Lemma claim_effect client fails now tls userId t s :
  exists r s',
    claimReferralMilestone client fails now tls userId t s = Ok r s' /\
    ((success r = false /\ s' = s /\ refused client fails userId t s) \/
     exists milestone u,
       find (fun m => bool_decide (target m = t)) getMilestoneConfig
       = Some milestone /\
       milestone ∈ getMilestoneConfig /\ target milestone = t /\
       users s !! userId = Some u /\
       ~ claimedFor s userId t /\ lowerTiersClaimed s userId t /\
       ((success r = false /\ fails (AddReward userId) = true /\
         message r = "Failed to claim reward. Please try again." /\
         s' = creditedStore u milestone s) \/
        (success r = false /\ fails (AddReward userId) = false /\
         fails (CreateTransaction userId) = true /\
         message r = "Failed to claim reward. Please try again." /\
         s' = recordedStore now userId u milestone s) \/
        (success r = true /\ fails (AddReward userId) = false /\
         fails (CreateTransaction userId) = false /\
         message r = "Successfully claimed ₦" +:+ tls (reward milestone)
                     +:+ " reward!" /\
         s' = claimedStore now userId u milestone s))).
Proof.
  unfold claimReferralMilestone, refused.
  destruct client; cbn [negb].
  2:{ because 0. }
  unfold try_catch.
  destruct (find _ getMilestoneConfig) as [milestone |] eqn:Hfind.
  2:{ because 1. }
  pose proof Hfind as Hfind'.
  apply find_config_target in Hfind as [Hmin Hmt].
  unfold bind at 1.
  destruct (status_cases true fails userId s)
    as [E | (V & nt & E & HV & _)]; rewrite E; cbn [milestones validReferrals].
  { because 2. }
  destruct (find _ (entries _ V [] getMilestoneConfig)) as [e |] eqn:He.
  2:{ exfalso.
      assert (Hin : t ∈ ms_target <$>
                      entries (claimedTargetsOf
                                 (filter (fun r => rw_userId r = userId)
                                         (referral_rewards s)))
                              V [] getMilestoneConfig).
      { rewrite entries_targets, <- Hmt. apply list_elem_of_fmap.
        exists milestone. auto. }
      apply list_elem_of_fmap in Hin as (e & Het & Hein).
      apply list_elem_of_In in Hein.
      pose proof (find_none _ _ He e Hein) as Hno. simpl in Hno.
      rewrite bool_decide_eq_true_2 in Hno by congruence. discriminate Hno. }
  apply find_some in He as [Hein Het].
  apply bool_decide_eq_true in Het. apply list_elem_of_In in Hein.
  pose proof Hein as Hein'.
  apply entries_elem in Hein' as (pre & m & post & Hcfg & Hedef).
  pose proof (tierStatus_rule s userId V pre m post Hcfg) as Hrule.
  cbv zeta in Hrule. destruct Hrule as (Hclaimed & Hclaimable & Hlocked).
  assert (Hst : ms_status e = tierStatus
                  (claimedTargetsOf (filter (fun r => rw_userId r = userId)
                                            (referral_rewards s))) V pre m)
    by (rewrite Hedef; reflexivity).
  assert (Htm : target m = t) by (rewrite <- Het, Hedef; reflexivity).
  rewrite <- Hst, Htm in Hclaimable, Hclaimed, Hlocked.
  destruct (bool_decide (ms_status e = claimable)) eqn:Hc; cbn [negb].
  2:{ eexists _, _. split; [reflexivity |]. left.
      split; [reflexivity |]. split; [reflexivity |].
      apply bool_decide_eq_false in Hc.
      destruct (ms_status e) eqn:Hs.
      - destruct (proj1 Hlocked eq_refl) as [_ Hno].
        destruct (Z.lt_ge_cases V t) as [Hlt | Hge].
        + right; right; right; right; right; left. exists V. auto.
        + right; right; right; right; left. intros Hlow. apply Hno. auto.
      - contradiction.
      - right; right; right; left. apply Hclaimed. reflexivity. }
  apply bool_decide_eq_true in Hc.
  apply Hclaimable in Hc as (Hnot & HtV & Hlow).
  replace (V <? t) with false by (symmetry; apply Z.ltb_ge; exact HtV).
  assert (Hprev :
    existsb (fun m0 => (ms_target m0 <? t) &&
                       negb (bool_decide (ms_status m0 = claimed)))
            (entries (claimedTargetsOf
                        (filter (fun r => rw_userId r = userId)
                                (referral_rewards s)))
                     V [] getMilestoneConfig) = false).
  { apply not_true_is_false. intros Hex.
    apply existsb_exists in Hex as (e' & Hin' & Hcond).
    apply andb_true_iff in Hcond as [Hlt Hncl].
    apply Z.ltb_lt in Hlt. apply negb_true_iff in Hncl.
    apply bool_decide_eq_false in Hncl. apply Hncl.
    apply list_elem_of_In in Hin'.
    apply entries_elem in Hin' as (pre' & m' & post' & Hcfg' & ->).
    cbn [ms_status ms_target] in *.
    apply (tierStatus_rule s userId V pre' m' post' Hcfg').
    apply Hlow; [| exact Hlt].
    rewrite Hcfg'. apply elem_of_app. right. apply elem_of_cons. left.
    reflexivity. }
  rewrite Hprev.
  unfold bind at 1. unfold getClaimedRecords.
  destruct (fails GetRewards).
  { because 6. }
  destruct (filter (fun r => rw_userId r = userId /\
                            milestoneTarget r = t /\
                            rw_status r = RwClaimed)
                   (referral_rewards s)) as [| r0 l0] eqn:Hchk.
  2:{ exfalso. apply Hnot.
      assert (Hr0 : r0 ∈ filter (fun r => rw_userId r = userId /\
                                           milestoneTarget r = t /\
                                           rw_status r = RwClaimed)
                                (referral_rewards s))
        by (rewrite Hchk; apply elem_of_cons; left; reflexivity).
      apply list_elem_of_filter in Hr0 as [(H1 & H2 & H3) Hin].
      exists r0. auto. }
  cbn [length Nat.eqb negb].
  unfold bind at 1. unfold getUserById.
  destruct (fails (GetUser userId)).
  { because 7. }
  destruct (users s !! userId) as [u |] eqn:Hu.
  2:{ because 8. }
  unfold bind at 1. unfold saveUser. cbn [user_id with_balance].
  destruct (fails (SaveUser (user_id u))) eqn:Hsave.
  { eexists _, _. split; [reflexivity |]. left.
    split; [reflexivity |]. split; [reflexivity |].
    do 9 right. exists u. auto. }
  unfold bind at 1. unfold addReward. cbn [rw_userId].
  destruct (fails (AddReward userId)) eqn:Hadd.
  { eexists _, _. split; [reflexivity |]. right.
    exists milestone, u.
    repeat (split; [first [assumption | reflexivity] |]).
    left. repeat split. }
  unfold bind at 1. unfold createTransaction. cbn [tx_userId].
  destruct (fails (CreateTransaction userId)) eqn:Htx.
  { eexists _, _. split; [reflexivity |]. right.
    exists milestone, u.
    repeat (split; [first [assumption | reflexivity] |]).
    right; left. repeat (split; [reflexivity |]).
    unfold recordedStore, creditedStore. rewrite Hmt. reflexivity. }
  eexists _, _. split; [reflexivity |]. right.
  exists milestone, u.
  repeat (split; [first [assumption | reflexivity] |]).
  right; right. repeat (split; [reflexivity |]).
  unfold claimedStore. rewrite Hmt. reflexivity.
Qed.

Lemma claimedFor_rewards s s' userId t :
  referral_rewards s' = referral_rewards s ->
  claimedFor s' userId t <-> claimedFor s userId t.
Proof. intros H. unfold claimedFor. rewrite H. reflexivity. Qed.

Lemma ladder_ok_same s s' :
  referral_rewards s' = referral_rewards s -> ladder_ok s -> ladder_ok s'.
Proof.
  intros H Hok userId. destruct (Hok userId) as [Hcl Hnd].
  unfold lowerTiersClaimed, claimedFor in *. rewrite H. auto.
Qed.

Lemma ladder_ok_add s s' now userId milestone :
  milestone ∈ getMilestoneConfig ->
  ~ claimedFor s userId (target milestone) ->
  lowerTiersClaimed s userId (target milestone) ->
  referral_rewards s' =
    referral_rewards s ++
      [mkReward userId (target milestone) (reward milestone) RwClaimed now] ->
  ladder_ok s -> ladder_ok s'.
Proof.
  intros Hmin Hnot Hlow Hrw Hok userId'.
  destruct (Hok userId') as [Hcl Hnd].
  assert (Hmono : forall uid t, claimedFor s uid t -> claimedFor s' uid t).
  { intros uid t (r & Hr & H). exists r. split; [| exact H].
    rewrite Hrw. apply elem_of_app. auto. }
  split.
  - intros t (r & Hr & Hu & Ht & Hst). rewrite Hrw in Hr.
    apply elem_of_app in Hr as [Hr | Hr].
    + destruct (Hcl t) as [Hcfg Hlower]; [exists r; auto |].
      split; [exact Hcfg |]. intros m Hm Hlt. apply Hmono, Hlower; assumption.
    + apply list_elem_of_singleton in Hr. subst r. cbn in Hu, Ht. subst.
      split; [exists milestone; auto |].
      intros m Hm Hlt. apply Hmono, Hlow; assumption.
  - rewrite Hrw, filter_app, fmap_app.
    destruct (decide (userId = userId')) as [<- | Hne].
    + rewrite filter_cons_True, filter_nil by (split; reflexivity).
      cbn [fmap list_fmap milestoneTarget]. apply NoDup_app.
      split; [exact Hnd |]. split; [| apply NoDup_singleton].
      intros t Ht Ht'. apply list_elem_of_singleton in Ht'. subst t.
      apply Hnot. apply list_elem_of_fmap in Ht as (r & Htr & Hr).
      apply list_elem_of_filter in Hr as [[Hu Hst] Hr].
      exists r. auto.
    + rewrite filter_cons_False, filter_nil by (cbn; intros [? _]; congruence).
      cbn [fmap list_fmap]. rewrite app_nil_r. exact Hnd.
Qed.

Lemma ladder_ok_claim client fails now tls userId t s :
  ladder_ok s ->
  ladder_ok (outcome_store
               (claimReferralMilestone client fails now tls userId t s)).
Proof.
  intros Hok.
  destruct (claim_effect client fails now tls userId t s)
    as (r & s' & -> & [(_ & -> & _) |
         (milestone & u & _ & Hmin & <- & _ & Hnot & Hlow & H)]);
    cbn [outcome_store]; [exact Hok |].
  destruct H as [(_ & _ & _ & ->) | [(_ & _ & _ & _ & ->) |
                                     (_ & _ & _ & _ & ->)]].
  - apply (ladder_ok_same s); [reflexivity | exact Hok].
  - apply (ladder_ok_add s _ now userId milestone); auto.
  - apply (ladder_ok_add s _ now userId milestone); auto.
Qed.

Lemma NoDup_fmap_filter_length {A} (f : A -> Z) (l : list A) t :
  NoDup (f <$> l) -> (length (filter (fun r => f r = t) l) <= 1)%nat.
Proof.
  induction l as [| r l IH]; [cbn; lia |].
  rewrite fmap_cons, NoDup_cons. intros [Hnotin Hnd].
  rewrite filter_cons. destruct (decide (f r = t)) as [E | E]; [| auto].
  cbn [length].
  destruct (filter (fun r => f r = t) l) as [| r' l'] eqn:Hf; [cbn; lia |].
  exfalso. apply Hnotin.
  assert (Hr' : r' ∈ filter (fun r => f r = t) l)
    by (rewrite Hf; apply elem_of_cons; auto).
  apply list_elem_of_filter in Hr' as [Ht Hr'].
  apply list_elem_of_fmap. exists r'. split; [congruence | exact Hr'].
Qed.

(** X23. Milestone rewards are recorded in ladder order and at most once.
    Starting from a store in which, for every user, each claimed target is
    a target of the configuration with all lower tiers claimed and no
    target has two claimed records (the empty collection is such a store),
    any sequence of [claimReferralMilestone] calls, by any users, for any
    targets, in the browser or not, with any store calls failing during
    each call, leaves a store with the same property. *)
Theorem X23_milestones_claimed_in_order_once (client : bool)
    (tls : Z -> string) (calls : list ClaimCall) (s : Store)
    (Hok : ladder_ok s) :
  let s' := runClaims client tls calls s in
  ladder_ok s' /\
  forall userId t,
    (claimedFor s' userId t ->
     (exists m, m ∈ getMilestoneConfig /\ target m = t) /\
     lowerTiersClaimed s' userId t) /\
    (length (filter (fun r => milestoneTarget r = t)
               (filter (fun r => rw_userId r = userId /\
                                 rw_status r = RwClaimed)
                       (referral_rewards s'))) <= 1)%nat.
Proof.
  cbv zeta.
  assert (H : ladder_ok (runClaims client tls calls s)).
  { revert s Hok. induction calls as [| c calls IH]; intros s Hok;
      [exact Hok |].
    unfold runClaims in *. cbn [foldl]. apply IH, ladder_ok_claim, Hok. }
  split; [exact H |]. intros userId t. destruct (H userId) as [Hcl Hnd].
  split; [apply Hcl |]. apply NoDup_fmap_filter_length, Hnd.
Qed.

Lemma X23_milestones_claimed_in_order_once_witness :
  let calls := [mkClaimCall nofail 1 "root" 15;
                mkClaimCall nofail 2 "root" 5;
                mkClaimCall nofail 3 "root" 5;
                mkClaimCall nofail 4 "root" 15] in
  ladder_ok (runClaims true pretty calls referralsStore) /\
  milestoneTarget <$> referral_rewards (runClaims true pretty calls
                                          referralsStore) = [5; 15].
Proof.
  assert (H0 : ladder_ok referralsStore).
  { intros userId. split.
    - intros t (r & Hr & _). apply elem_of_nil in Hr. contradiction.
    - apply NoDup_nil_2. }
  split.
  - apply (X23_milestones_claimed_in_order_once true pretty _ referralsStore
             H0).
  - vm_compute. reflexivity.
Defined.

Lemma countValidReferrals_reads fails s l :
  fails GetProducts = false -> forall acc,
  countValidReferrals true fails l acc s =
  countValidReferrals true nofail l acc s.
Proof.
  intros Hp. induction l as [| u l IH]; intros acc; [reflexivity |].
  cbn [countValidReferrals]. destruct (negb (hasDeposited u)); [apply IH |].
  unfold bind, getUserProducts. cbn [negb nofail]. rewrite Hp.
  destruct (0 <? _)%nat; apply IH.
Qed.

Lemma getValidReferralCount_reads fails userId s :
  fails GetUsers = false -> fails GetProducts = false ->
  getValidReferralCount true fails userId s =
  Ok (validReferralCount s userId) s.
Proof.
  intros Hu Hp. rewrite <- getValidReferralCount_nofail.
  unfold getValidReferralCount, bind, getDirectReferrals.
  cbn [negb nofail]. rewrite Hu.
  destruct (length _ =? 0)%nat; [reflexivity |].
  apply countValidReferrals_reads, Hp.
Qed.

Lemma status_not_empty fails userId s :
  fails GetUsers = false -> fails GetProducts = false ->
  fails GetRewards = false ->
  getReferralMilestoneStatus true fails userId s
  <> Ok (mkStatus 0 [] None) s.
Proof.
  intros Hu Hp Hr.
  destruct (status_next true fails userId s) as [E | (V & _ & ->)].
  - exfalso. unfold getReferralMilestoneStatus, try_catch, bind in E.
    cbn [negb] in E. rewrite (getValidReferralCount_reads _ _ _ Hu Hp) in E.
    unfold getRewardsOf in E. rewrite Hr in E. discriminate E.
  - intros H. inversion H.
Qed.

(** A claim whose guards all pass: what it does is decided by the two
    last writes. *)
Lemma claim_run fails now tls userId t s milestone u :
  fails GetUsers = false -> fails GetProducts = false ->
  fails GetRewards = false -> fails (GetUser userId) = false ->
  fails (SaveUser (user_id u)) = false ->
  find (fun m => bool_decide (target m = t)) getMilestoneConfig
  = Some milestone ->
  users s !! userId = Some u ->
  ~ claimedFor s userId t -> lowerTiersClaimed s userId t ->
  t <= validReferralCount s userId ->
  exists r s',
    claimReferralMilestone true fails now tls userId t s = Ok r s' /\
    ((success r = false /\ fails (AddReward userId) = true /\
      message r = "Failed to claim reward. Please try again." /\
      s' = creditedStore u milestone s) \/
     (success r = false /\ fails (AddReward userId) = false /\
      fails (CreateTransaction userId) = true /\
      message r = "Failed to claim reward. Please try again." /\
      s' = recordedStore now userId u milestone s) \/
     (success r = true /\ fails (AddReward userId) = false /\
      fails (CreateTransaction userId) = false /\
      message r = "Successfully claimed ₦" +:+ tls (reward milestone)
                  +:+ " reward!" /\
      s' = claimedStore now userId u milestone s)).
Proof.
  intros Hgu Hgp Hgr Hguser Hsave Hfind Hu Hnot Hlow HV.
  destruct (claim_effect true fails now tls userId t s)
    as (r & s' & Hrun & [(_ & _ & Hwhy) |
         (milestone' & u' & Hfind' & _ & _ & Hu' & _ & _ & H)]).
  - exfalso. unfold refused in Hwhy.
    destruct Hwhy as [H | [H | [H | [H | [H | [H | [H | [H | [H | H]]]]]]]]].
    + discriminate H.
    + congruence.
    + apply (status_not_empty fails userId s Hgu Hgp Hgr H).
    + contradiction.
    + contradiction.
    + destruct H as (V & HVr & Hlt).
      rewrite (getValidReferralCount_reads _ _ _ Hgu Hgp) in HVr.
      injection HVr as <-. lia.
    + congruence.
    + congruence.
    + congruence.
    + destruct H as (u0 & Hu0 & Hs0). congruence.
  - assert (milestone' = milestone) by congruence.
    assert (u' = u) by congruence. subst.
    exists r, s'. auto.
Qed.

Lemma validReferral_users s s' u :
  purchased_products s' = purchased_products s ->
  validReferral s' u <-> validReferral s u.
Proof. intros H. unfold validReferral. rewrite H. reflexivity. Qed.

Lemma validReferralCount_creditedStore s u milestone userId :
  users s !! user_id u = Some u ->
  validReferralCount (creditedStore u milestone s) userId =
  validReferralCount s userId.
Proof.
  intros Hu. unfold validReferralCount, directReferrals. f_equal.
  set (u' := with_balance (or0 (balance u) + reward milestone) u).
  cbn [creditedStore users set_users].
  assert (Hp1 : map_to_list (<[user_id u := u']> (users s)) ≡ₚ
                (user_id u, u') :: map_to_list (delete (user_id u) (users s))).
  { rewrite <- insert_delete_eq. apply map_to_list_insert, lookup_delete_eq. }
  assert (Hp2 : map_to_list (users s) ≡ₚ
                (user_id u, u) :: map_to_list (delete (user_id u) (users s))).
  { rewrite <- (insert_delete_id (users s) (user_id u) u Hu) at 1.
    apply map_to_list_insert, lookup_delete_eq. }
  rewrite (list_filter_iff (validReferral (creditedStore u milestone s))
             (validReferral s))
    by (intros x; apply validReferral_users; reflexivity).
  fold u'. rewrite Hp1, Hp2. rewrite !fmap_cons. cbn [snd].
  rewrite !(filter_cons _ u'), !(filter_cons _ u).
  assert (Hby : referredBy u' = referredBy u) by reflexivity.
  destruct (decide (referredBy u' = Some userId)) as [E | E];
    destruct (decide (referredBy u = Some userId)) as [E' | E'];
    try congruence.
  rewrite !filter_cons.
  destruct (decide (validReferral s u')) as [V1 | V1];
    destruct (decide (validReferral s u)) as [V2 | V2];
    try reflexivity; exfalso; [apply V2 | apply V1]; exact V1 || exact V2.
Qed.

(** X24. [claimReferralMilestone] credits before it records. When a tier
    is claimable (its lower tiers claimed, the valid referral count
    reached, the user document stored under its id) and only the write of
    the reward record fails, the call answers "Failed to claim reward.
    Please try again." with the balance already raised by the reward, no
    reward record and no transaction; the tier is then still claimable. A
    next call whose reads, balance write and record write work raises the
    balance by the reward a second time and writes the record, whether its
    transaction write works or not: it answers with the success message
    when that write works, and with "Failed to claim reward. Please try
    again." and no transaction when it does not. *)
Theorem X24_failed_record_write_repeats_credit (now now' : Z)
    (tls : Z -> string) (fails' : StoreCall -> bool) (userId : string)
    (t : Z) (s : Store) (milestone : Milestone) (u : AppUser)
    (Hfind : find (fun m => bool_decide (target m = t)) getMilestoneConfig
             = Some milestone)
    (Hu : users s !! userId = Some u)
    (Hid : user_id u = userId)
    (Hnot : ~ claimedFor s userId t)
    (Hlow : lowerTiersClaimed s userId t)
    (HV : t <= validReferralCount s userId)
    (Hreads : fails' GetUsers = false /\ fails' GetProducts = false /\
              fails' GetRewards = false /\ fails' (GetUser userId) = false)
    (Hwrites : fails' (SaveUser userId) = false /\
               fails' (AddReward userId) = false) :
  let s1 := creditedStore u milestone s in
  claimReferralMilestone true failAddReward now tls userId t s =
    Ok (mkResult false "Failed to claim reward. Please try again.") s1 /\
  referral_rewards s1 = referral_rewards s /\
  transactions s1 = transactions s /\
  balanceField (users s1) userId = or0 (balance u) + reward milestone /\
  exists r s2,
    claimReferralMilestone true fails' now' tls userId t s1 = Ok r s2 /\
    balanceField (users s2) userId =
      or0 (balance u) + reward milestone + reward milestone /\
    referral_rewards s2 =
      referral_rewards s ++
        [mkReward userId (target milestone) (reward milestone) RwClaimed now']
    /\
    (if fails' (CreateTransaction userId)
     then r = mkResult false "Failed to claim reward. Please try again." /\
          transactions s2 = transactions s
     else r = mkResult true ("Successfully claimed ₦" +:+
                               tls (reward milestone) +:+ " reward!") /\
          length (transactions s2) = S (length (transactions s))).
Proof.
  cbv zeta.
  destruct Hreads as (Hgu & Hgp & Hgr & Hguser).
  destruct Hwrites as (Hsave & Hadd').
  set (u1 := with_balance (or0 (balance u) + reward milestone) u).
  assert (Hu1 : users (creditedStore u milestone s) !! userId = Some u1).
  { cbn [creditedStore users set_users]. rewrite Hid. apply lookup_insert_eq. }
  split; [| split; [reflexivity | split; [reflexivity | split]]].
  - destruct (claim_run failAddReward now tls userId t s milestone u)
      as (r & s' & Hrun & [(Hf & _ & Hmsg & ->) |
           [(_ & Hadd & _) | (_ & Hadd & _)]]);
      try reflexivity; try assumption; try discriminate Hadd.
    rewrite Hrun. destruct r as [b msg]. cbn in Hf, Hmsg.
    rewrite Hf, Hmsg. reflexivity.
  - unfold balanceField. rewrite Hu1. reflexivity.
  - assert (Hbal : forall s2,
               users s2 = <[user_id u1 :=
                              with_balance (or0 (balance u1) + reward milestone)
                                           u1]>
                            (users (creditedStore u milestone s)) ->
               balanceField (users s2) userId =
               or0 (balance u) + reward milestone + reward milestone).
    { intros s2 E. unfold balanceField. rewrite E.
      cbn [user_id u1 with_balance]. rewrite Hid, lookup_insert_eq.
      reflexivity. }
    destruct (claim_run fails' now' tls userId t (creditedStore u milestone s)
                milestone u1)
      as (r & s' & Hrun & [(_ & Hadd & _) |
           [(Hf & _ & Htx & Hmsg & ->) | (Ht & _ & Htx & Hmsg & ->)]]);
      try assumption.
    + cbn [u1 user_id with_balance]. rewrite Hid. exact Hsave.
    + rewrite validReferralCount_creditedStore; [exact HV |].
      rewrite Hid. exact Hu.
    + congruence.
    + exists r, (recordedStore now' userId u1 milestone
                   (creditedStore u milestone s)).
      split; [exact Hrun |]. split; [apply Hbal; reflexivity |].
      split; [reflexivity |]. rewrite Htx.
      split; [| reflexivity].
      destruct r as [b msg]. cbn in Hf, Hmsg. rewrite Hf, Hmsg. reflexivity.
    + exists r, (claimedStore now' userId u1 milestone
                   (creditedStore u milestone s)).
      split; [exact Hrun |]. split; [apply Hbal; reflexivity |].
      split; [reflexivity |]. rewrite Htx.
      split.
      * destruct r as [b msg]. cbn in Ht, Hmsg. rewrite Ht, Hmsg.
        reflexivity.
      * cbn [claimedStore transactions creditedStore set_users].
        rewrite length_app. cbn [length]. lia.
Qed.

Lemma X24_failed_record_write_repeats_credit_witness :
  exists s1 s2,
    claimReferralMilestone true failAddReward 1 pretty "root" 5 referralsStore
    = Ok (mkResult false "Failed to claim reward. Please try again.") s1 /\
    balanceField (users s1) "root" = 1000 /\
    claimReferralMilestone true failCreateTransaction 2 pretty "root" 5 s1
    = Ok (mkResult false "Failed to claim reward. Please try again.") s2 /\
    balanceField (users s2) "root" = 2000 /\
    length (referral_rewards s2) = 1%nat /\
    transactions s2 = [].
Proof.
  assert (HV : 5 <= validReferralCount referralsStore "root")
    by (vm_compute; discriminate).
  destruct (X24_failed_record_write_repeats_credit 1 2 pretty
              failCreateTransaction "root" 5
              referralsStore (mkMilestone "VIP1" 5 1000)
              (plainUser "root" None) eq_refl eq_refl eq_refl)
    as (Hrun & _ & _ & Hb1 & r & s2 & Hrun2 & Hb2 & Hrw & Hr & Htx);
    [| | exact HV | repeat split | repeat split |].
  - intros (r & Hr & _). apply elem_of_nil in Hr. contradiction.
  - intros m Hin Hlt. exfalso. unfold getMilestoneConfig in Hin.
    repeat (apply elem_of_cons in Hin as [-> | Hin]; [cbn in Hlt; lia |]).
    apply elem_of_nil in Hin. contradiction.
  - eexists _, s2. split; [exact Hrun |]. split; [exact Hb1 |].
    split; [rewrite Hrun2, Hr; reflexivity |].
    split; [exact Hb2 |]. split; [rewrite Hrw; reflexivity |].
    rewrite Htx. reflexivity.
Defined.

End MilestoneFacts.

(** ** Facts about the daily claims *)

Module DailyFacts.
Import Daily.

Lemma hasClaimedToday_app fails now iso userId productId claims claims' :
  hasClaimedToday true fails now iso userId productId (claims ++ claims') =
  hasClaimedToday true fails now iso userId productId claims ||
  hasClaimedToday true fails now iso userId productId claims'.
Proof.
  unfold hasClaimedToday, getUserClaimsForDate. cbn [negb].
  destruct (fails GetClaims); [reflexivity |].
  rewrite filter_app. apply existsb_app.
Qed.

Lemma hasClaimedToday_one fails now iso userId productId c :
  hasClaimedToday true fails now iso userId productId [c] =
  negb (fails GetClaims) &&
  bool_decide (cl_userId c = userId /\ cl_dateKey c = iso now) &&
  String.eqb (cl_productId c) productId.
Proof.
  unfold hasClaimedToday, getUserClaimsForDate. cbn [negb].
  destruct (fails GetClaims); [reflexivity |]. cbn [negb andb].
  rewrite filter_cons, filter_nil.
  destruct (decide (cl_userId c = userId /\ cl_dateKey c = iso now)) as [H | H].
  - rewrite bool_decide_eq_true_2 by exact H. cbn. apply orb_false_r.
  - rewrite bool_decide_eq_false_2 by exact H. reflexivity.
Qed.

(** X27. A daily claim that was recorded is found, and only where it
    belongs. [addClaim] throws on the server and when the write fails;
    when it returns, the claim is appended to the collection. After it,
    [hasClaimedToday] answers true for the claim's user and product on the
    day of the claim's date key (when the claims can be read), keeps every
    true answer it gave before, and answers as before for every other user,
    product or day. On the server, and when the claims cannot be read, it
    answers false. *)
Theorem X27_recorded_claim_is_found (client : bool)
    (fails : DailyCall -> bool) (iso : Z -> string) (c : Claim)
    (claims claims' : list Claim)
    (Hadd : addClaim client fails c claims = Some claims') :
  client = true /\ fails AddClaim = false /\ claims' = claims ++ [c] /\
  (forall fails' now,
      fails' GetClaims = false -> cl_dateKey c = iso now ->
      hasClaimedToday true fails' now iso (cl_userId c) (cl_productId c)
        claims' = true) /\
  (forall fails' now userId productId,
      hasClaimedToday true fails' now iso userId productId claims = true ->
      hasClaimedToday true fails' now iso userId productId claims' = true) /\
  (forall client' fails' now userId productId,
      (cl_userId c, cl_productId c, cl_dateKey c)
      <> (userId, productId, iso now) ->
      hasClaimedToday client' fails' now iso userId productId claims' =
      hasClaimedToday client' fails' now iso userId productId claims) /\
  (forall fails' now userId productId,
      hasClaimedToday false fails' now iso userId productId claims' = false /\
      (fails' GetClaims = true ->
       hasClaimedToday true fails' now iso userId productId claims' = false)).
Proof.
  unfold addClaim in Hadd.
  destruct client; cbn [negb] in Hadd; [| discriminate Hadd].
  destruct (fails AddClaim) eqn:Hf; [discriminate Hadd |].
  injection Hadd as <-.
  split; [reflexivity |]. split; [reflexivity |]. split; [reflexivity |].
  split; [| split; [| split]].
  - intros fails' now Hread Hkey.
    rewrite hasClaimedToday_app, hasClaimedToday_one, Hread.
    rewrite bool_decide_eq_true_2 by auto.
    rewrite String.eqb_refl. apply orb_true_r.
  - intros fails' now userId productId H.
    rewrite hasClaimedToday_app, H. reflexivity.
  - intros client' fails' now userId productId Hne.
    destruct client'; [| reflexivity].
    rewrite hasClaimedToday_app, hasClaimedToday_one.
    destruct (decide (cl_userId c = userId /\ cl_dateKey c = iso now))
      as [[Hu Hk] | H].
    + destruct (String.eqb_spec (cl_productId c) productId) as [Hp | Hp];
        [exfalso; apply Hne; congruence |].
      rewrite andb_false_r. apply orb_false_r.
    + rewrite bool_decide_eq_false_2 by exact H.
      rewrite andb_false_r. apply orb_false_r.
  - intros fails' now userId productId. split; [reflexivity |].
    intros Hread. unfold hasClaimedToday, getUserClaimsForDate.
    cbn [negb]. rewrite Hread. reflexivity.
Qed.

Lemma X27_recorded_claim_is_found_witness :
  let c := mkClaim "dave" "p1" 117 86400000 "1970-01-02" in
  let iso := fun now : Z => if now <? 86400000 then "1970-01-01"
                            else "1970-01-02" in
  addClaim true nofail c [] = Some [c] /\
  hasClaimedToday true nofail 0 iso "dave" "p1" [] = false /\
  hasClaimedToday true nofail 86400000 iso "dave" "p1" [c] = true /\
  hasClaimedToday true nofail 0 iso "dave" "p1" [c] = false.
Proof.
  cbv zeta.
  pose proof (X27_recorded_claim_is_found true nofail
                (fun now : Z => if now <? 86400000 then "1970-01-01"
                                else "1970-01-02")
                (mkClaim "dave" "p1" 117 86400000 "1970-01-02") [] _ eq_refl)
    as (_ & _ & _ & Hfound & _ & Hother & _).
  split; [reflexivity |]. split; [reflexivity |]. split.
  - apply (Hfound nofail 86400000); reflexivity.
  - change [mkClaim "dave" "p1" 117 86400000 "1970-01-02"]
      with ([] ++ [mkClaim "dave" "p1" 117 86400000 "1970-01-02"]).
    rewrite (Hother true nofail 0 "dave" "p1"); [reflexivity |].
    intros H. discriminate H.
Defined.

End DailyFacts.
